(** * Dependency resolution of the typings manager

    A shallow embedding of [src/lib/dependencies.ts] (the tree resolver and
    the merge of the three ecosystem subtrees) and of the readers of
    [utils/fs.ts] it relies on, followed by the properties established about
    them.

    Conventions of the embedding:
    - a JavaScript value read from a manifest is a [Value];
    - a JavaScript object used as a dictionary (the four dependency maps of a
      tree node, the dependency tables of a manifest) is a [gmap string _];
    - a promise is a [Promise]: fulfilled with a value, rejected with an
      error, or not settled within the given number of nested manifest
      expansions (the [fuel] of the recursive resolvers);
    - the [parent] back-reference of a node is the chain of [src] values that
      following [.parent] visits, the only thing the resolver ever reads
      through it. *)

From Stdlib Require Import ZArith NArith.
From stdpp Require Import base option list gmap strings fin_maps relations
  sorting.

Set Warnings "-register-all".

Local Open Scope string_scope.

(** ** JavaScript values *)

Module Js.

(** What [JSON.parse] can produce, plus [undefined] for an absent
    property.  Numbers are kept as integers: the resolver only ever tests
    a number for truthiness. *)
Inductive Value :=
| VUndefined
| VNull
| VBool (b : bool)
| VNumber (z : Z)
| VString (s : string)
| VArray (items : list Value)
| VObject (props : list (string * Value)).

(** [typeof v === 'string'] *)
Definition isString (v : Value) : bool :=
  match v with VString _ => true | _ => false end.

(** [v !== undefined] *)
Definition isDefined (v : Value) : bool :=
  match v with VUndefined => false | _ => true end.

(** ToBoolean, as used by [!!v] and [v || w]. *)
Definition truthy (v : Value) : bool :=
  match v with
  | VUndefined | VNull => false
  | VBool b => b
  | VNumber z => negb (z =? 0)%Z
  | VString s => negb (String.eqb s "")
  | VArray _ | VObject _ => true
  end.

(** [v || w] *)
Definition orElse (v w : Value) : Value := if truthy v then v else w.

(** [xtend(a, b)] on dictionaries: a fresh object with the keys of [a],
    then those of [b], the later source winning on a shared key. *)
Definition extend {A} (a b : gmap string A) : gmap string A := b ∪ a.

End Js.

Import Js.

(** ** Tree nodes *)

(** The view of a node that its descendants have through [parent]: its
    [src] and its own [parent]. *)
Inductive Ancestor := mkAncestor {
  a_src : option string;
  a_parent : option Ancestor
}.

(** The [src] values met by [tree.src], [tree.parent.src], ... *)
Fixpoint ancestry (a : Ancestor) : list (option string) :=
  a_src a :: match a_parent a with
             | Some p => ancestry p
             | None => []
             end.

(** [DependencyTree] of [interfaces/main]. *)
Inductive DependencyTree := mkTree {
  type : option string;
  ambient : bool;
  missing : bool;
  src : option string;
  name : Value;
  version : Value;
  main : Value;
  browser : Value;
  typings : Value;
  browserTypings : Value;
  parent : option Ancestor;
  dependencies : gmap string DependencyTree;
  devDependencies : gmap string DependencyTree;
  ambientDependencies : gmap string DependencyTree;
  ambientDevDependencies : gmap string DependencyTree
}.

Abbreviation DependencyBranch := (gmap string DependencyTree).

(** What a child sees when it is handed [tree] as its parent. *)
Definition asParent (tree : DependencyTree) : Ancestor :=
  {| a_src := src tree; a_parent := parent tree |}.

(** The [src] values along the chain of parent links that starts at a node. *)
Definition srcChain (tree : DependencyTree) : list (option string) :=
  ancestry (asParent tree).

Definition DEFAULT_DEPENDENCY : DependencyTree :=
  {| type := None;
     ambient := false;
     missing := false;
     src := None;
     name := VUndefined;
     version := VUndefined;
     main := VUndefined;
     browser := VUndefined;
     typings := VUndefined;
     browserTypings := VUndefined;
     parent := None;
     dependencies := ∅;
     devDependencies := ∅;
     ambientDependencies := ∅;
     ambientDevDependencies := ∅ |}.

(** [extend(DEFAULT_DEPENDENCY, { missing: true })] *)
Definition MISSING_DEPENDENCY : DependencyTree :=
  {| type := type DEFAULT_DEPENDENCY;
     ambient := ambient DEFAULT_DEPENDENCY;
     missing := true;
     src := src DEFAULT_DEPENDENCY;
     name := name DEFAULT_DEPENDENCY;
     version := version DEFAULT_DEPENDENCY;
     main := main DEFAULT_DEPENDENCY;
     browser := browser DEFAULT_DEPENDENCY;
     typings := typings DEFAULT_DEPENDENCY;
     browserTypings := browserTypings DEFAULT_DEPENDENCY;
     parent := parent DEFAULT_DEPENDENCY;
     dependencies := dependencies DEFAULT_DEPENDENCY;
     devDependencies := devDependencies DEFAULT_DEPENDENCY;
     ambientDependencies := ambientDependencies DEFAULT_DEPENDENCY;
     ambientDevDependencies := ambientDevDependencies DEFAULT_DEPENDENCY |}.

(** [extend(MISSING_DEPENDENCY, { type, src, parent })], the node returned
    when a manifest cannot be read. *)
Definition missingAt (ty src' : option string) (parent' : option Ancestor)
  : DependencyTree :=
  {| type := ty;
     ambient := ambient MISSING_DEPENDENCY;
     missing := missing MISSING_DEPENDENCY;
     src := src';
     name := name MISSING_DEPENDENCY;
     version := version MISSING_DEPENDENCY;
     main := main MISSING_DEPENDENCY;
     browser := browser MISSING_DEPENDENCY;
     typings := typings MISSING_DEPENDENCY;
     browserTypings := browserTypings MISSING_DEPENDENCY;
     parent := parent';
     dependencies := dependencies MISSING_DEPENDENCY;
     devDependencies := devDependencies MISSING_DEPENDENCY;
     ambientDependencies := ambientDependencies MISSING_DEPENDENCY;
     ambientDevDependencies := ambientDevDependencies MISSING_DEPENDENCY |}.

(** ** Merging the ecosystem subtrees *)

Module Merge.

(** The test guarding the override of the entry fields. *)
Definition hasStringEntry (t : DependencyTree) : bool :=
  isString (main t) || isString (browser t)
  || isString (typings t) || isString (browserTypings t).

(** One turn of the [forEach] of [mergeDependencies]: [dependency] is the
    node being built, [dependencyTree] the subtree folded into it. *)
Definition mergeStep (dependency dependencyTree : DependencyTree)
  : DependencyTree :=
  let override := hasStringEntry dependencyTree in
  let pick {A} (f : DependencyTree -> A) : A :=
    if override then f dependencyTree else f dependency in
  {| type := type dependency;
     ambient := ambient dependency;
     missing := missing dependency;
     src := pick src;
     name := pick name;
     version := version dependency;
     main := pick main;
     browser := pick browser;
     typings := pick typings;
     browserTypings := pick browserTypings;
     parent := parent dependency;
     dependencies :=
       extend (dependencies dependency) (dependencies dependencyTree);
     devDependencies :=
       extend (devDependencies dependency) (devDependencies dependencyTree);
     ambientDependencies :=
       extend (ambientDependencies dependency)
              (ambientDependencies dependencyTree);
     ambientDevDependencies := ambientDevDependencies dependency |}.

Definition mergeDependencies (trees : list DependencyTree) : DependencyTree :=
  fold_left mergeStep trees DEFAULT_DEPENDENCY.

(** The six fields that the override assigns together. *)
Definition entryFields (t : DependencyTree)
  : Value * option string * Value * Value * Value * Value :=
  (name t, src t, main t, browser t, typings t, browserTypings t).

(** The last element of a list that satisfies a test. *)
Definition lastWhere {A} (p : A -> bool) (l : list A) : option A :=
  List.find p (rev l).

(** A subtree "defines" an entry field when the field is present at all. *)
Definition definesEntry (t : DependencyTree) : bool :=
  isDefined (main t) || isDefined (browser t)
  || isDefined (typings t) || isDefined (browserTypings t).

(** The entry fields that a selection rule [defines] predicts for the
    merge of [trees]. *)
Definition entryOfLast (defines : DependencyTree -> bool)
           (trees : list DependencyTree) :=
  match lastWhere defines trees with
  | Some winner => entryFields winner
  | None => entryFields DEFAULT_DEPENDENCY
  end.

(** Left-to-right union of a family of dictionaries, later ones winning. *)
Definition unionOf (f : DependencyTree -> DependencyBranch)
           (trees : list DependencyTree) : DependencyBranch :=
  fold_left (fun acc t => extend acc (f t)) trees ∅.

(** The selection rule read literally: the last subtree in which one of the
    four entry fields is present decides the six fields of the root. *)
Definition lastDefiningDecides (trees : list DependencyTree) : Prop :=
  entryFields (mergeDependencies trees) = entryOfLast definesEntry trees.

End Merge.

Import Merge.

(** ** Configuration constants ([utils/config]) *)

Definition PROJECT_NAME : string := "typings".
Definition CONFIG_FILE : string := PROJECT_NAME +:+ ".json".

(** ** Manifests *)

(** A value of a native dependency table: one dependency string or an
    ordered list of candidates. *)
Inductive DependencyValue :=
| One (dependency : string)
| Many (candidates : list string).

Definition arrify (v : DependencyValue) : list string :=
  match v with
  | One dependency => [dependency]
  | Many candidates => candidates
  end.

(** The fields that the readers look at in a parsed manifest
    ([typings.json], [package.json], [bower.json], [.bowerrc]).  An absent
    scalar is [VUndefined]; an absent dependency table is the empty table,
    which is what [extend(undefined)] turns it into. *)
Record Manifest := mkManifest {
  m_name : Value;
  m_version : Value;
  m_main : Value;
  m_browser : Value;
  m_typings : Value;
  m_browserTypings : Value;
  m_ambient : Value;
  m_directory : option string;
  m_dependencies : gmap string DependencyValue;
  m_devDependencies : gmap string DependencyValue;
  m_optionalDependencies : gmap string DependencyValue;
  m_ambientDependencies : gmap string DependencyValue;
  m_ambientDevDependencies : gmap string DependencyValue
}.

(** [Dependency] of [interfaces/main], the result of [parseDependency]. *)
Record Dependency := mkDependency {
  d_type : string;
  d_location : string
}.

(** Options for resolving dependencies.  The [ambient] flag is [ambient_opt]
    here, [ambient] being the field of a tree node. *)
Record Options := mkOptions {
  cwd : string;
  dev : bool;
  ambient_opt : bool
}.

(** [extend(options, { dev: false, ambient: false })] *)
Definition childOptions (options : Options) : Options :=
  {| cwd := cwd options; dev := false; ambient_opt := false |}.

(** [extend(options, { dev: false, ambient: false, cwd })] *)
Definition childOptionsAt (options : Options) (cwd' : string) : Options :=
  {| cwd := cwd'; dev := false; ambient_opt := false |}.

(** ** The outside world *)

(** File contents: a JavaScript string, as its UTF-16 code units. *)
Abbreviation Text := (list N).

Definition BOM : N := 65279. (* 0xFEFF *)

(** [strip-bom]: drop one leading U+FEFF. *)
Definition stripBom (x : Text) : Text :=
  match x with
  | c :: rest => if (c =? BOM)%N then rest else x
  | [] => x
  end.

(** Everything the resolver obtains from Node, from the network and from
    the helper modules [utils/path], [utils/find] and [utils/parse].  A
    rejected promise of these collaborators is [None]. *)
Record Env := mkEnv {
  (* path, url *)
  resolve : list string -> string;
  join : list string -> string;
  dirname : string -> string;
  resolveUrl : string -> string -> string;
  (* utils/path *)
  isDefinition : string -> bool;
  isHttp : string -> bool;
  (* utils/find *)
  findUp : string -> string -> option string;
  findConfigFile : string -> option string;
  (* utils/parse *)
  parseDependency : string -> Dependency;
  (* fs.readFile(path, 'utf8'), the HTTP GET of readHttp, parse-json *)
  readFile : string -> option Text;
  readHttp : string -> option Text;
  parseJson : Text -> string -> option Manifest
}.

(** ** Readers of [utils/fs] *)

Module Fs.
Section Fs.
Context (E : Env).

Definition readJson (path : string) : option Manifest :=
  contents ← readFile E path;
  parseJson E (stripBom contents) path.

Definition parseConfig (config : Manifest) (path : string) : Manifest :=
  config.

Definition readFileFrom (from : string) : option Text :=
  if isHttp E from then readHttp E from else readFile E from.

Definition readJsonFrom (from : string) : option Manifest :=
  contents ← readFileFrom from;
  parseJson E (stripBom contents) from.

Definition readConfigFrom (path : string) : option Manifest :=
  (fun data => parseConfig data path) <$> readJsonFrom path.

End Fs.
End Fs.

(** ** Promises *)

(** [invariant(tree.src !== filename, 'Circular dependency detected in %s',
    currentSrc)] *)
Inductive Error :=
| CircularDependency (currentSrc : option string).

Inductive Promise (A : Type) :=
| Fulfilled (a : A)
| Rejected (e : Error)
| Unsettled.
Arguments Fulfilled {A} a.
Arguments Rejected {A} e.
Arguments Unsettled {A}.

#[global] Instance Promise_ret : MRet Promise := fun A a => Fulfilled a.
#[global] Instance Promise_bind : MBind Promise := fun A B f p =>
  match p with
  | Fulfilled a => f a
  | Rejected e => Rejected e
  | Unsettled => Unsettled
  end.

(** [Promise.all].  When several members fail the model reports the first
    one in array order. *)
Fixpoint all {A} (promises : list (Promise A)) : Promise (list A) :=
  match promises with
  | [] => Fulfilled []
  | p :: rest => a ← p; as' ← all rest; Fulfilled (a :: as')
  end.

(** [zipObject(keys, values)] *)
Definition zipObject {A} (keys : list string) (values : list A)
  : gmap string A :=
  list_to_map (zip keys values).

(** [Promise.all(keys.map(f)).then(partial(zipObject, keys))] over the
    entries of a dependency table. *)
Definition resolveEach {A B} (f : string -> A -> Promise B)
           (table : gmap string A) : Promise (gmap string B) :=
  let entries := map_to_list table in
  values ← all ((fun entry => f entry.1 entry.2) <$> entries);
  Fulfilled (zipObject entries.*1 values).

(** ** The resolver, one manifest expansion at a time *)

(** The three functions through which the resolver re-enters itself. *)
Record Resolvers := mkResolvers {
  bowerFrom :
    string -> string -> Options -> option Ancestor -> Promise DependencyTree;
  npmFrom : string -> Options -> option Ancestor -> Promise DependencyTree;
  typeFrom : string -> Options -> option Ancestor -> Promise DependencyTree
}.

(** Check whether the filename is a circular dependency: the [do ... while
    (tree = tree.parent)] walk. *)
Fixpoint walkParents (tree : Ancestor) (filename : string)
         (currentSrc : option string) : Promise unit :=
  if decide (a_src tree = Some filename)
  then Rejected (CircularDependency currentSrc)
  else match a_parent tree with
       | Some up => walkParents up filename currentSrc
       | None => Fulfilled tt
       end.

Definition checkCircularDependency (tree : option Ancestor) (filename : string)
  : Promise unit :=
  match tree with
  | Some t => walkParents t filename (a_src t)
  | None => Fulfilled tt
  end.

(** [first.then(tree => tree.missing ? next() : tree)], the body of the
    [reduce] of [resolveTypeDependencyMap]. *)
Definition orElseTry (resolveOne : string -> Promise DependencyTree)
           (result : Promise DependencyTree) (dependency : string)
  : Promise DependencyTree :=
  tree ← result;
  if missing tree then resolveOne dependency else Fulfilled tree.

(** Resolve to the first found dependency of a list of candidates. *)
Definition resolveCandidates (resolveOne : string -> Promise DependencyTree)
           (candidates : list string) : Promise DependencyTree :=
  fold_left (orElseTry resolveOne) candidates (Fulfilled MISSING_DEPENDENCY).

Module Body.
Section Body.
Context (E : Env) (self : Resolvers).

(** Resolve the path to bower components. *)
Definition resolveBowerComponentPath (path : string) : string :=
  match Fs.readJson E (resolve E [path; ".bowerrc"]) with
  | Some bowerrc =>
      let directory :=
        match m_directory bowerrc with
        | Some d => if String.eqb d "" then "bower_components" else d
        | None => "bower_components"
        end in
      resolve E [path; directory]
  | None => resolve E [path; "bower_components"]
  end.

(** Resolve a local file dependency. *)
Definition resolveFileDependency (location : string) (options : Options)
           (parent : option Ancestor) : Promise DependencyTree :=
  let src :=
    if isHttp E location then location
    else match parent with
         | Some p =>
             match a_src p with
             | Some psrc =>
                 if isHttp E psrc then resolveUrl E psrc location
                 else resolve E [cwd options; location]
             | None => resolve E [cwd options; location]
             end
         | None => resolve E [cwd options; location]
         end in
  if negb (isDefinition E src)
  then typeFrom self src options parent
  else
    (* Resolve direct typings using [typings] property. *)
    Fulfilled
      {| type := Some PROJECT_NAME;
         ambient := ambient DEFAULT_DEPENDENCY;
         missing := missing DEFAULT_DEPENDENCY;
         src := Some src;
         name := name DEFAULT_DEPENDENCY;
         version := version DEFAULT_DEPENDENCY;
         main := main DEFAULT_DEPENDENCY;
         browser := browser DEFAULT_DEPENDENCY;
         typings := VString src;
         browserTypings := browserTypings DEFAULT_DEPENDENCY;
         parent := parent;
         dependencies := dependencies DEFAULT_DEPENDENCY;
         devDependencies := devDependencies DEFAULT_DEPENDENCY;
         ambientDependencies := ambientDependencies DEFAULT_DEPENDENCY;
         ambientDevDependencies := ambientDevDependencies DEFAULT_DEPENDENCY |}.

(** Resolve a dependency in NPM. *)
Definition resolveNpmDependency (name : string) (options : Options)
           (parent : option Ancestor) : Promise DependencyTree :=
  match findUp E (cwd options) (join E ["node_modules"; name]) with
  | Some modulePath =>
      if isDefinition E modulePath
      then resolveFileDependency modulePath options parent
      else npmFrom self modulePath options parent
  | None => Fulfilled (missingAt (Some "npm") None None)
  end.

(** Resolve a dependency in Bower.  The rejection handler of the source is
    not represented: [resolveBowerComponentPath] never rejects. *)
Definition resolveBowerDependency (name : string) (options : Options)
           (parent : option Ancestor) : Promise DependencyTree :=
  let componentPath := resolveBowerComponentPath (cwd options) in
  let modulePath := resolve E [componentPath; name] in
  if isDefinition E modulePath
  then resolveFileDependency modulePath options parent
  else bowerFrom self modulePath componentPath options parent.

(** Resolve a single dependency object. *)
Definition resolveDependency (dependency : Dependency) (options : Options)
           (parent : option Ancestor) : Promise DependencyTree :=
  if String.eqb (d_type dependency) "npm"
  then resolveNpmDependency (d_location dependency) options parent
  else if String.eqb (d_type dependency) "bower"
  then resolveBowerDependency (d_location dependency) options parent
  else resolveFileDependency (d_location dependency) options parent.

(** Recursively resolve dependencies from a list and component path. *)
Definition resolveBowerDependencyMap (componentPath : string)
           (dependencies : gmap string DependencyValue) (options : Options)
           (parent : DependencyTree) : Promise DependencyBranch :=
  resolveEach
    (fun name _ =>
       let modulePath := resolve E [componentPath; name; "bower.json"] in
       let resolveOptions := childOptions options in
       bowerFrom self modulePath componentPath resolveOptions
                 (Some (asParent parent)))
    dependencies.

(** Recursively resolve dependencies from a list and component path. *)
Definition resolveNpmDependencyMap (src : string)
           (dependencies : gmap string DependencyValue) (options : Options)
           (parent : DependencyTree) : Promise DependencyBranch :=
  let cwd := dirname E src in
  resolveEach
    (fun name _ =>
       let resolveOptions := childOptionsAt options cwd in
       resolveNpmDependency (join E [name; "package.json"]) resolveOptions
                            (Some (asParent parent)))
    dependencies.

(** Resolve type dependency map from a cache directory. *)
Definition resolveTypeDependencyMap (src : string)
           (dependencies : gmap string DependencyValue) (options : Options)
           (parent : DependencyTree) : Promise DependencyBranch :=
  let cwd := dirname E src in
  resolveEach
    (fun name value =>
       (* Map over the dependency list and resolve to the first found
          dependency. *)
       resolveCandidates
         (fun dependency =>
            let resolveOptions := childOptionsAt options cwd in
            resolveDependency (parseDependency E dependency) resolveOptions
                              (Some (asParent parent)))
         (arrify value))
    dependencies.

(** The assignments [tree.dependencies = ...] and so on. *)
Definition setBranches (tree : DependencyTree)
           (deps devDeps ambientDeps ambientDevDeps : DependencyBranch)
  : DependencyTree :=
  {| type := type tree;
     ambient := ambient tree;
     missing := missing tree;
     src := src tree;
     name := name tree;
     version := version tree;
     main := main tree;
     browser := browser tree;
     typings := typings tree;
     browserTypings := browserTypings tree;
     parent := parent tree;
     dependencies := deps;
     devDependencies := devDeps;
     ambientDependencies := ambientDeps;
     ambientDevDependencies := ambientDevDeps |}.

(** Resolve bower dependencies from a path. *)
Definition resolveBowerDependencyFrom (src : string) (componentPath : string)
           (options : Options) (parent : option Ancestor)
  : Promise DependencyTree :=
  _ ← checkCircularDependency parent src;
  match Fs.readJson E src with
  | Some bowerJson =>
      let tree :=
        {| type := Some "bower";
           ambient := ambient DEFAULT_DEPENDENCY;
           missing := missing DEFAULT_DEPENDENCY;
           src := Some src;
           name := m_name bowerJson;
           version := m_version bowerJson;
           main := m_main bowerJson;
           browser := m_browser bowerJson;
           typings := m_typings bowerJson;
           browserTypings := m_browserTypings bowerJson;
           parent := parent;
           dependencies := dependencies DEFAULT_DEPENDENCY;
           devDependencies := devDependencies DEFAULT_DEPENDENCY;
           ambientDependencies := ambientDependencies DEFAULT_DEPENDENCY;
           ambientDevDependencies :=
             ambientDevDependencies DEFAULT_DEPENDENCY |} in
      let dependencyMap := m_dependencies bowerJson in
      let devDependencyMap :=
        if dev options then m_devDependencies bowerJson else ∅ in
      dependencies' ←
        resolveBowerDependencyMap componentPath dependencyMap options tree;
      devDependencies' ←
        resolveBowerDependencyMap componentPath devDependencyMap options tree;
      typedPackage ←
        typeFrom self (join E [src; ".."; CONFIG_FILE]) options
                 (Some (asParent tree));
      Fulfilled
        (setBranches tree
           (extend dependencies' (dependencies typedPackage))
           (extend devDependencies' (devDependencies typedPackage))
           (ambientDependencies tree)
           (ambientDevDependencies tree))
  | None => Fulfilled (missingAt (Some "bower") (Some src) parent)
  end.

(** Resolve NPM dependencies from [package.json]. *)
Definition resolveNpmDependencyFrom (src : string) (options : Options)
           (parent : option Ancestor) : Promise DependencyTree :=
  _ ← checkCircularDependency parent src;
  match Fs.readJson E src with
  | Some packageJson =>
      let tree :=
        {| type := Some "npm";
           ambient := ambient DEFAULT_DEPENDENCY;
           missing := missing DEFAULT_DEPENDENCY;
           src := Some src;
           name := m_name packageJson;
           version := m_version packageJson;
           main := orElse (m_main packageJson) (VString "index.js");
           browser := m_browser packageJson;
           typings := m_typings packageJson;
           browserTypings := m_browserTypings packageJson;
           parent := parent;
           dependencies := dependencies DEFAULT_DEPENDENCY;
           devDependencies := devDependencies DEFAULT_DEPENDENCY;
           ambientDependencies := ambientDependencies DEFAULT_DEPENDENCY;
           ambientDevDependencies :=
             ambientDevDependencies DEFAULT_DEPENDENCY |} in
      let dependencyMap :=
        extend (m_dependencies packageJson)
               (m_optionalDependencies packageJson) in
      let devDependencyMap :=
        if dev options then m_devDependencies packageJson else ∅ in
      dependencies' ← resolveNpmDependencyMap src dependencyMap options tree;
      devDependencies' ←
        resolveNpmDependencyMap src devDependencyMap options tree;
      typedPackage ←
        typeFrom self (join E [src; ".."; CONFIG_FILE]) options
                 (Some (asParent tree));
      Fulfilled
        (setBranches tree
           (extend dependencies' (dependencies typedPackage))
           (extend devDependencies' (devDependencies typedPackage))
           (ambientDependencies tree)
           (ambientDevDependencies tree))
  | None => Fulfilled (missingAt (Some "npm") (Some src) parent)
  end.

(** Resolve type dependencies from an exact path. *)
Definition resolveTypeDependencyFrom (src : string) (options : Options)
           (parent : option Ancestor) : Promise DependencyTree :=
  _ ← checkCircularDependency parent src;
  match Fs.readConfigFrom E src with
  | Some config =>
      let tree :=
        {| type := Some PROJECT_NAME;
           ambient := truthy (m_ambient config);
           missing := missing DEFAULT_DEPENDENCY;
           src := Some src;
           name := m_name config;
           version := version DEFAULT_DEPENDENCY;
           main := m_main config;
           browser := m_browser config;
           typings := m_typings config;
           browserTypings := m_browserTypings config;
           parent := parent;
           dependencies := dependencies DEFAULT_DEPENDENCY;
           devDependencies := devDependencies DEFAULT_DEPENDENCY;
           ambientDependencies := ambientDependencies DEFAULT_DEPENDENCY;
           ambientDevDependencies :=
             ambientDevDependencies DEFAULT_DEPENDENCY |} in
      let ambient := ambient_opt options in
      let dev := dev options in
      let dependencyMap := m_dependencies config in
      let devDependencyMap := if dev then m_devDependencies config else ∅ in
      let ambientDependencyMap :=
        if ambient then m_ambientDependencies config else ∅ in
      let ambientDevDependencyMap :=
        if ambient && dev then m_ambientDevDependencies config else ∅ in
      dependencies' ← resolveTypeDependencyMap src dependencyMap options tree;
      devDependencies' ←
        resolveTypeDependencyMap src devDependencyMap options tree;
      ambientDependencies' ←
        resolveTypeDependencyMap src ambientDependencyMap options tree;
      ambientDevDependencies' ←
        resolveTypeDependencyMap src ambientDevDependencyMap options tree;
      Fulfilled
        (setBranches tree dependencies' devDependencies'
                     ambientDependencies' ambientDevDependencies')
  | None => Fulfilled (missingAt (Some PROJECT_NAME) (Some src) parent)
  end.

(** Follow and resolve bower dependencies. *)
Definition resolveBowerDependencies (options : Options)
  : Promise DependencyTree :=
  match findUp E (cwd options) "bower.json" with
  | Some bowerJsonPath =>
      let componentPath :=
        resolveBowerComponentPath (dirname E bowerJsonPath) in
      bowerFrom self bowerJsonPath componentPath options None
  | None => Fulfilled (missingAt (Some "bower") None None)
  end.

(** Follow and resolve npm dependencies. *)
Definition resolveNpmDependencies (options : Options)
  : Promise DependencyTree :=
  match findUp E (cwd options) "package.json" with
  | Some packgeJsonPath => npmFrom self packgeJsonPath options None
  | None => Fulfilled (missingAt (Some "npm") None None)
  end.

(** Follow and resolve type dependencies. *)
Definition resolveTypeDependencies (options : Options)
  : Promise DependencyTree :=
  match findConfigFile E (cwd options) with
  | Some path => typeFrom self path options None
  | None => Fulfilled MISSING_DEPENDENCY
  end.

(** Resolve all dependencies at the current path. *)
Definition resolveDependencies (options : Options) : Promise DependencyTree :=
  trees ← all [ resolveBowerDependencies options;
                resolveNpmDependencies options;
                resolveTypeDependencies options ];
  Fulfilled (mergeDependencies trees).

End Body.
End Body.

(** ** Tying the knot *)

(** [resolvers E fuel] resolves through at most [fuel] nested manifest
    expansions; a promise that would need more is left [Unsettled]. *)
Fixpoint resolvers (E : Env) (fuel : nat) : Resolvers :=
  match fuel with
  | O =>
      {| bowerFrom := fun _ _ _ _ => Unsettled;
         npmFrom := fun _ _ _ => Unsettled;
         typeFrom := fun _ _ _ => Unsettled |}
  | S fuel' =>
      {| bowerFrom := Body.resolveBowerDependencyFrom E (resolvers E fuel');
         npmFrom := Body.resolveNpmDependencyFrom E (resolvers E fuel');
         typeFrom := Body.resolveTypeDependencyFrom E (resolvers E fuel') |}
  end.

Section Resolver.
Context (E : Env) (fuel : nat).

Definition resolveBowerDependencyFrom := bowerFrom (resolvers E fuel).
Definition resolveNpmDependencyFrom := npmFrom (resolvers E fuel).
Definition resolveTypeDependencyFrom := typeFrom (resolvers E fuel).

Definition resolveFileDependency :=
  Body.resolveFileDependency E (resolvers E fuel).
Definition resolveNpmDependency :=
  Body.resolveNpmDependency E (resolvers E fuel).
Definition resolveBowerDependency :=
  Body.resolveBowerDependency E (resolvers E fuel).
Definition resolveDependency := Body.resolveDependency E (resolvers E fuel).

Definition resolveBowerDependencyMap :=
  Body.resolveBowerDependencyMap E (resolvers E fuel).
Definition resolveNpmDependencyMap :=
  Body.resolveNpmDependencyMap E (resolvers E fuel).
Definition resolveTypeDependencyMap :=
  Body.resolveTypeDependencyMap E (resolvers E fuel).

Definition resolveBowerDependencies :=
  Body.resolveBowerDependencies E (resolvers E fuel).
Definition resolveNpmDependencies :=
  Body.resolveNpmDependencies E (resolvers E fuel).
Definition resolveTypeDependencies :=
  Body.resolveTypeDependencies E (resolvers E fuel).
Definition resolveDependencies :=
  Body.resolveDependencies E (resolvers E fuel).

End Resolver.

(** ** Vocabulary of the statements *)

(** The fetch operation hands its caller a text without a leading
    byte-order mark. *)
Definition fetchStripsBom (E : Env) : Prop :=
  forall from text, Fs.readFileFrom E from = Some text -> head text <> Some BOM.

(** [result] is [own] overridden key-wise by [overlay]. *)
Definition overriddenBy (own overlay result : DependencyBranch) : Prop :=
  forall k,
    result !! k = match overlay !! k with
                  | Some t => Some t
                  | None => own !! k
                  end.

(** [c] is an entry of one of the four dependency maps of [t]. *)
Definition child (t c : DependencyTree) : Prop :=
  exists k,
    dependencies t !! k = Some c \/ devDependencies t !! k = Some c
    \/ ambientDependencies t !! k = Some c
    \/ ambientDevDependencies t !! k = Some c.

(** [n] is a node of the tree rooted at [root]. *)
Definition inTree (root n : DependencyTree) : Prop := rtc child root n.

(** A property of every node of a tree. *)
Definition allNodes (P : DependencyTree -> Prop) (t : DependencyTree) : Prop :=
  forall n, inTree t n -> P n.

(** The [src] values along the parent links of a node are pairwise
    distinct. *)
Definition distinctChain (n : DependencyTree) : Prop := NoDup (srcChain n).

(** The chain behind a parent reference is free of repetitions and of
    declaration files. *)
Definition manifestChain (E : Env) (parent : option Ancestor) : Prop :=
  match parent with
  | Some a =>
      NoDup (ancestry a)
      /\ forall s, Some s ∈ ancestry a -> isDefinition E s = false
  | None => True
  end.

(** Resolvers whose trees satisfy [Q] whenever they are asked to read a
    manifest under a parent and options admitted by [pre]. *)
Definition resolversYield (E : Env)
           (pre : string -> Options -> option Ancestor -> Prop)
           (Q : DependencyTree -> Prop) (self : Resolvers) : Prop :=
  (forall src componentPath options parent t,
     pre src options parent ->
     bowerFrom self src componentPath options parent = Fulfilled t -> Q t)
  /\ (forall src options parent t,
        pre src options parent ->
        npmFrom self src options parent = Fulfilled t -> Q t)
  /\ (forall src options parent t,
        pre src options parent ->
        typeFrom self src options parent = Fulfilled t -> Q t).

(** The three maps that only a root may fill are empty. *)
Definition plainNode (n : DependencyTree) : Prop :=
  devDependencies n = ∅ /\ ambientDependencies n = ∅
  /\ ambientDevDependencies n = ∅.

(** Two families of resolvers that agree whenever [dev] is off. *)
Definition agreeWithoutDev (self self' : Resolvers) : Prop :=
  (forall src componentPath options parent,
     dev options = false ->
     bowerFrom self' src componentPath options parent
     = bowerFrom self src componentPath options parent)
  /\ (forall src options parent,
        dev options = false ->
        npmFrom self' src options parent = npmFrom self src options parent)
  /\ (forall src options parent,
        dev options = false ->
        typeFrom self' src options parent = typeFrom self src options parent).

(** The manifests the resolver looks for by name are not declaration
    files: what the path helpers are assumed to guarantee about
    [typings.json], [bower.json] and [package.json]. *)
Record ManifestPaths (E : Env) : Prop := {
  overlay_manifest : forall src,
    isDefinition E (join E [src; ".."; CONFIG_FILE]) = false;
  component_manifest : forall componentPath name,
    isDefinition E (resolve E [componentPath; name; "bower.json"]) = false;
  found_bower_manifest : forall dir path,
    findUp E dir "bower.json" = Some path -> isDefinition E path = false;
  found_npm_manifest : forall dir path,
    findUp E dir "package.json" = Some path -> isDefinition E path = false;
  found_config : forall dir path,
    findConfigFile E dir = Some path -> isDefinition E path = false
}.

(** A manifest without the dev dependency [key]. *)
Definition dropDevDependency (key : string) (m : Manifest) : Manifest :=
  {| m_name := m_name m; m_version := m_version m; m_main := m_main m;
     m_browser := m_browser m; m_typings := m_typings m;
     m_browserTypings := m_browserTypings m; m_ambient := m_ambient m;
     m_directory := m_directory m;
     m_dependencies := m_dependencies m;
     m_devDependencies := delete key (m_devDependencies m);
     m_optionalDependencies := m_optionalDependencies m;
     m_ambientDependencies := m_ambientDependencies m;
     m_ambientDevDependencies := m_ambientDevDependencies m |}.

(** The world [E] after the dev dependency [key] has been removed from the
    manifest at [manifestPath]. *)
Definition withoutDevDependency (E : Env) (manifestPath key : string) : Env :=
  {| resolve := resolve E;
     join := join E;
     dirname := dirname E;
     resolveUrl := resolveUrl E;
     isDefinition := isDefinition E;
     isHttp := isHttp E;
     findUp := findUp E;
     findConfigFile := findConfigFile E;
     parseDependency := parseDependency E;
     readFile := readFile E;
     readHttp := readHttp E;
     parseJson := fun text path =>
       if String.eqb path manifestPath
       then dropDevDependency key <$> parseJson E text path
       else parseJson E text path |}.

(** How a read in the changed world compares with the same read in the
    original one. *)
Inductive readsAlike (key : string)
  : option Manifest -> option Manifest -> Prop :=
| reads_none : readsAlike key None None
| reads_same m : readsAlike key (Some m) (Some m)
| reads_dropped m : readsAlike key (Some (dropDevDependency key m)) (Some m).

(** The two maps of an npm or bower node [tree] are its own resolved maps
    [own] and [ownDev] overridden by those of the native config node
    [typedPackage] read at [overlay]; nothing changes when there is no such
    config. *)
Definition overlaidBy (E : Env) (overlay : string)
           (own ownDev : DependencyBranch) (typedPackage tree : DependencyTree)
  : Prop :=
  overriddenBy own (dependencies typedPackage) (dependencies tree)
  /\ overriddenBy ownDev (devDependencies typedPackage) (devDependencies tree)
  /\ (Fs.readConfigFrom E overlay = None ->
      missing typedPackage = true
      /\ dependencies typedPackage = ∅ /\ devDependencies typedPackage = ∅
      /\ dependencies tree = own /\ devDependencies tree = ownDev).

(** A candidate that resolves, to a missing node. *)
Definition resolvesMissing (resolveOne : string -> Promise DependencyTree)
           (candidate : string) : Prop :=
  exists tree, resolveOne candidate = Fulfilled tree /\ missing tree = true.

(** ** Fixtures *)

(** Small worlds and trees on which the statements below are exercised. *)
Module Fixture.

Definition leaf (ty : string) (src' : string) : DependencyTree :=
  {| type := Some ty; ambient := false; missing := false; src := Some src';
     name := VUndefined; version := VUndefined; main := VUndefined;
     browser := VUndefined; typings := VString src';
     browserTypings := VUndefined; parent := None;
     dependencies := ∅; devDependencies := ∅;
     ambientDependencies := ∅; ambientDevDependencies := ∅ |}.

(** A bower subtree without a manifest. *)
Definition bowerTree : DependencyTree := missingAt (Some "bower") None None.

(** An npm subtree read from a [package.json] without a [main]. *)
Definition npmTree : DependencyTree :=
  {| type := Some "npm"; ambient := false; missing := false;
     src := Some "/p/package.json";
     name := VString "p"; version := VString "1.0.0";
     main := VString "index.js";
     browser := VUndefined; typings := VUndefined;
     browserTypings := VUndefined; parent := None;
     dependencies := {[ "a" := leaf "npm" "/p/node_modules/a.d.ts" ]};
     devDependencies := ∅;
     ambientDependencies := ∅; ambientDevDependencies := ∅ |}.

(** A native subtree whose only entry field is a [browser] mapping and that
    was resolved with [dev] and [ambient] on. *)
Definition nativeTree : DependencyTree :=
  {| type := Some PROJECT_NAME; ambient := false; missing := false;
     src := Some "/p/typings.json";
     name := VString "native"; version := VUndefined;
     main := VUndefined;
     browser := VObject [("b", VString "browser.d.ts")];
     typings := VUndefined;
     browserTypings := VUndefined; parent := None;
     dependencies := {[ "a" := leaf PROJECT_NAME "/p/a.d.ts" ]};
     devDependencies := ∅;
     ambientDependencies := ∅;
     ambientDevDependencies := {[ "mocha" := leaf PROJECT_NAME "/p/mocha.d.ts" ]} |}.

(** A toy file system: absolute POSIX paths, files given by a table that
    holds, for each path, the text found there and what it parses to. *)
Fixpoint segments (s acc : string) : list string :=
  match s with
  | EmptyString => [acc]
  | String c rest =>
      if Ascii.eqb c (Ascii.ascii_of_nat 47) then acc :: segments rest ""
      else segments rest (acc +:+ String c "")
  end.

Definition pushSegment (stack : list string) (seg : string) : list string :=
  if String.eqb seg ".." then removelast stack
  else if String.eqb seg "" || String.eqb seg "." then stack
  else stack ++ [seg].

Definition isAbsolute (s : string) : bool := String.prefix "/" s.

Definition pathOf (stack : list string) : string :=
  "/" +:+ String.concat "/" stack.

Definition joinPath (parts : list string) : string :=
  let stack := fold_left pushSegment (parts ≫= fun p => segments p "") [] in
  match parts with
  | first :: _ =>
      if isAbsolute first then pathOf stack else String.concat "/" stack
  | [] => "."
  end.

Definition resolvePath (parts : list string) : string :=
  pathOf (fold_left
            (fun stack part =>
               fold_left pushSegment (segments part "")
                         (if isAbsolute part then [] else stack))
            parts []).

Definition endsWith (suffix s : string) : bool :=
  String.eqb
    (String.substring (String.length s - String.length suffix)
                      (String.length suffix) s)
    suffix.

Definition parseScheme (s : string) : Dependency :=
  if String.prefix "npm:" s
  then mkDependency "npm" (String.substring 4 (String.length s) s)
  else if String.prefix "bower:" s
  then mkDependency "bower" (String.substring 6 (String.length s) s)
  else if String.prefix "file:" s
  then mkDependency "file" (String.substring 5 (String.length s) s)
  else mkDependency "file" s.

Definition toyFindUp (files : gmap string (Text * Manifest))
           (dir filename : string) : option string :=
  let stack := fold_left pushSegment (segments dir "") [] in
  List.find (fun p => bool_decide (is_Some (files !! p)))
            ((fun n => resolvePath [pathOf (take n stack); filename])
               <$> rev (seq 0 (S (length stack)))).

Definition world (files : gmap string (Text * Manifest)) : Env :=
  {| resolve := resolvePath;
     join := joinPath;
     dirname := fun p => joinPath [p; ".."];
     resolveUrl := fun base rel => resolvePath [base; ".."; rel];
     isDefinition := endsWith ".d.ts";
     isHttp := fun s => String.prefix "http://" s || String.prefix "https://" s;
     findUp := toyFindUp files;
     findConfigFile := fun dir => toyFindUp files dir CONFIG_FILE;
     parseDependency := parseScheme;
     readFile := fun p => fst <$> files !! p;
     readHttp := fun p => fst <$> files !! p;
     parseJson := fun _ p => snd <$> files !! p |}.

Definition emptyManifest : Manifest :=
  {| m_name := VUndefined; m_version := VUndefined; m_main := VUndefined;
     m_browser := VUndefined; m_typings := VUndefined;
     m_browserTypings := VUndefined; m_ambient := VUndefined;
     m_directory := None;
     m_dependencies := ∅; m_devDependencies := ∅;
     m_optionalDependencies := ∅; m_ambientDependencies := ∅;
     m_ambientDevDependencies := ∅ |}.

Definition file (m : Manifest) : Text * Manifest := ([123; 125]%N, m).

Definition typingsDependencies : gmap string DependencyValue :=
  {[ "a" := One "file:typed/a.d.ts";
     "b" := Many [ "file:absent/typings.json";
                   "file:vendor/b/typings.json";
                   "file:typed/b.d.ts" ];
     "z" := Many [ "file:absent/typings.json"; "npm:nope" ] ]}.

(** A project with all three manifests.  [typings.json] overrides the npm
    dependency [a] and lists three candidates for [b], the first of which
    does not exist, and two for [z], none of which exists; it starts with a
    byte-order mark. *)
Definition projectFiles : gmap string (Text * Manifest) :=
  list_to_map
    [ ("/p/package.json",
       file {| m_name := VString "p"; m_version := VString "1.0.0";
               m_main := VUndefined; m_browser := VUndefined;
               m_typings := VUndefined; m_browserTypings := VUndefined;
               m_ambient := VUndefined; m_directory := None;
               m_dependencies := {[ "a" := One "^1.0.0" ]};
               m_devDependencies := {[ "mocha" := One "^2.0.0" ]};
               m_optionalDependencies := ∅;
               m_ambientDependencies := ∅;
               m_ambientDevDependencies := ∅ |});
      ("/p/node_modules/a/package.json",
       file {| m_name := VString "a"; m_version := VString "1.2.0";
               m_main := VString "lib/a.js"; m_browser := VUndefined;
               m_typings := VUndefined; m_browserTypings := VUndefined;
               m_ambient := VUndefined; m_directory := None;
               m_dependencies := ∅; m_devDependencies := ∅;
               m_optionalDependencies := ∅;
               m_ambientDependencies := ∅;
               m_ambientDevDependencies := ∅ |});
      ("/p/node_modules/mocha/package.json", file emptyManifest);
      ("/p/typings.json",
       ((BOM :: 123 :: 125 :: [])%N,
        {| m_name := VString "p-typings"; m_version := VUndefined;
           m_main := VString "index.d.ts"; m_browser := VUndefined;
           m_typings := VUndefined; m_browserTypings := VUndefined;
           m_ambient := VUndefined; m_directory := None;
           m_dependencies := typingsDependencies;
           m_devDependencies := {[ "mocha" := One "file:typed/mocha.d.ts" ]};
           m_optionalDependencies := ∅;
           m_ambientDependencies := ∅;
           m_ambientDevDependencies :=
             {[ "node" := One "file:typed/node.d.ts" ]} |}));
      ("/p/vendor/b/typings.json",
       file {| m_name := VString "b"; m_version := VUndefined;
               m_main := VString "b.d.ts"; m_browser := VUndefined;
               m_typings := VUndefined; m_browserTypings := VUndefined;
               m_ambient := VUndefined; m_directory := None;
               m_dependencies := ∅; m_devDependencies := ∅;
               m_optionalDependencies := ∅;
               m_ambientDependencies := ∅;
               m_ambientDevDependencies := ∅ |});
      ("/p/bower.json",
       file {| m_name := VString "p"; m_version := VUndefined;
               m_main := VArray [VString "p.js"; VString "p.css"];
               m_browser := VUndefined;
               m_typings := VUndefined; m_browserTypings := VUndefined;
               m_ambient := VUndefined; m_directory := None;
               m_dependencies := {[ "c" := One "*" ]};
               m_devDependencies := ∅;
               m_optionalDependencies := ∅;
               m_ambientDependencies := ∅;
               m_ambientDevDependencies := ∅ |});
      ("/p/bower_components/c/bower.json",
       file {| m_name := VString "c"; m_version := VUndefined;
               m_main := VUndefined; m_browser := VUndefined;
               m_typings := VString "c.d.ts"; m_browserTypings := VUndefined;
               m_ambient := VUndefined; m_directory := None;
               m_dependencies := ∅; m_devDependencies := ∅;
               m_optionalDependencies := ∅;
               m_ambientDependencies := ∅;
               m_ambientDevDependencies := ∅ |}) ].

Definition projectWorld : Env := world projectFiles.

(** Two native configs that depend on each other. *)
Definition cyclicFiles : gmap string (Text * Manifest) :=
  list_to_map
    [ ("/c/typings.json",
       file {| m_name := VString "c"; m_version := VUndefined;
               m_main := VUndefined; m_browser := VUndefined;
               m_typings := VUndefined; m_browserTypings := VUndefined;
               m_ambient := VUndefined; m_directory := None;
               m_dependencies := {[ "x" := One "file:x/typings.json" ]};
               m_devDependencies := ∅;
               m_optionalDependencies := ∅;
               m_ambientDependencies := ∅;
               m_ambientDevDependencies := ∅ |});
      ("/c/x/typings.json",
       file {| m_name := VString "x"; m_version := VUndefined;
               m_main := VUndefined; m_browser := VUndefined;
               m_typings := VUndefined; m_browserTypings := VUndefined;
               m_ambient := VUndefined; m_directory := None;
               m_dependencies := {[ "c" := One "file:../typings.json" ]};
               m_devDependencies := ∅;
               m_optionalDependencies := ∅;
               m_ambientDependencies := ∅;
               m_ambientDevDependencies := ∅ |}) ].

Definition cyclicWorld : Env := world cyclicFiles.

(** The chain of parents under which [/c/typings.json] is met again. *)
Definition cyclicParent : Ancestor :=
  {| a_src := Some "/c/x/typings.json";
     a_parent := Some {| a_src := Some "/c/typings.json";
                         a_parent := None |} |}.

(** A directory with no manifest at all. *)
Definition emptyWorld : Env := world ∅.

Definition here (dev' ambient' : bool) : Options :=
  {| cwd := "/p"; dev := dev'; ambient_opt := ambient' |}.

End Fixture.

(** * Further code and the vocabulary of its properties *)

(** ** Shapes of resolved nodes *)

(** All four dependency maps of a node are empty. *)
Definition emptyBranches (n : DependencyTree) : Prop :=
  dependencies n = ∅ /\ devDependencies n = ∅
  /\ ambientDependencies n = ∅ /\ ambientDevDependencies n = ∅.

(** None of the labels and entry fields of a node is set. *)
Definition blankEntry (n : DependencyTree) : Prop :=
  name n = VUndefined /\ version n = VUndefined /\ main n = VUndefined
  /\ browser n = VUndefined /\ typings n = VUndefined
  /\ browserTypings n = VUndefined.

(** What the resolver guarantees of each single node it builds. *)
Definition wellFormedNode (n : DependencyTree) : Prop :=
  (missing n = true -> emptyBranches n /\ blankEntry n /\ ambient n = false)
  /\ (ambient n = true -> type n = Some PROJECT_NAME)
  /\ (type n = Some "npm" \/ type n = Some "bower" ->
      ambientDependencies n = ∅ /\ ambientDevDependencies n = ∅)
  /\ (type n = None \/ type n = Some "npm" \/ type n = Some "bower"
      \/ type n = Some PROJECT_NAME)
  /\ (missing n = false -> type n <> None -> is_Some (src n)).

(** The [src] that [resolveFileDependency] computes for a location. *)
Definition fileDependencySrc (E : Env) (location : string) (options : Options)
           (parent : option Ancestor) : string :=
  if isHttp E location then location
  else match parent with
       | Some p =>
           match a_src p with
           | Some psrc =>
               if isHttp E psrc then resolveUrl E psrc location
               else resolve E [cwd options; location]
           | None => resolve E [cwd options; location]
           end
       | None => resolve E [cwd options; location]
       end.

(** The node that stands for a declaration file. *)
Definition definitionNode (src' : string) (parent' : option Ancestor)
  : DependencyTree :=
  {| type := Some PROJECT_NAME;
     ambient := false;
     missing := false;
     src := Some src';
     name := VUndefined;
     version := VUndefined;
     main := VUndefined;
     browser := VUndefined;
     typings := VString src';
     browserTypings := VUndefined;
     parent := parent';
     dependencies := ∅;
     devDependencies := ∅;
     ambientDependencies := ∅;
     ambientDevDependencies := ∅ |}.

(** A subtree that contributes nothing to a merge. *)
Definition inert (t : DependencyTree) : Prop :=
  hasStringEntry t = false /\ dependencies t = ∅ /\ devDependencies t = ∅
  /\ ambientDependencies t = ∅.

(** [xtend] copies the own keys of its arguments with
    [target[key] = source[key]], an assignment that creates no key named
    [__proto__]: a table without that key is copied key by key. *)
Definition withoutProto {A} (table : gmap string A) : Prop :=
  table !! "__proto__" = None.

(** ** More fixtures *)

Module Sample.

(** A project whose native dependency [g] declares itself ambient, with a
    [package.json] next to the native config. *)
Definition ambientFiles : gmap string (Text * Manifest) :=
  list_to_map
    [ ("/a/typings.json",
       Fixture.file
         {| m_name := VString "a"; m_version := VUndefined;
            m_main := VString "index.d.ts"; m_browser := VUndefined;
            m_typings := VUndefined; m_browserTypings := VUndefined;
            m_ambient := VUndefined; m_directory := None;
            m_dependencies := {[ "g" := One "file:g/typings.json" ]};
            m_devDependencies := ∅;
            m_optionalDependencies := ∅;
            m_ambientDependencies := {[ "node" := One "file:typed/node.d.ts" ]};
            m_ambientDevDependencies := ∅ |});
      ("/a/g/typings.json",
       Fixture.file
         {| m_name := VString "g"; m_version := VUndefined;
            m_main := VString "g.d.ts"; m_browser := VUndefined;
            m_typings := VUndefined; m_browserTypings := VUndefined;
            m_ambient := VBool true; m_directory := None;
            m_dependencies := ∅; m_devDependencies := ∅;
            m_optionalDependencies := ∅;
            m_ambientDependencies := ∅;
            m_ambientDevDependencies := ∅ |});
      ("/a/package.json",
       Fixture.file
         {| m_name := VString "a"; m_version := VString "0.1.0";
            m_main := VUndefined; m_browser := VUndefined;
            m_typings := VUndefined; m_browserTypings := VUndefined;
            m_ambient := VUndefined; m_directory := None;
            m_dependencies := ∅; m_devDependencies := ∅;
            m_optionalDependencies := {[ "fsevents" := One "^1.0.0" ]};
            m_ambientDependencies := ∅;
            m_ambientDevDependencies := ∅ |});
      ("/a/broken/package.json", ([123]%N, Fixture.emptyManifest)) ].

(** As [Fixture.world], but a text that is not ["{}"] does not parse. *)
Definition strictWorld (files : gmap string (Text * Manifest)) : Env :=
  {| resolve := resolve (Fixture.world files);
     join := join (Fixture.world files);
     dirname := dirname (Fixture.world files);
     resolveUrl := resolveUrl (Fixture.world files);
     isDefinition := isDefinition (Fixture.world files);
     isHttp := isHttp (Fixture.world files);
     findUp := findUp (Fixture.world files);
     findConfigFile := findConfigFile (Fixture.world files);
     parseDependency := parseDependency (Fixture.world files);
     readFile := readFile (Fixture.world files);
     readHttp := readHttp (Fixture.world files);
     parseJson := fun text path =>
       if bool_decide (text = [123; 125]%N)
       then parseJson (Fixture.world files) text path
       else None |}.

Definition ambientWorld : Env := strictWorld ambientFiles.

Definition there (dev' ambient' : bool) : Options :=
  {| cwd := "/a"; dev := dev'; ambient_opt := ambient' |}.

End Sample.

(** ** Writing files back ([utils/fs]) *)

Module Transform.

Definition LF : N := 10.
Definition CR : N := 13.

(** Detect the EOL character of a string: the first match of
    [/\r\n|\r|\n/]. *)
Fixpoint detectEOL (contents : Text) : option Text :=
  match contents with
  | [] => None
  | c :: rest =>
      if (c =? CR)%N then
        match rest with
        | d :: _ => if (d =? LF)%N then Some [CR; LF] else Some [CR]
        | [] => Some [CR]
        end
      else if (c =? LF)%N then Some [LF]
      else detectEOL rest
  end.

(** [s.replace(/\n/g, eol)], for a replacement [eol] without a dollar
    sign. *)
Definition replaceNewlines (eol s : Text) : Text :=
  s ≫= fun c => if (c =? LF)%N then eol else [c].

(** The third argument of [JSON.stringify]. *)
Inductive Indent :=
| IndentNumber (n : Z)
| IndentText (s : Text).

(** The JSON collaborators, for documents of type [J]: [JSON.stringify(json,
    null, indent)], [parse-json], [detect-indent] and [os.EOL]. *)
Record JsonLib (J : Type) := mkJsonLib {
  stringify : J -> Indent -> Text;
  parse : Text -> string -> option J;
  detectIndent : Text -> Text;
  EOL : Text
}.
Arguments stringify {J} _ _ _.
Arguments parse {J} _ _ _.
Arguments detectIndent {J} _ _.
Arguments EOL {J} _.

(** Stringify an object as JSON for the filesystem (appends EOL).  An
    argument left out is [None]. *)
Definition stringifyJson {J} (L : JsonLib J) (json : J)
           (indent : option Indent) (eol : option Text) : Text :=
  let indent := default (IndentNumber 2) indent in
  let eol := default (EOL L) eol in
  (replaceNewlines eol (stringify L json indent) ++ eol)%list.

(** *** Promises that touch the disk *)

(** The calls made to the file system and to [lockfile]. *)
Inductive FsCall :=
| CallLock (lockfile : string)
| CallReadFile (path : string)
| CallWriteFile (path : string) (contents : Text)
| CallUnlock (lockfile : string).

Inductive Reason :=
| CallFailed (call : FsCall)
| ParseFailed
| TransformFailed.

Inductive Settled (A : Type) :=
| Resolved (a : A)
| Failed (reason : Reason).
Arguments Resolved {A} a.
Arguments Failed {A} reason.

#[global] Instance Settled_bind : MBind Settled := fun A B f p =>
  match p with
  | Resolved a => f a
  | Failed reason => Failed reason
  end.

(** A promise together with the calls made until it settles. *)
Abbreviation Task A := (list FsCall * Settled A)%type.

(** How each call of one run ends. *)
Record Disk := mkDisk {
  lockOk : string -> bool;
  fileAt : string -> option Text;
  writeOk : string -> Text -> bool;
  unlockOk : string -> bool
}.

Definition attempt {A} (call : FsCall) (outcome : option A) : Task A :=
  ([call], match outcome with
           | Some a => Resolved a
           | None => Failed (CallFailed call)
           end).

Definition lock (D : Disk) (lockfile : string) : Task unit :=
  attempt (CallLock lockfile)
          (if lockOk D lockfile then Some tt else None).

Definition unlock (D : Disk) (lockfile : string) : Task unit :=
  attempt (CallUnlock lockfile)
          (if unlockOk D lockfile then Some tt else None).

Definition readFile (D : Disk) (path : string) : Task Text :=
  attempt (CallReadFile path) (fileAt D path).

Definition writeFile (D : Disk) (path : string) (contents : Text)
  : Task unit :=
  attempt (CallWriteFile path contents)
          (if writeOk D path contents then Some tt else None).

(** [Promise.resolve(value)] *)
Definition settled {A} (value : Settled A) : Task A := ([], value).

Definition after {A} (calls : list FsCall) (p : Task A) : Task A :=
  ((calls ++ p.1)%list, p.2).

(** [p.then(onFulfilled, onRejected)] *)
Definition thenElse {A B} (p : Task A) (onFulfilled : A -> Task B)
           (onRejected : Reason -> Task B) : Task B :=
  match p.2 with
  | Resolved a => after p.1 (onFulfilled a)
  | Failed reason => after p.1 (onRejected reason)
  end.

(** [p.then(onFulfilled)] *)
Definition andThen {A B} (p : Task A) (onFulfilled : A -> Task B) : Task B :=
  thenElse p onFulfilled (fun reason => settled (Failed reason)).

(** [promiseFinally(p, cb)]: run [cb] once [p] has settled and keep the
    outcome of [p], unless [cb] fails. *)
Definition promiseFinally {A} (p : Task A) (cb : Task unit) : Task A :=
  after p.1
        (match cb.2 with
         | Resolved _ => (cb.1, p.2)
         | Failed reason => (cb.1, Failed reason)
         end).

(** Transform a file contents (read and write in a single operation). *)
Definition transformFile (D : Disk) (path : string)
           (transform : option Text -> Settled Text) : Task unit :=
  let handle (contents : option Text) : Task unit :=
    andThen (settled (transform contents))
            (fun contents' => writeFile D path contents') in
  let lockfile := path +:+ ".lock" in
  let result :=
    thenElse (andThen (lock D lockfile) (fun _ => readFile D path))
             (fun contents => handle (Some contents))
             (fun _ => handle None) in
  promiseFinally result (unlock D lockfile).

(** [contents ? a : undefined] *)
Definition whenContents {A} (contents : option Text) (a : Text -> option A)
  : option A :=
  match contents with
  | Some (c :: rest) => a (c :: rest)
  | Some [] | None => None
  end.

(** The callback that [transformJson] hands to [transformFile]. *)
Definition jsonTransform {J} (L : JsonLib J) (path : string)
           (transform : option J -> Settled J) (contents : option Text)
  : Settled Text :=
  let indent :=
    whenContents contents (fun c => Some (IndentText (detectIndent L c))) in
  json ←
    match contents with
    | Some (c :: rest) =>
        match parse L (c :: rest) path with
        | Some json => Resolved (Some json)
        | None => Failed ParseFailed
        end
    | Some [] | None => Resolved None
    end;
  let eol := whenContents contents detectEOL in
  json' ← transform json;
  Resolved (stringifyJson L json' indent eol).

(** Transform a JSON file in a single operation. *)
Definition transformJson {J} (D : Disk) (L : JsonLib J) (path : string)
           (transform : option J -> Settled J) : Task unit :=
  transformFile D path (jsonTransform L path transform).

(** *** Reference listings *)

(** [array-uniq]: keep the first occurrence of each element. *)
Fixpoint uniqFrom (seen arr : list string) : list string :=
  match arr with
  | [] => []
  | el :: rest =>
      if decide (el ∈ seen) then uniqFrom seen rest
      else el :: uniqFrom (el :: seen) rest
  end.

Definition uniq (arr : list string) : list string := uniqFrom [] arr.

(** [arr.sort()]: ascending, strings compared unit by unit. *)
Definition sort (arr : list string) : list string := merge_sort String.le arr.

(** [parseReferences] and [stringifyReferences] of [utils/references]. *)
Record References := mkReferences {
  parseReferences : option Text -> string -> list string;
  stringifyReferences : list string -> string -> Text
}.

(** The list that [transformDtsFile] hands to [stringifyReferences]. *)
Definition referenceList (typings : list string) : list string :=
  sort (uniq typings).

(** The callback that [transformDtsFile] hands to [transformFile]. *)
Definition dtsTransform (R : References) (cwd : string)
           (transform : list string -> Settled (list string))
           (contents : option Text) : Settled Text :=
  let typings := parseReferences R contents cwd in
  typings' ← transform typings;
  Resolved (stringifyReferences R (referenceList typings') cwd).

Definition transformDtsFile (E : Env) (D : Disk) (R : References)
           (path : string)
           (transform : list string -> Settled (list string)) : Task unit :=
  let cwd := dirname E path in
  transformFile D path (dtsTransform R cwd transform).

(** [typings => typings.concat([file])], the transform of
    [writeDependency]. *)
Definition addReference (file : string) (typings : list string)
  : Settled (list string) :=
  Resolved (typings ++ [file])%list.

(** [typings => typings.filter(x => x !== file)], the transform of
    [removeDependency]. *)
Definition dropReference (file : string) (typings : list string)
  : Settled (list string) :=
  Resolved (filter (fun x => x <> file) typings).

End Transform.

(** ** Rendering a tree ([utils/cli]) *)

Module Cli.

(** The argument of [archy]: a labelled node with children, or a line of
    text. *)
Inductive Archy :=
| ArchyTree (label : option string) (nodes : list Archy)
| ArchyText (text : string).

(** [chalk.gray] and [archy]. *)
Record Terminal := mkTerminal {
  gray : string -> string;
  archy : Archy -> string
}.

(** [Object.keys(branch).sort()], each key with its value. *)
Definition entries {A} (branch : gmap string A) : list (string * A) :=
  omap (fun name => pair name <$> branch !! name)
       (Transform.sort (map_to_list branch).*1).

Section Cli.
Context (T : Terminal).

(** The nodes that [traverse(result, tree)] pushes onto the empty
    [result.nodes]. *)
Fixpoint traverse (tree : DependencyTree) : list Archy :=
  ((fun entry => ArchyTree (Some entry.1) entry.2)
     <$> entries (traverse <$> dependencies tree))
  ++ ((fun entry =>
         ArchyTree (Some (entry.1 +:+ " " +:+ gray T "(dev)")) entry.2)
        <$> entries (traverse <$> devDependencies tree))
  ++ ((fun entry =>
         ArchyTree (Some (entry.1 +:+ " " +:+ gray T "(ambient)")) entry.2)
        <$> entries (traverse <$> ambientDependencies tree))
  ++ ((fun entry =>
         ArchyTree (Some (entry.1 +:+ " " +:+ gray T "(ambient dev)")) entry.2)
        <$> entries (traverse <$> ambientDevDependencies tree)).

(** The tree handed to [archy]. *)
Definition archyTree (tree : DependencyTree) (name : option string) : Archy :=
  match traverse tree with
  | [] => ArchyTree name [ArchyText (gray T "(No dependencies)")]
  | nodes => ArchyTree name nodes
  end.

(** Convert a dependency tree for "archy" to render. *)
Definition archifyDependencyTree (tree : DependencyTree)
           (name : option string) : string :=
  archy T (archyTree tree name).

End Cli.

(** The label of a node, if it is one. *)
Definition labelOf (node : Archy) : option string :=
  match node with
  | ArchyTree label _ => label
  | ArchyText _ => None
  end.

End Cli.

(** ** Fixtures for the file operations *)

Module Desk.

(** The code units of a string. *)
Definition unitsOf (s : string) : Text :=
  (fun c => Ascii.N_of_ascii c) <$> String.list_ascii_of_string s.

Definition stringOf (units : Text) : string :=
  String.string_of_list_ascii ((fun c => Ascii.ascii_of_N c) <$> units).

(** A disk on which every write and every release succeeds; the lock is
    taken unless somebody holds it. *)
Definition disk (files : gmap string Text) (held : bool) : Transform.Disk :=
  {| Transform.lockOk := fun _ => negb held;
     Transform.fileAt := fun path => files !! path;
     Transform.writeOk := fun _ _ => true;
     Transform.unlockOk := fun _ => true |}.

(** Documents that are arrays of booleans, one element on a line. *)
Definition stringifyFlags (json : list bool) (indent : Transform.Indent)
  : Text :=
  let pad :=
    match indent with
    | Transform.IndentNumber n => replicate (Z.to_nat n) 32%N
    | Transform.IndentText s => s
    end in
  let element (flag : bool) :=
    (pad ++ unitsOf (if flag then "true" else "false"))%list in
  let fix elements (flags : list bool) : Text :=
    match flags with
    | [] => []
    | [flag] => (element flag ++ [Transform.LF])%list
    | flag :: rest =>
        (element flag ++ [44%N; Transform.LF] ++ elements rest)%list
    end in
  match json with
  | [] => unitsOf "[]"
  | _ => ([91%N; Transform.LF] ++ elements json ++ [93%N])%list
  end.

Definition parseFlags (contents : Text) (path : string)
  : option (list bool) :=
  match contents with
  | 91%N :: rest =>
      Some (omap (fun c => if (c =? 116)%N then Some true
                           else if (c =? 102)%N then Some false
                           else None) rest)
  | _ => None
  end.

Definition flags : Transform.JsonLib (list bool) :=
  {| Transform.stringify := stringifyFlags;
     Transform.parse := parseFlags;
     Transform.detectIndent := fun _ => [9%N];
     Transform.EOL := [Transform.LF] |}.

(** A listing with one reference on a line. *)
Fixpoint linesFrom (line : Text) (contents : Text) : list string :=
  match contents with
  | [] => match line with [] => [] | _ => [stringOf (rev line)] end
  | c :: rest =>
      if (c =? Transform.LF)%N then stringOf (rev line) :: linesFrom [] rest
      else linesFrom (c :: line) rest
  end.

Definition references : Transform.References :=
  {| Transform.parseReferences := fun contents _ =>
       match contents with
       | Some text => linesFrom [] text
       | None => []
       end;
     Transform.stringifyReferences := fun typings _ =>
       typings ≫= fun path => (unitsOf path ++ [Transform.LF])%list |}.

(** ["[\r\n\ttrue\r\n]"] at [/a/typings.json], and a text that is no
    document at [/a/notes.json]. *)
Definition files : gmap string Text :=
  list_to_map
    [ ("/a/typings.json",
       [91; 13; 10; 9; 116; 114; 117; 101; 13; 10; 93]%N);
      ("/a/notes.json", unitsOf "oops") ].

End Desk.

(** * Properties *)

(** ** Dictionaries and promises *)

Lemma lookup_extend {A} (a b : gmap string A) k :
  extend a b !! k = match b !! k with Some v => Some v | None => a !! k end.
Proof.
  unfold extend. rewrite lookup_union.
  destruct (b !! k), (a !! k); reflexivity.
Qed.

Lemma extend_empty_r {A} (a : gmap string A) : extend a ∅ = a.
Proof. unfold extend. apply (left_id_L ∅ (∪)). Qed.

(** ** The merge *)

Lemma mergeDependencies_snoc trees t :
  mergeDependencies (trees ++ [t]) = mergeStep (mergeDependencies trees) t.
Proof. unfold mergeDependencies. now rewrite fold_left_app. Qed.

Lemma lastWhere_snoc {A} (p : A -> bool) l x :
  lastWhere p (l ++ [x]) = if p x then Some x else lastWhere p l.
Proof. unfold lastWhere. rewrite rev_unit. reflexivity. Qed.

Lemma entryFields_mergeStep d t :
  entryFields (mergeStep d t)
  = if hasStringEntry t then entryFields t else entryFields d.
Proof. unfold entryFields, mergeStep. cbn. now destruct (hasStringEntry t). Qed.

Section Branches.
(** The three dictionaries that [mergeStep] folds behave alike. *)
Variable branch : DependencyTree -> DependencyBranch.
Hypothesis branch_step :
  forall d t, branch (mergeStep d t) = extend (branch d) (branch t).
Hypothesis branch_default : branch DEFAULT_DEPENDENCY = ∅.

Lemma branch_merge trees :
  branch (mergeDependencies trees) = unionOf branch trees.
Proof.
  induction trees as [|t trees IH] using rev_ind.
  - exact branch_default.
  - rewrite mergeDependencies_snoc, branch_step, IH.
    unfold unionOf. now rewrite fold_left_app.
Qed.

Lemma branch_merge3 bower npm native k :
  branch (mergeDependencies [bower; npm; native]) !! k
  = match branch native !! k with
    | Some v => Some v
    | None => match branch npm !! k with
              | Some v => Some v
              | None => branch bower !! k
              end
    end.
Proof.
  rewrite branch_merge. unfold unionOf. cbn.
  rewrite !lookup_extend, lookup_empty.
  now destruct (branch native !! k), (branch npm !! k), (branch bower !! k).
Qed.
End Branches.

(** The three dependency maps that [mergeDependencies] does fold are the
    key-wise union of the subtrees' maps, the later subtree winning. *)
Lemma merge_folded_maps bower npm native k :
  let root := mergeDependencies [bower; npm; native] in
  let union3 (f : DependencyTree -> DependencyBranch) :=
    match f native !! k with
    | Some v => Some v
    | None => match f npm !! k with
              | Some v => Some v
              | None => f bower !! k
              end
    end in
  dependencies root !! k = union3 dependencies
  /\ devDependencies root !! k = union3 devDependencies
  /\ ambientDependencies root !! k = union3 ambientDependencies.
Proof. cbv zeta. repeat split; now apply branch_merge3. Qed.

(** C1: at the subtrees [bowerTree], [npmTree], [nativeTree], where the
    native subtree carries the ambient dev dependency [mocha], the merged
    root has an empty [ambientDevDependencies]: the fourth map is not the
    union of the subtrees' maps. *)
Theorem merge_drops_ambientDevDependencies :
  let root :=
    mergeDependencies [Fixture.bowerTree; Fixture.npmTree; Fixture.nativeTree] in
  ambientDevDependencies Fixture.nativeTree !! "mocha"
  = Some (Fixture.leaf PROJECT_NAME "/p/mocha.d.ts")
  /\ ambientDevDependencies root !! "mocha" = None
  /\ ambientDevDependencies root = ∅.
Proof. cbv zeta. repeat split. Qed.

(** C2 (as stated) fails: the native subtree defines [browser] as a mapping,
    yet the root keeps the entry fields of the npm subtree. *)
Lemma lastDefiningDecides_fails :
  ~ lastDefiningDecides
      [Fixture.bowerTree; Fixture.npmTree; Fixture.nativeTree].
Proof. unfold lastDefiningDecides. vm_compute. discriminate. Qed.

(** C2 (amended): the last subtree in which one of [main], [browser],
    [typings], [browserTypings] is a string decides those four fields, [name]
    and [src] of the root; a subtree in which none of them is a string leaves
    the six fields as they were. *)
Theorem last_string_entry_decides :
  (forall trees,
     entryFields (mergeDependencies trees) = entryOfLast hasStringEntry trees)
  /\ (forall dependency dependencyTree,
        hasStringEntry dependencyTree = false ->
        entryFields (mergeStep dependency dependencyTree)
        = entryFields dependency).
Proof.
  split.
  - intros trees. unfold entryOfLast.
    induction trees as [|t trees IH] using rev_ind; [reflexivity|].
    rewrite mergeDependencies_snoc, entryFields_mergeStep, lastWhere_snoc.
    now destruct (hasStringEntry t).
  - intros d t Ht. now rewrite entryFields_mergeStep, Ht.
Qed.

Lemma last_string_entry_decides_witness :
  entryFields
    (mergeStep (mergeDependencies [Fixture.bowerTree; Fixture.npmTree])
               Fixture.nativeTree)
  = entryFields (mergeDependencies [Fixture.bowerTree; Fixture.npmTree]).
Proof.
  apply (proj2 last_string_entry_decides). reflexivity.
Defined.

(** ** Promises *)

Lemma bind_Fulfilled {A B} (p : Promise A) (f : A -> Promise B) b :
  (p ≫= f) = Fulfilled b -> exists a, p = Fulfilled a /\ f a = Fulfilled b.
Proof. destruct p as [a|e|]; cbn; [eauto | discriminate..]. Qed.

Lemma all_Fulfilled {A} (promises : list (Promise A)) values :
  all promises = Fulfilled values ->
  Forall2 (fun p v => p = Fulfilled v) promises values.
Proof.
  revert values. induction promises as [|p rest IH]; intros values H; cbn in H.
  - injection H as <-. constructor.
  - apply bind_Fulfilled in H as (a & -> & H).
    apply bind_Fulfilled in H as (vs & Hrest & H).
    injection H as <-. constructor; auto.
Qed.

Lemma all_ext {A B} (f g : A -> Promise B) (l : list A) :
  Forall (fun x => f x = g x) l -> all (f <$> l) = all (g <$> l).
Proof.
  induction 1 as [|x l Hx _ IH]; [reflexivity|].
  cbn. now rewrite Hx, IH.
Qed.

Lemma zip_entries {A B} (f : string -> A -> Promise B)
      (entries : list (string * A)) (values : list B) k :
  Forall2 (fun p v => p = Fulfilled v)
          ((fun entry => f entry.1 entry.2) <$> entries) values ->
  match (list_to_map entries : gmap string A) !! k with
  | Some a =>
      exists b, f k a = Fulfilled b /\ zipObject entries.*1 values !! k = Some b
  | None => zipObject entries.*1 values !! k = None
  end.
Proof.
  unfold zipObject. revert values.
  induction entries as [|[k0 a0] entries IH]; intros values H.
  - apply Forall2_nil_inv_l in H as ->. cbn. now rewrite !lookup_empty.
  - cbn in H. apply Forall2_cons_inv_l in H as (v & vs & Hv & Hvs & ->).
    cbn. destruct (decide (k0 = k)) as [->|Hne].
    + rewrite !lookup_insert_eq. eauto.
    + rewrite !lookup_insert_ne by done. now apply IH.
Qed.

(** What [resolveEach] returns, key by key. *)
Lemma resolveEach_Fulfilled {A B} (f : string -> A -> Promise B)
      (table : gmap string A) (branch : gmap string B) k :
  resolveEach f table = Fulfilled branch ->
  match table !! k with
  | Some a => exists b, f k a = Fulfilled b /\ branch !! k = Some b
  | None => branch !! k = None
  end.
Proof.
  unfold resolveEach. intros H.
  apply bind_Fulfilled in H as (values & Hall & H). injection H as <-.
  apply all_Fulfilled in Hall.
  pose proof (zip_entries f (map_to_list table) values k Hall) as Hz.
  now rewrite list_to_map_to_list in Hz.
Qed.

Lemma resolveEach_lookup {A B} (f : string -> A -> Promise B)
      (table : gmap string A) (branch : gmap string B) k b :
  resolveEach f table = Fulfilled branch ->
  branch !! k = Some b ->
  exists a, table !! k = Some a /\ f k a = Fulfilled b.
Proof.
  intros H Hk. pose proof (resolveEach_Fulfilled f table branch k H) as Hm.
  destruct (table !! k) as [a|].
  - destruct Hm as (b' & Hf & Hb). exists a. split; [done|]. congruence.
  - congruence.
Qed.

Lemma resolveEach_empty {A B} (f : string -> A -> Promise B) :
  resolveEach f ∅ = Fulfilled ∅.
Proof. unfold resolveEach. now rewrite map_to_list_empty. Qed.

Lemma resolveEach_ext {A B} (f g : string -> A -> Promise B)
      (table : gmap string A) :
  (forall k a, table !! k = Some a -> f k a = g k a) ->
  resolveEach f table = resolveEach g table.
Proof.
  intros H. unfold resolveEach.
  rewrite (all_ext (fun entry => f entry.1 entry.2)
                   (fun entry => g entry.1 entry.2)); [reflexivity|].
  apply Forall_forall. intros [k a] Hin. cbn.
  apply H. now apply elem_of_map_to_list.
Qed.

(** ** Unfolding the resolvers *)

Lemma resolveBowerDependencyFrom_S E fuel :
  resolveBowerDependencyFrom E (S fuel)
  = Body.resolveBowerDependencyFrom E (resolvers E fuel).
Proof. reflexivity. Qed.

Lemma resolveNpmDependencyFrom_S E fuel :
  resolveNpmDependencyFrom E (S fuel)
  = Body.resolveNpmDependencyFrom E (resolvers E fuel).
Proof. reflexivity. Qed.

Lemma resolveTypeDependencyFrom_S E fuel :
  resolveTypeDependencyFrom E (S fuel)
  = Body.resolveTypeDependencyFrom E (resolvers E fuel).
Proof. reflexivity. Qed.

(** ** Reading files *)

(** C8 (as stated) fails: [readFileFrom] returns the text of
    [/p/typings.json] with its byte-order mark. *)
Lemma fetchStripsBom_fails : ~ fetchStripsBom Fixture.projectWorld.
Proof.
  intros H.
  apply (H "/p/typings.json" (BOM :: 123 :: 125 :: [])%N); reflexivity.
Qed.

Lemma stripBom_cases (text : Text) :
  text = BOM :: stripBom text
  \/ (head text <> Some BOM /\ stripBom text = text).
Proof.
  destruct text as [|c rest]; cbn.
  - right. split; [discriminate | reflexivity].
  - destruct (N.eqb_spec c BOM) as [->|Hne].
    + now left.
    + right. split; [congruence | reflexivity].
Qed.

(** C8 (amended): whatever the local or HTTP read produces, [readFileFrom]
    returns it unchanged, and [readJsonFrom] hands it to the JSON parser with
    one leading byte-order mark removed, if there is one; [readJson] does
    the same with the text of every local file it reads. *)
Theorem bom_stripped_before_parsing E from raw :
  (if isHttp E from then readHttp E from else readFile E from) = Some raw ->
  Fs.readFileFrom E from = Some raw
  /\ Fs.readJsonFrom E from = parseJson E (stripBom raw) from
  /\ (raw = BOM :: stripBom raw
      \/ (head raw <> Some BOM /\ stripBom raw = raw))
  /\ (forall path text,
        readFile E path = Some text ->
        Fs.readJson E path = parseJson E (stripBom text) path
        /\ (text = BOM :: stripBom text
            \/ (head text <> Some BOM /\ stripBom text = text))).
Proof.
  intros Hread. unfold Fs.readJsonFrom, Fs.readFileFrom. rewrite Hread.
  split; [reflexivity|]. split; [reflexivity|].
  split; [apply stripBom_cases|].
  intros path text Htext. split; [|apply stripBom_cases].
  unfold Fs.readJson. rewrite Htext. reflexivity.
Qed.

Lemma bom_stripped_before_parsing_witness :
  Fs.readFileFrom Fixture.projectWorld "/p/typings.json"
  = Some (BOM :: 123 :: 125 :: [])%N
  /\ Fs.readJsonFrom Fixture.projectWorld "/p/typings.json"
     = parseJson Fixture.projectWorld (stripBom (BOM :: 123 :: 125 :: [])%N)
                 "/p/typings.json"
  /\ ((BOM :: 123 :: 125 :: [])%N
      = BOM :: stripBom (BOM :: 123 :: 125 :: [])%N
      \/ (head (BOM :: 123 :: 125 :: [])%N <> Some BOM
          /\ stripBom (BOM :: 123 :: 125 :: [])%N
             = (BOM :: 123 :: 125 :: [])%N))
  /\ Fs.readJson Fixture.projectWorld "/p/typings.json"
     = parseJson Fixture.projectWorld (stripBom (BOM :: 123 :: 125 :: [])%N)
                 "/p/typings.json".
Proof.
  destruct (bom_stripped_before_parsing
              Fixture.projectWorld "/p/typings.json"
              (BOM :: 123 :: 125 :: [])%N eq_refl)
    as (Hfile & Hjson & Hmark & Hlocal).
  split; [exact Hfile|]. split; [exact Hjson|]. split; [exact Hmark|].
  apply (Hlocal "/p/typings.json" (BOM :: 123 :: 125 :: [])%N).
  reflexivity.
Defined.

(** ** Missing manifests *)

(** The bower and npm readers, and the native reader once it has a path,
    label their missing node. *)
Lemma labelled_missing_nodes E fuel options :
  (findUp E (cwd options) "bower.json" = None ->
   resolveBowerDependencies E fuel options
   = Fulfilled (missingAt (Some "bower") None None))
  /\ (findUp E (cwd options) "package.json" = None ->
      resolveNpmDependencies E fuel options
      = Fulfilled (missingAt (Some "npm") None None))
  /\ (forall path,
        findUp E (cwd options) "bower.json" = Some path ->
        Fs.readJson E path = None ->
        resolveBowerDependencies E (S fuel) options
        = Fulfilled (missingAt (Some "bower") (Some path) None))
  /\ (forall path,
        findUp E (cwd options) "package.json" = Some path ->
        Fs.readJson E path = None ->
        resolveNpmDependencies E (S fuel) options
        = Fulfilled (missingAt (Some "npm") (Some path) None))
  /\ (forall path,
        findConfigFile E (cwd options) = Some path ->
        Fs.readConfigFrom E path = None ->
        resolveTypeDependencies E (S fuel) options
        = Fulfilled (missingAt (Some PROJECT_NAME) (Some path) None)).
Proof.
  unfold resolveBowerDependencies, resolveNpmDependencies,
    resolveTypeDependencies, Body.resolveBowerDependencies,
    Body.resolveNpmDependencies, Body.resolveTypeDependencies.
  repeat split.
  - now intros ->.
  - now intros ->.
  - intros path -> Hread. cbn.
    unfold Body.resolveBowerDependencyFrom. cbn. now rewrite Hread.
  - intros path -> Hread. cbn.
    unfold Body.resolveNpmDependencyFrom. cbn. now rewrite Hread.
  - intros path -> Hread. cbn.
    unfold Body.resolveTypeDependencyFrom. cbn. now rewrite Hread.
Qed.

(** C4: in a directory without any manifest the native reader returns a
    missing node with all maps empty, but its [type] is undefined instead of
    the project name. *)
Theorem native_reader_missing_untyped fuel :
  exists node,
    resolveTypeDependencies Fixture.emptyWorld fuel (Fixture.here false false)
    = Fulfilled node
    /\ missing node = true
    /\ dependencies node = ∅ /\ devDependencies node = ∅
    /\ ambientDependencies node = ∅ /\ ambientDevDependencies node = ∅
    /\ type node = None
    /\ type node <> Some PROJECT_NAME.
Proof. exists MISSING_DEPENDENCY. repeat split. discriminate. Qed.

(** ** The npm reader *)

(** C9: the node built from a [package.json] that could be read has the
    manifest's [main] when that is truthy and ["index.js"] otherwise; either
    way [main] is truthy, so it is never absent. *)
Theorem npm_main_never_absent E fuel src options parent packageJson tree :
  Fs.readJson E src = Some packageJson ->
  resolveNpmDependencyFrom E fuel src options parent = Fulfilled tree ->
  main tree = (if truthy (m_main packageJson) then m_main packageJson
               else VString "index.js")
  /\ truthy (main tree) = true
  /\ main tree <> VUndefined.
Proof.
  intros Hread Hres. destruct fuel as [|fuel]; [discriminate|].
  rewrite resolveNpmDependencyFrom_S in Hres.
  unfold Body.resolveNpmDependencyFrom in Hres. rewrite Hread in Hres.
  apply bind_Fulfilled in Hres as (_ & _ & Hres).
  apply bind_Fulfilled in Hres as (deps & _ & Hres).
  apply bind_Fulfilled in Hres as (devDeps & _ & Hres).
  apply bind_Fulfilled in Hres as (typed & _ & Hres).
  injection Hres as <-. cbn. unfold orElse.
  destruct (truthy (m_main packageJson)) eqn:Hm.
  - repeat split; [exact Hm|]. intros Hu. now rewrite Hu in Hm.
  - repeat split. discriminate.
Qed.

Lemma npm_main_never_absent_witness :
  exists packageJson tree,
    Fs.readJson Fixture.projectWorld "/p/package.json" = Some packageJson
    /\ resolveNpmDependencyFrom Fixture.projectWorld 3 "/p/package.json"
                                (Fixture.here false false) None
       = Fulfilled tree
    /\ main tree = (if truthy (m_main packageJson) then m_main packageJson
                    else VString "index.js")
    /\ truthy (main tree) = true
    /\ main tree <> VUndefined.
Proof.
  eexists _, _. split; [reflexivity|]. split; [vm_compute; reflexivity|].
  eapply (npm_main_never_absent Fixture.projectWorld 3 "/p/package.json"
            (Fixture.here false false) None); [reflexivity|].
  vm_compute. reflexivity.
Defined.

(** ** The root *)

(** C10: whenever [resolveDependencies] returns a root, that root is not
    missing and has no parent. *)
Theorem root_present_without_parent E fuel options root :
  resolveDependencies E fuel options = Fulfilled root ->
  missing root = false /\ parent root = None.
Proof.
  unfold resolveDependencies, Body.resolveDependencies. intros H.
  apply bind_Fulfilled in H as (trees & _ & H). injection H as <-.
  unfold mergeDependencies.
  assert (forall d, missing (fold_left mergeStep trees d) = missing d
                    /\ parent (fold_left mergeStep trees d) = parent d) as Hd.
  { induction trees as [|t trees IH]; intros d; cbn; [easy|].
    destruct (IH (mergeStep d t)) as [-> ->]. easy. }
  apply (Hd DEFAULT_DEPENDENCY).
Qed.

Lemma root_present_without_parent_witness :
  exists root,
    resolveDependencies Fixture.emptyWorld 0 (Fixture.here true true)
    = Fulfilled root
    /\ missing root = false /\ parent root = None.
Proof.
  eexists. split; [reflexivity|].
  apply (root_present_without_parent Fixture.emptyWorld 0
           (Fixture.here true true)).
  reflexivity.
Defined.

(** Without any manifest the three readers still return, and the root is
    the default node. *)
Lemma resolveDependencies_nothing_found E fuel options :
  findUp E (cwd options) "bower.json" = None ->
  findUp E (cwd options) "package.json" = None ->
  findConfigFile E (cwd options) = None ->
  resolveDependencies E fuel options = Fulfilled DEFAULT_DEPENDENCY.
Proof.
  intros Hb Hn Ht.
  unfold resolveDependencies, Body.resolveDependencies,
    Body.resolveBowerDependencies, Body.resolveNpmDependencies,
    Body.resolveTypeDependencies.
  now rewrite Hb, Hn, Ht.
Qed.

(** ** The native overlay of npm and bower nodes *)

Lemma typeFrom_absent E fuel src options parent typedPackage :
  Fs.readConfigFrom E src = None ->
  resolveTypeDependencyFrom E fuel src options parent = Fulfilled typedPackage ->
  typedPackage = missingAt (Some PROJECT_NAME) (Some src) parent.
Proof.
  intros Hnone H. destruct fuel as [|fuel]; [discriminate|].
  rewrite resolveTypeDependencyFrom_S in H.
  unfold Body.resolveTypeDependencyFrom in H. rewrite Hnone in H.
  apply bind_Fulfilled in H as (_ & _ & H). congruence.
Qed.

Lemma overlaidBy_extend E overlay fuel options parent own ownDev typed tree :
  resolveTypeDependencyFrom E fuel overlay options parent = Fulfilled typed ->
  dependencies tree = extend own (dependencies typed) ->
  devDependencies tree = extend ownDev (devDependencies typed) ->
  overlaidBy E overlay own ownDev typed tree.
Proof.
  intros Htyped Hd Hdd. repeat split.
  - intros k. rewrite Hd. apply lookup_extend.
  - intros k. rewrite Hdd. apply lookup_extend.
  - now rewrite (typeFrom_absent _ _ _ _ _ _ H Htyped).
  - now rewrite (typeFrom_absent _ _ _ _ _ _ H Htyped).
  - now rewrite (typeFrom_absent _ _ _ _ _ _ H Htyped).
  - rewrite Hd, (typeFrom_absent _ _ _ _ _ _ H Htyped). apply extend_empty_r.
  - rewrite Hdd, (typeFrom_absent _ _ _ _ _ _ H Htyped). apply extend_empty_r.
Qed.

(** C7: the [dependencies] and [devDependencies] of an npm or bower node are
    the ecosystem's own resolved maps overridden key-wise by those of the
    native config read next to the manifest, and are the ecosystem's own maps
    when that config cannot be read. *)
Theorem native_overlay_overrides E fuel src options parent tree :
  let overlay := join E [src; ".."; CONFIG_FILE] in
  (forall packageJson,
     Fs.readJson E src = Some packageJson ->
     resolveNpmDependencyFrom E (S fuel) src options parent = Fulfilled tree ->
     exists own ownDev typedPackage,
       resolveNpmDependencyMap E fuel src
         (extend (m_dependencies packageJson)
                 (m_optionalDependencies packageJson))
         options tree = Fulfilled own
       /\ resolveNpmDependencyMap E fuel src
            (if dev options then m_devDependencies packageJson else ∅)
            options tree = Fulfilled ownDev
       /\ resolveTypeDependencyFrom E fuel overlay options
            (Some (asParent tree)) = Fulfilled typedPackage
       /\ overlaidBy E overlay own ownDev typedPackage tree)
  /\ (forall componentPath bowerJson,
        Fs.readJson E src = Some bowerJson ->
        resolveBowerDependencyFrom E (S fuel) src componentPath options parent
        = Fulfilled tree ->
        exists own ownDev typedPackage,
          resolveBowerDependencyMap E fuel componentPath
            (m_dependencies bowerJson) options tree = Fulfilled own
          /\ resolveBowerDependencyMap E fuel componentPath
               (if dev options then m_devDependencies bowerJson else ∅)
               options tree = Fulfilled ownDev
          /\ resolveTypeDependencyFrom E fuel overlay options
               (Some (asParent tree)) = Fulfilled typedPackage
          /\ overlaidBy E overlay own ownDev typedPackage tree).
Proof.
  cbv zeta. split.
  - intros packageJson Hread H.
    rewrite resolveNpmDependencyFrom_S in H.
    unfold Body.resolveNpmDependencyFrom in H. rewrite Hread in H.
    apply bind_Fulfilled in H as (_ & _ & H).
    apply bind_Fulfilled in H as (own & Hown & H).
    apply bind_Fulfilled in H as (ownDev & HownDev & H).
    apply bind_Fulfilled in H as (typed & Htyped & H).
    injection H as <-. exists own, ownDev, typed.
    split; [exact Hown|]. split; [exact HownDev|]. split; [exact Htyped|].
    eapply overlaidBy_extend; [exact Htyped | reflexivity..].
  - intros componentPath bowerJson Hread H.
    rewrite resolveBowerDependencyFrom_S in H.
    unfold Body.resolveBowerDependencyFrom in H. rewrite Hread in H.
    apply bind_Fulfilled in H as (_ & _ & H).
    apply bind_Fulfilled in H as (own & Hown & H).
    apply bind_Fulfilled in H as (ownDev & HownDev & H).
    apply bind_Fulfilled in H as (typed & Htyped & H).
    injection H as <-. exists own, ownDev, typed.
    split; [exact Hown|]. split; [exact HownDev|]. split; [exact Htyped|].
    eapply overlaidBy_extend; [exact Htyped | reflexivity..].
Qed.

Lemma native_overlay_overrides_witness :
  (exists packageJson tree own ownDev typedPackage,
     Fs.readJson Fixture.projectWorld "/p/package.json" = Some packageJson
     /\ resolveNpmDependencyFrom Fixture.projectWorld 3 "/p/package.json"
          (Fixture.here true false) None = Fulfilled tree
     /\ resolveNpmDependencyMap Fixture.projectWorld 2 "/p/package.json"
          (extend (m_dependencies packageJson)
                  (m_optionalDependencies packageJson))
          (Fixture.here true false) tree = Fulfilled own
     /\ overlaidBy Fixture.projectWorld "/p/typings.json" own ownDev
                   typedPackage tree)
  /\ (exists bowerJson tree own ownDev typedPackage,
        Fs.readJson Fixture.projectWorld "/p/bower.json" = Some bowerJson
        /\ resolveBowerDependencyFrom Fixture.projectWorld 3 "/p/bower.json"
             "/p/bower_components" (Fixture.here true false) None
           = Fulfilled tree
        /\ resolveBowerDependencyMap Fixture.projectWorld 2
             "/p/bower_components" (m_dependencies bowerJson)
             (Fixture.here true false) tree = Fulfilled own
        /\ overlaidBy Fixture.projectWorld "/p/typings.json" own ownDev
                      typedPackage tree).
Proof.
  split.
  - assert (exists packageJson,
               Fs.readJson Fixture.projectWorld "/p/package.json"
               = Some packageJson) as [packageJson Hread]
        by (vm_compute; eexists; reflexivity).
    assert (exists tree,
               resolveNpmDependencyFrom Fixture.projectWorld 3
                 "/p/package.json" (Fixture.here true false) None
               = Fulfilled tree) as [tree Hres]
        by (vm_compute; eexists; reflexivity).
    destruct (proj1 (native_overlay_overrides Fixture.projectWorld 2
                       "/p/package.json" (Fixture.here true false) None tree)
                packageJson Hread Hres)
      as (own & ownDev & typed & Hown & _ & _ & Hover).
    assert (join Fixture.projectWorld ["/p/package.json"; ".."; CONFIG_FILE]
            = "/p/typings.json") as Hpath by (vm_compute; reflexivity).
    rewrite Hpath in Hover.
    exists packageJson, tree, own, ownDev, typed.
    split; [exact Hread|]. split; [exact Hres|].
    split; [exact Hown | exact Hover].
  - assert (exists bowerJson,
               Fs.readJson Fixture.projectWorld "/p/bower.json"
               = Some bowerJson) as [bowerJson Hread]
        by (vm_compute; eexists; reflexivity).
    assert (exists tree,
               resolveBowerDependencyFrom Fixture.projectWorld 3
                 "/p/bower.json" "/p/bower_components"
                 (Fixture.here true false) None
               = Fulfilled tree) as [tree Hres]
        by (vm_compute; eexists; reflexivity).
    destruct (proj2 (native_overlay_overrides Fixture.projectWorld 2
                       "/p/bower.json" (Fixture.here true false) None tree)
                "/p/bower_components" bowerJson Hread Hres)
      as (own & ownDev & typed & Hown & _ & _ & Hover).
    assert (join Fixture.projectWorld ["/p/bower.json"; ".."; CONFIG_FILE]
            = "/p/typings.json") as Hpath by (vm_compute; reflexivity).
    rewrite Hpath in Hover.
    exists bowerJson, tree, own, ownDev, typed.
    split; [exact Hread|]. split; [exact Hres|].
    split; [exact Hown | exact Hover].
Defined.

(** ** Lists of candidates *)

Lemma candidates_found_sticks resolveOne candidates tree :
  missing tree = false ->
  fold_left (orElseTry resolveOne) candidates (Fulfilled tree) = Fulfilled tree.
Proof.
  intros Hm. induction candidates as [|c rest IH]; [reflexivity|].
  cbn. now rewrite Hm.
Qed.

Lemma candidates_all_missing resolveOne candidates start :
  missing start = true ->
  Forall (resolvesMissing resolveOne) candidates ->
  exists tree,
    fold_left (orElseTry resolveOne) candidates (Fulfilled start)
    = Fulfilled tree
    /\ missing tree = true.
Proof.
  intros Hstart Hall. revert start Hstart.
  induction Hall as [|c rest (m & Hc & Hm) _ IH]; intros start Hstart.
  - now exists start.
  - cbn. rewrite Hstart, Hc. now apply IH.
Qed.

Lemma resolveCandidates_first_found resolveOne before candidate after found :
  Forall (resolvesMissing resolveOne) before ->
  resolveOne candidate = Fulfilled found ->
  missing found = false ->
  resolveCandidates resolveOne (before ++ candidate :: after)%list
  = Fulfilled found.
Proof.
  intros Hbefore Hc Hfound. unfold resolveCandidates.
  rewrite fold_left_app.
  destruct (candidates_all_missing resolveOne before MISSING_DEPENDENCY
              eq_refl Hbefore) as (m & -> & Hm).
  cbn. rewrite Hm, Hc. now apply candidates_found_sticks.
Qed.

Lemma resolveCandidates_none_found resolveOne candidates :
  Forall (resolvesMissing resolveOne) candidates ->
  exists tree,
    resolveCandidates resolveOne candidates = Fulfilled tree
    /\ missing tree = true.
Proof. now apply candidates_all_missing. Qed.

(** C5: the candidates of a list value are tried in list order.  The value
    resolves to the tree of the first candidate that resolves to a node that
    is not missing, whatever follows it in the list; when every candidate
    resolves to a missing node, or the list is empty, it resolves to a
    missing node; and this is the tree stored under the key in the resolved
    branch. *)
Theorem first_found_candidate_wins E fuel src options parent :
  let resolveOne := fun dependency =>
    resolveDependency E fuel (parseDependency E dependency)
                      (childOptionsAt options (dirname E src))
                      (Some (asParent parent)) in
  (forall before candidate after found,
     Forall (resolvesMissing resolveOne) before ->
     resolveOne candidate = Fulfilled found ->
     missing found = false ->
     resolveCandidates resolveOne (before ++ candidate :: after)%list
     = Fulfilled found)
  /\ (forall candidates,
        Forall (resolvesMissing resolveOne) candidates ->
        exists tree,
          resolveCandidates resolveOne candidates = Fulfilled tree
          /\ missing tree = true)
  /\ (forall table branch name value,
        resolveTypeDependencyMap E fuel src table options parent
        = Fulfilled branch ->
        table !! name = Some value ->
        exists tree,
          branch !! name = Some tree
          /\ resolveCandidates resolveOne (arrify value) = Fulfilled tree).
Proof.
  cbv zeta. split; [|split].
  - intros before candidate after found Hbefore Hc Hfound.
    exact (resolveCandidates_first_found _ before candidate after found
             Hbefore Hc Hfound).
  - intros candidates Hall.
    exact (resolveCandidates_none_found _ candidates Hall).
  - intros table branch name value Hmap Hname.
    pose proof (resolveEach_Fulfilled _ _ _ name Hmap) as Hk.
    rewrite Hname in Hk. destruct Hk as (tree & Htree & Hbranch).
    now exists tree.
Qed.

Lemma first_found_candidate_wins_witness :
  exists found lost branch,
    resolveCandidates
      (fun dependency =>
         resolveDependency Fixture.projectWorld 1
           (parseDependency Fixture.projectWorld dependency)
           (childOptionsAt (Fixture.here false false)
                           (dirname Fixture.projectWorld "/p/typings.json"))
           (Some (asParent (missingAt None (Some "/p/typings.json") None))))
      ([ "file:absent/typings.json" ]
         ++ "file:vendor/b/typings.json" :: [ "file:typed/b.d.ts" ])%list
    = Fulfilled found
    /\ src found = Some "/p/vendor/b/typings.json"
    /\ resolveCandidates
         (fun dependency =>
            resolveDependency Fixture.projectWorld 1
              (parseDependency Fixture.projectWorld dependency)
              (childOptionsAt (Fixture.here false false)
                              (dirname Fixture.projectWorld "/p/typings.json"))
              (Some (asParent (missingAt None (Some "/p/typings.json") None))))
         [ "file:absent/typings.json"; "npm:nope" ]
       = Fulfilled lost
    /\ missing lost = true
    /\ resolveTypeDependencyMap Fixture.projectWorld 1 "/p/typings.json"
         Fixture.typingsDependencies (Fixture.here false false)
         (missingAt None (Some "/p/typings.json") None)
       = Fulfilled branch
    /\ branch !! "b" = Some found.
Proof.
  set (parent := missingAt None (Some "/p/typings.json") None).
  destruct (first_found_candidate_wins Fixture.projectWorld 1
              "/p/typings.json" (Fixture.here false false) parent)
    as (Hfirst & Hnone & Hentry).
  assert (exists found,
             resolveDependency Fixture.projectWorld 1
               (parseDependency Fixture.projectWorld
                                "file:vendor/b/typings.json")
               (childOptionsAt (Fixture.here false false)
                               (dirname Fixture.projectWorld
                                        "/p/typings.json"))
               (Some (asParent parent)) = Fulfilled found
             /\ missing found = false
             /\ src found = Some "/p/vendor/b/typings.json")
    as (found & Hfound & Hpresent & Hsrc)
      by (vm_compute; eexists; repeat split).
  specialize (Hfirst [ "file:absent/typings.json" ]
                     "file:vendor/b/typings.json" [ "file:typed/b.d.ts" ]
                     found).
  destruct (Hnone [ "file:absent/typings.json"; "npm:nope" ])
    as (lost & Hlost & Hmissing).
  { repeat constructor; eexists; split; vm_compute; reflexivity. }
  assert (exists branch,
             resolveTypeDependencyMap Fixture.projectWorld 1 "/p/typings.json"
               Fixture.typingsDependencies (Fixture.here false false) parent
             = Fulfilled branch) as [branch Hbranch]
      by (vm_compute; eexists; reflexivity).
  destruct (Hentry Fixture.typingsDependencies branch "b"
              (Many [ "file:absent/typings.json";
                      "file:vendor/b/typings.json";
                      "file:typed/b.d.ts" ]) Hbranch eq_refl)
    as (tree & Htree & Hcandidates).
  assert (resolveCandidates
            (fun dependency =>
               resolveDependency Fixture.projectWorld 1
                 (parseDependency Fixture.projectWorld dependency)
                 (childOptionsAt (Fixture.here false false)
                                 (dirname Fixture.projectWorld
                                          "/p/typings.json"))
                 (Some (asParent parent)))
            ([ "file:absent/typings.json" ]
               ++ "file:vendor/b/typings.json" :: [ "file:typed/b.d.ts" ])%list
          = Fulfilled found) as Hwin.
  { apply Hfirst; [|exact Hfound|exact Hpresent].
    repeat constructor. eexists. split; vm_compute; reflexivity. }
  exists found, lost, branch.
  split; [exact Hwin|]. split; [exact Hsrc|]. split; [exact Hlost|].
  split; [exact Hmissing|]. split; [exact Hbranch|].
  rewrite Htree. f_equal.
  assert (Fulfilled tree = Fulfilled found) as Heq
      by exact (eq_trans (eq_sym Hcandidates) Hwin).
  now injection Heq.
Defined.

(** ** Cycles *)

Lemma Ancestor_chain_ind (P : Ancestor -> Prop) :
  (forall s, P (mkAncestor s None)) ->
  (forall s up, P up -> P (mkAncestor s (Some up))) ->
  forall a, P a.
Proof.
  intros Hroot Hstep. fix IH 1. intros [s [up|]].
  - apply Hstep, IH.
  - apply Hroot.
Qed.

Lemma walkParents_hit tree filename currentSrc :
  Some filename ∈ ancestry tree ->
  walkParents tree filename currentSrc
  = Rejected (CircularDependency currentSrc).
Proof.
  induction tree as [s|s up IH] using Ancestor_chain_ind; cbn; intros Hin.
  - apply list_elem_of_singleton in Hin as <-. now rewrite decide_True.
  - apply elem_of_cons in Hin as [<-|Hin].
    + now rewrite decide_True.
    + destruct (decide (s = Some filename)); [reflexivity | now apply IH].
Qed.

Lemma walkParents_pass tree filename currentSrc u :
  walkParents tree filename currentSrc = Fulfilled u ->
  Some filename ∉ ancestry tree.
Proof.
  induction tree as [s|s up IH] using Ancestor_chain_ind; cbn;
    destruct (decide (s = Some filename)) as [|Hne]; try discriminate;
    intros H Hin.
  - apply list_elem_of_singleton in Hin. congruence.
  - apply elem_of_cons in Hin as [Heq|Hin]; [congruence|]. now apply IH.
Qed.

Lemma checkCircularDependency_hit tree filename :
  Some filename ∈ ancestry tree ->
  checkCircularDependency (Some tree) filename
  = Rejected (CircularDependency (a_src tree)).
Proof. apply walkParents_hit. Qed.

(** ** Nodes of a resolved tree *)

Lemma allNodes_intro (P : DependencyTree -> Prop) t :
  P t -> (forall c, child t c -> allNodes P c) -> allNodes P t.
Proof.
  intros Ht Hc n Hn. apply rtc_inv in Hn as [<-|(c & Hchild & Hrest)].
  - exact Ht.
  - now apply (Hc c).
Qed.

Lemma allNodes_child (P : DependencyTree -> Prop) t c :
  allNodes P t -> child t c -> allNodes P c.
Proof. intros Ht Hc n Hn. apply Ht. now apply (rtc_l _ _ c). Qed.

Lemma allNodes_leaf (P : DependencyTree -> Prop) t :
  dependencies t = ∅ -> devDependencies t = ∅ ->
  ambientDependencies t = ∅ -> ambientDevDependencies t = ∅ ->
  P t -> allNodes P t.
Proof.
  intros H1 H2 H3 H4 Ht. apply allNodes_intro; [exact Ht|].
  intros c (k & Hk). rewrite H1, H2, H3, H4, !lookup_empty in Hk.
  now destruct Hk as [|[|[|]]].
Qed.

Lemma child_setBranches t d dd ad add c :
  child (Body.setBranches t d dd ad add) c ->
  exists k, d !! k = Some c \/ dd !! k = Some c
            \/ ad !! k = Some c \/ add !! k = Some c.
Proof. intros (k & Hk). now exists k. Qed.

Lemma lookup_extend_Some {A} (a b : gmap string A) k v :
  extend a b !! k = Some v -> a !! k = Some v \/ b !! k = Some v.
Proof. rewrite lookup_extend. destruct (b !! k); auto. Qed.

(** ** Distinct sources along parent links *)

Lemma srcChain_unfold t :
  srcChain t = src t :: match parent t with
                        | Some up => ancestry up
                        | None => []
                        end.
Proof. reflexivity. Qed.

Lemma distinctChain_orphan t : parent t = None -> distinctChain t.
Proof.
  intros Hp. unfold distinctChain. rewrite srcChain_unfold, Hp.
  apply NoDup_singleton.
Qed.

Section Distinct.
Context (E : Env) (HE : ManifestPaths E).

Let pre (src : string) (_ : Options) (parent : option Ancestor) : Prop :=
  manifestChain E parent /\ isDefinition E src = false.
Let Q := allNodes distinctChain.

Lemma distinct_missing_orphan ty s : Q (missingAt ty s None).
Proof. apply allNodes_leaf; try reflexivity. now apply distinctChain_orphan. Qed.

Lemma distinct_checked parent src u :
  manifestChain E parent ->
  checkCircularDependency parent src = Fulfilled u ->
  NoDup (Some src :: match parent with
                     | Some up => ancestry up
                     | None => []
                     end).
Proof.
  destruct parent as [up|]; cbn.
  - intros [Hnd _] Hcheck. apply NoDup_cons. split; [|exact Hnd].
    now apply walkParents_pass in Hcheck.
  - intros _ _. apply NoDup_singleton.
Qed.

Lemma manifestChain_extend parent src u :
  manifestChain E parent ->
  isDefinition E src = false ->
  checkCircularDependency parent src = Fulfilled u ->
  manifestChain E (Some {| a_src := Some src; a_parent := parent |}).
Proof.
  intros Hp Hsrc Hcheck. split.
  - exact (distinct_checked parent src u Hp Hcheck).
  - intros s Hs. cbn in Hs. apply elem_of_cons in Hs as [Hs|Hs].
    + congruence.
    + destruct parent as [up|]; [now apply Hp | now apply elem_of_nil in Hs].
Qed.

Lemma distinct_definition parent src :
  manifestChain E parent ->
  isDefinition E src = true ->
  NoDup (Some src :: match parent with
                     | Some up => ancestry up
                     | None => []
                     end).
Proof.
  destruct parent as [up|]; cbn.
  - intros [Hnd Hdef] Hsrc. apply NoDup_cons. split; [|exact Hnd].
    intros Hin. apply Hdef in Hin. congruence.
  - intros _ _. apply NoDup_singleton.
Qed.

Section Step.
Context (self : Resolvers) (Hself : resolversYield E pre Q self).

Lemma distinct_file location options parent t :
  manifestChain E parent ->
  Body.resolveFileDependency E self location options parent = Fulfilled t ->
  Q t.
Proof.
  intros Hp. unfold Body.resolveFileDependency.
  match goal with |- context [isDefinition E ?s] => generalize s end.
  intros src'. destruct (isDefinition E src') eqn:Hdef; cbn.
  - intros H. injection H as <-.
    apply allNodes_leaf; try reflexivity.
    now apply distinct_definition.
  - intros H. eapply (proj2 (proj2 Hself)); [split; eassumption | exact H].
Qed.

Lemma distinct_npm name options parent t :
  manifestChain E parent ->
  Body.resolveNpmDependency E self name options parent = Fulfilled t ->
  Q t.
Proof.
  intros Hp. unfold Body.resolveNpmDependency.
  destruct (findUp E _ _) as [modulePath|].
  - destruct (isDefinition E modulePath) eqn:Hdef.
    + now apply distinct_file.
    + intros H. eapply (proj1 (proj2 Hself)); [split; eassumption | exact H].
  - intros H. injection H as <-. apply distinct_missing_orphan.
Qed.

Lemma distinct_bower name options parent t :
  manifestChain E parent ->
  Body.resolveBowerDependency E self name options parent = Fulfilled t ->
  Q t.
Proof.
  intros Hp. unfold Body.resolveBowerDependency.
  destruct (isDefinition E _) eqn:Hdef.
  - now apply distinct_file.
  - intros H. eapply (proj1 Hself); [split; eassumption | exact H].
Qed.

Lemma distinct_dependency dependency options parent t :
  manifestChain E parent ->
  Body.resolveDependency E self dependency options parent = Fulfilled t ->
  Q t.
Proof.
  intros Hp. unfold Body.resolveDependency.
  destruct (String.eqb _ "npm"); [now apply distinct_npm|].
  destruct (String.eqb _ "bower"); [now apply distinct_bower|].
  now apply distinct_file.
Qed.

Lemma candidates_yield (P : DependencyTree -> Prop)
      (resolveOne : string -> Promise DependencyTree) candidates t :
  (forall d t', resolveOne d = Fulfilled t' -> P t') ->
  P MISSING_DEPENDENCY ->
  resolveCandidates resolveOne candidates = Fulfilled t -> P t.
Proof.
  intros Hone Hmissing. unfold resolveCandidates.
  assert (forall start,
             (forall t0, start = Fulfilled t0 -> P t0) ->
             fold_left (orElseTry resolveOne) candidates start = Fulfilled t ->
             P t) as Hfold.
  { induction candidates as [|c rest IH]; intros start Hstart; cbn.
    - apply Hstart.
    - apply IH. intros t0 H0. unfold orElseTry in H0.
      apply bind_Fulfilled in H0 as (m & -> & H0).
      destruct (missing m).
      + now apply (Hone c).
      + injection H0 as <-. now apply Hstart. }
  apply Hfold. intros t0 H0. now injection H0 as <-.
Qed.

Lemma distinct_bower_map componentPath table options parent branch k c :
  manifestChain E (Some (asParent parent)) ->
  Body.resolveBowerDependencyMap E self componentPath table options parent
  = Fulfilled branch ->
  branch !! k = Some c -> Q c.
Proof.
  intros Hp Hmap Hk.
  destruct (resolveEach_lookup _ _ _ _ _ Hmap Hk) as (v & _ & Hc).
  cbv zeta in Hc.
  eapply (proj1 Hself);
    [split; [exact Hp | apply (component_manifest _ HE)] | exact Hc].
Qed.

Lemma distinct_npm_map src table options parent branch k c :
  manifestChain E (Some (asParent parent)) ->
  Body.resolveNpmDependencyMap E self src table options parent
  = Fulfilled branch ->
  branch !! k = Some c -> Q c.
Proof.
  intros Hp Hmap Hk.
  destruct (resolveEach_lookup _ _ _ _ _ Hmap Hk) as (v & _ & Hc).
  now apply distinct_npm in Hc.
Qed.

Lemma distinct_type_map src table options parent branch k c :
  manifestChain E (Some (asParent parent)) ->
  Body.resolveTypeDependencyMap E self src table options parent
  = Fulfilled branch ->
  branch !! k = Some c -> Q c.
Proof.
  intros Hp Hmap Hk.
  destruct (resolveEach_lookup _ _ _ _ _ Hmap Hk) as (v & _ & Hc).
  apply (candidates_yield Q) in Hc; [exact Hc | | ].
  - intros d t'. now apply distinct_dependency.
  - apply (distinct_missing_orphan None None).
Qed.

Lemma distinct_bower_from src componentPath options parent t :
  pre src options parent ->
  Body.resolveBowerDependencyFrom E self src componentPath options parent
  = Fulfilled t ->
  Q t.
Proof.
  intros [Hp Hsrc]. unfold Body.resolveBowerDependencyFrom. intros H.
  apply bind_Fulfilled in H as (u & Hcheck & H).
  pose proof (distinct_checked parent src u Hp Hcheck) as Hnd.
  pose proof (manifestChain_extend parent src u Hp Hsrc Hcheck) as Hup.
  destruct (Fs.readJson E src) as [bowerJson|].
  - apply bind_Fulfilled in H as (own & Hown & H).
    apply bind_Fulfilled in H as (ownDev & HownDev & H).
    apply bind_Fulfilled in H as (typed & Htyped & H).
    injection H as <-.
    assert (Q typed) as Hq.
    { eapply (proj2 (proj2 Hself));
        [split; [exact Hup | apply (overlay_manifest _ HE)] | exact Htyped]. }
    apply allNodes_intro; [exact Hnd|].
    intros c Hc. apply child_setBranches in Hc as (k & [Hk|[Hk|[Hk|Hk]]]).
    + apply lookup_extend_Some in Hk as [Hk|Hk].
      * refine (distinct_bower_map _ _ _ _ _ _ _ _ Hown Hk); exact Hup.
      * apply (allNodes_child _ typed); [exact Hq|]. exists k. auto.
    + apply lookup_extend_Some in Hk as [Hk|Hk].
      * refine (distinct_bower_map _ _ _ _ _ _ _ _ HownDev Hk); exact Hup.
      * apply (allNodes_child _ typed); [exact Hq|]. exists k. auto.
    + cbn in Hk. now rewrite lookup_empty in Hk.
    + cbn in Hk. now rewrite lookup_empty in Hk.
  - injection H as <-. apply allNodes_leaf; try reflexivity. exact Hnd.
Qed.

Lemma distinct_npm_from src options parent t :
  pre src options parent ->
  Body.resolveNpmDependencyFrom E self src options parent = Fulfilled t ->
  Q t.
Proof.
  intros [Hp Hsrc]. unfold Body.resolveNpmDependencyFrom. intros H.
  apply bind_Fulfilled in H as (u & Hcheck & H).
  pose proof (distinct_checked parent src u Hp Hcheck) as Hnd.
  pose proof (manifestChain_extend parent src u Hp Hsrc Hcheck) as Hup.
  destruct (Fs.readJson E src) as [packageJson|].
  - apply bind_Fulfilled in H as (own & Hown & H).
    apply bind_Fulfilled in H as (ownDev & HownDev & H).
    apply bind_Fulfilled in H as (typed & Htyped & H).
    injection H as <-.
    assert (Q typed) as Hq.
    { eapply (proj2 (proj2 Hself));
        [split; [exact Hup | apply (overlay_manifest _ HE)] | exact Htyped]. }
    apply allNodes_intro; [exact Hnd|].
    intros c Hc. apply child_setBranches in Hc as (k & [Hk|[Hk|[Hk|Hk]]]).
    + apply lookup_extend_Some in Hk as [Hk|Hk].
      * refine (distinct_npm_map _ _ _ _ _ _ _ _ Hown Hk); exact Hup.
      * apply (allNodes_child _ typed); [exact Hq|]. exists k. auto.
    + apply lookup_extend_Some in Hk as [Hk|Hk].
      * refine (distinct_npm_map _ _ _ _ _ _ _ _ HownDev Hk); exact Hup.
      * apply (allNodes_child _ typed); [exact Hq|]. exists k. auto.
    + cbn in Hk. now rewrite lookup_empty in Hk.
    + cbn in Hk. now rewrite lookup_empty in Hk.
  - injection H as <-. apply allNodes_leaf; try reflexivity. exact Hnd.
Qed.

Lemma distinct_type_from src options parent t :
  pre src options parent ->
  Body.resolveTypeDependencyFrom E self src options parent = Fulfilled t ->
  Q t.
Proof.
  intros [Hp Hsrc]. unfold Body.resolveTypeDependencyFrom. intros H.
  apply bind_Fulfilled in H as (u & Hcheck & H).
  pose proof (distinct_checked parent src u Hp Hcheck) as Hnd.
  pose proof (manifestChain_extend parent src u Hp Hsrc Hcheck) as Hup.
  destruct (Fs.readConfigFrom E src) as [config|].
  - apply bind_Fulfilled in H as (d & Hd & H).
    apply bind_Fulfilled in H as (dd & Hdd & H).
    apply bind_Fulfilled in H as (ad & Had & H).
    apply bind_Fulfilled in H as (add & Hadd & H).
    injection H as <-.
    apply allNodes_intro; [exact Hnd|].
    intros c Hc. apply child_setBranches in Hc as (k & [Hk|[Hk|[Hk|Hk]]]).
    + refine (distinct_type_map _ _ _ _ _ _ _ _ Hd Hk); exact Hup.
    + refine (distinct_type_map _ _ _ _ _ _ _ _ Hdd Hk); exact Hup.
    + refine (distinct_type_map _ _ _ _ _ _ _ _ Had Hk); exact Hup.
    + refine (distinct_type_map _ _ _ _ _ _ _ _ Hadd Hk); exact Hup.
  - injection H as <-. apply allNodes_leaf; try reflexivity. exact Hnd.
Qed.

End Step.

Lemma resolvers_distinct fuel : resolversYield E pre Q (resolvers E fuel).
Proof.
  induction fuel as [|fuel IH].
  - repeat split; intros; discriminate.
  - repeat split.
    + intros s cp o p t Hpre H.
      exact (distinct_bower_from _ IH s cp o p t Hpre H).
    + intros s o p t Hpre H. exact (distinct_npm_from _ IH s o p t Hpre H).
    + intros s o p t Hpre H. exact (distinct_type_from _ IH s o p t Hpre H).
Qed.

End Distinct.

(** ** The merged root *)

Lemma mergeDependencies_fresh trees :
  missing (mergeDependencies trees) = false
  /\ parent (mergeDependencies trees) = None.
Proof.
  induction trees as [|t trees IH] using rev_ind; [easy|].
  rewrite mergeDependencies_snoc. exact IH.
Qed.

Lemma child_mergeStep d t c :
  child (mergeStep d t) c -> child d c \/ child t c.
Proof.
  intros (k & [Hk|[Hk|[Hk|Hk]]]); cbn in Hk.
  - apply lookup_extend_Some in Hk as [Hk|Hk]; [left|right]; exists k; auto.
  - apply lookup_extend_Some in Hk as [Hk|Hk]; [left|right]; exists k; auto.
  - apply lookup_extend_Some in Hk as [Hk|Hk]; [left|right]; exists k; auto.
  - left. exists k. auto.
Qed.

Lemma child_mergeDependencies trees c :
  child (mergeDependencies trees) c -> exists t, t ∈ trees /\ child t c.
Proof.
  induction trees as [|t trees IH] using rev_ind.
  - intros (k & Hk). cbn in Hk. rewrite !lookup_empty in Hk.
    now destruct Hk as [|[|[|]]].
  - rewrite mergeDependencies_snoc. intros Hc.
    apply child_mergeStep in Hc as [Hc|Hc].
    + destruct (IH Hc) as (t' & Hin & Hc'). exists t'. split; [|exact Hc'].
      apply elem_of_app. now left.
    + exists t. split; [|exact Hc]. apply elem_of_app. right.
      now apply list_elem_of_singleton.
Qed.

Lemma allNodes_mergeDependencies (P : DependencyTree -> Prop) trees :
  P (mergeDependencies trees) ->
  (forall t, t ∈ trees -> allNodes P t) ->
  allNodes P (mergeDependencies trees).
Proof.
  intros Hroot Htrees. apply allNodes_intro; [exact Hroot|].
  intros c Hc. apply child_mergeDependencies in Hc as (t & Hin & Hc).
  now apply (allNodes_child P t); [apply Htrees|].
Qed.

Lemma resolveDependencies_trees E fuel options root :
  resolveDependencies E fuel options = Fulfilled root ->
  exists bower npm native,
    resolveBowerDependencies E fuel options = Fulfilled bower
    /\ resolveNpmDependencies E fuel options = Fulfilled npm
    /\ resolveTypeDependencies E fuel options = Fulfilled native
    /\ root = mergeDependencies [bower; npm; native].
Proof.
  unfold resolveDependencies, Body.resolveDependencies. intros H.
  apply bind_Fulfilled in H as (trees & Hall & H). injection H as <-.
  cbn in Hall.
  apply bind_Fulfilled in Hall as (bower & Hb & Hall).
  apply bind_Fulfilled in Hall as (rest & Hrest & Hall).
  injection Hall as <-.
  apply bind_Fulfilled in Hrest as (npm & Hn & Hrest).
  apply bind_Fulfilled in Hrest as (rest' & Hrest' & Hrest).
  injection Hrest as <-.
  apply bind_Fulfilled in Hrest' as (native & Ht & Hrest').
  injection Hrest' as <-.
  now exists bower, npm, native.
Qed.

Lemma resolved_chains_distinct E fuel options root :
  ManifestPaths E ->
  resolveDependencies E fuel options = Fulfilled root ->
  allNodes distinctChain root.
Proof.
  intros HE H.
  apply resolveDependencies_trees in H as (b & n & t & Hb & Hn & Ht & ->).
  pose proof (resolvers_distinct E HE fuel) as (HB & HN & HT).
  apply allNodes_mergeDependencies.
  - apply distinctChain_orphan, mergeDependencies_fresh.
  - intros t' Hin.
    apply elem_of_cons in Hin as [->|Hin];
      [|apply elem_of_cons in Hin as [->|Hin];
        [|apply list_elem_of_singleton in Hin as ->]].
    + unfold resolveBowerDependencies, Body.resolveBowerDependencies in Hb.
      destruct (findUp E (cwd options) "bower.json") as [path|] eqn:Hfind.
      * eapply HB; [|exact Hb]. split; [exact I|].
        exact (found_bower_manifest _ HE _ _ Hfind).
      * injection Hb as <-. apply distinct_missing_orphan.
    + unfold resolveNpmDependencies, Body.resolveNpmDependencies in Hn.
      destruct (findUp E (cwd options) "package.json") as [path|] eqn:Hfind.
      * eapply HN; [|exact Hn]. split; [exact I|].
        exact (found_npm_manifest _ HE _ _ Hfind).
      * injection Hn as <-. apply distinct_missing_orphan.
    + unfold resolveTypeDependencies, Body.resolveTypeDependencies in Ht.
      destruct (findConfigFile E (cwd options)) as [path|] eqn:Hfind.
      * eapply HT; [|exact Ht]. split; [exact I|].
        exact (found_config _ HE _ _ Hfind).
      * injection Ht as <-. apply (distinct_missing_orphan None None).
Qed.

(** ** The toy file system keeps manifests apart from declaration files *)

Lemma string_app_cons x (a b : string) :
  (String x a +:+ b)%string = String x (a +:+ b).
Proof. reflexivity. Qed.

Lemma string_app_assoc (a b c : string) :
  ((a +:+ b) +:+ c)%string = (a +:+ (b +:+ c))%string.
Proof.
  induction a as [|x a IH]; [reflexivity|].
  rewrite !string_app_cons. now f_equal.
Qed.

Lemma string_length_app (a b : string) :
  String.length (a +:+ b) = String.length a + String.length b.
Proof.
  induction a as [|x a IH]; [reflexivity|].
  rewrite string_app_cons. cbn. now f_equal.
Qed.

Lemma substring_skip (pre s : string) k n :
  String.substring (String.length pre + k) n (pre +:+ s)
  = String.substring k n s.
Proof.
  induction pre as [|x pre IH]; [reflexivity|].
  rewrite string_app_cons. exact IH.
Qed.

Lemma endsWith_app suffix pre s :
  String.length suffix <= String.length s ->
  Fixture.endsWith suffix (pre +:+ s) = Fixture.endsWith suffix s.
Proof.
  intros Hle. unfold Fixture.endsWith. rewrite string_length_app.
  replace (String.length pre + String.length s - String.length suffix)
    with (String.length pre + (String.length s - String.length suffix))
    by lia.
  now rewrite substring_skip.
Qed.

Lemma concat_snoc sep (stack : list string) s :
  exists pre, String.concat sep (stack ++ [s]) = (pre +:+ s)%string.
Proof.
  induction stack as [|x stack [pre IH]].
  - now exists "".
  - exists (x +:+ sep +:+ pre). cbn.
    destruct (stack ++ [s])%list as [|y rest] eqn:Hrest.
    + now destruct stack.
    + rewrite IH. now rewrite !string_app_assoc.
Qed.

Lemma endsWith_pathOf suffix stack s :
  String.length suffix <= String.length s ->
  Fixture.endsWith suffix (Fixture.pathOf (stack ++ [s])%list)
  = Fixture.endsWith suffix s.
Proof.
  intros Hle. unfold Fixture.pathOf.
  destruct (concat_snoc "/" stack s) as [pre ->].
  rewrite <- (string_app_assoc "/" pre s). now apply endsWith_app.
Qed.

Lemma endsWith_concat suffix stack s :
  String.length suffix <= String.length s ->
  Fixture.endsWith suffix (String.concat "/" (stack ++ [s]))
  = Fixture.endsWith suffix s.
Proof.
  intros Hle. destruct (concat_snoc "/" stack s) as [pre ->].
  now apply endsWith_app.
Qed.

Section ToyPaths.
(** A plain file name: a single path segment that is kept as it is. *)
Variable last : string.
Hypothesis last_plain :
  forall stack, fold_left Fixture.pushSegment (Fixture.segments last "") stack
                = (stack ++ [last])%list.
Hypothesis last_long : String.length ".d.ts" <= String.length last.

Lemma endsWith_joinPath_last parts :
  Fixture.endsWith ".d.ts" (Fixture.joinPath (parts ++ [last])%list)
  = Fixture.endsWith ".d.ts" last.
Proof.
  unfold Fixture.joinPath. rewrite bind_app, fold_left_app.
  change ([last] ≫= λ p, Fixture.segments p "")
    with (Fixture.segments last "" ++ [])%list.
  rewrite app_nil_r, last_plain.
  destruct (parts ++ [last])%list as [|first rest] eqn:Hparts.
  - now destruct parts.
  - destruct (Fixture.isAbsolute first);
      [now apply endsWith_pathOf | now apply endsWith_concat].
Qed.

Lemma endsWith_resolvePath_last parts :
  Fixture.endsWith ".d.ts" (Fixture.resolvePath (parts ++ [last])%list)
  = Fixture.endsWith ".d.ts" last.
Proof.
  unfold Fixture.resolvePath. rewrite fold_left_app.
  change (fold_left ?f [last] ?acc) with (f acc last). cbv beta.
  rewrite last_plain. now apply endsWith_pathOf.
Qed.

Lemma toyFindUp_last files dir path :
  Fixture.toyFindUp files dir last = Some path ->
  Fixture.endsWith ".d.ts" path = Fixture.endsWith ".d.ts" last.
Proof.
  unfold Fixture.toyFindUp. intros H.
  apply find_some in H as [Hin _].
  apply list_elem_of_In, list_elem_of_fmap in Hin as (n & -> & _).
  exact (endsWith_resolvePath_last [_]).
Qed.
End ToyPaths.

Lemma world_ManifestPaths files : ManifestPaths (Fixture.world files).
Proof.
  split.
  - intros src.
    change (Fixture.endsWith ".d.ts"
              (Fixture.joinPath ([src; ".."] ++ [CONFIG_FILE])%list) = false).
    rewrite endsWith_joinPath_last;
      [reflexivity | intros; reflexivity | vm_compute; lia].
  - intros componentPath name.
    change (Fixture.endsWith ".d.ts"
              (Fixture.resolvePath ([componentPath; name] ++ ["bower.json"])%list)
            = false).
    rewrite endsWith_resolvePath_last;
      [reflexivity | intros; reflexivity | vm_compute; lia].
  - intros dir path H.
    change (Fixture.endsWith ".d.ts" path = false).
    rewrite (toyFindUp_last "bower.json") with (files := files) (dir := dir);
      [reflexivity | intros; reflexivity | vm_compute; lia | exact H].
  - intros dir path H.
    change (Fixture.endsWith ".d.ts" path = false).
    rewrite (toyFindUp_last "package.json") with (files := files) (dir := dir);
      [reflexivity | intros; reflexivity | vm_compute; lia | exact H].
  - intros dir path H.
    change (Fixture.endsWith ".d.ts" path = false).
    rewrite (toyFindUp_last CONFIG_FILE) with (files := files) (dir := dir);
      [reflexivity | intros; reflexivity | vm_compute; lia | exact H].
Qed.

(** A project whose native configs depend on each other is rejected. *)
Example cyclic_project_rejected :
  resolveDependencies Fixture.cyclicWorld 3
                      {| cwd := "/c"; dev := false; ambient_opt := false |}
  = Rejected (CircularDependency (Some "/c/x/typings.json")).
Proof. vm_compute. reflexivity. Qed.

(** C3: a manifest whose source path is the [src] of its parent or of one of
    its ancestors is rejected as a circular dependency by each of the three
    readers, whatever the files contain, since the check comes before the
    read; and in a tree returned by [resolveDependencies] the [src] values
    along the parent links of every node are pairwise distinct, provided the
    path helpers never produce a declaration file where a manifest is looked
    up by name. *)
Theorem circular_sources_rejected E :
  (forall fuel src componentPath options parent,
     Some src ∈ ancestry parent ->
     resolveBowerDependencyFrom E (S fuel) src componentPath options
                                (Some parent)
     = Rejected (CircularDependency (a_src parent))
     /\ resolveNpmDependencyFrom E (S fuel) src options (Some parent)
        = Rejected (CircularDependency (a_src parent))
     /\ resolveTypeDependencyFrom E (S fuel) src options (Some parent)
        = Rejected (CircularDependency (a_src parent)))
  /\ (ManifestPaths E ->
      forall fuel options root,
        resolveDependencies E fuel options = Fulfilled root ->
        forall node, inTree root node -> NoDup (srcChain node)).
Proof.
  split.
  - intros fuel src componentPath options parent Hin.
    rewrite resolveBowerDependencyFrom_S, resolveNpmDependencyFrom_S,
      resolveTypeDependencyFrom_S.
    unfold Body.resolveBowerDependencyFrom, Body.resolveNpmDependencyFrom,
      Body.resolveTypeDependencyFrom.
    now rewrite (checkCircularDependency_hit parent src Hin).
  - intros HE fuel options root H.
    exact (resolved_chains_distinct E fuel options root HE H).
Qed.

Lemma circular_sources_rejected_witness :
  (resolveTypeDependencyFrom Fixture.cyclicWorld 1 "/c/typings.json"
     {| cwd := "/c/x"; dev := false; ambient_opt := false |}
     (Some Fixture.cyclicParent)
   = Rejected (CircularDependency (Some "/c/x/typings.json")))
  /\ exists root,
       resolveDependencies Fixture.projectWorld 3 (Fixture.here true true)
       = Fulfilled root
       /\ forall node, inTree root node -> NoDup (srcChain node).
Proof.
  split.
  - apply (proj1 (circular_sources_rejected Fixture.cyclicWorld) 0
             "/c/typings.json" "/c/bower_components").
    apply elem_of_cons. right. apply elem_of_cons. now left.
  - assert (exists root,
               resolveDependencies Fixture.projectWorld 3
                                   (Fixture.here true true)
               = Fulfilled root) as [root Hroot]
        by (vm_compute; eexists; reflexivity).
    exists root. split; [exact Hroot|].
    exact (proj2 (circular_sources_rejected Fixture.projectWorld)
                 (world_ManifestPaths Fixture.projectFiles)
                 3 (Fixture.here true true) root Hroot).
Defined.

(** ** Children are resolved with [dev] and [ambient] off *)

Lemma plainNode_leaf t :
  devDependencies t = ∅ -> ambientDependencies t = ∅ ->
  ambientDevDependencies t = ∅ -> plainNode t.
Proof. now repeat split. Qed.

Section Plain.
Context (E : Env).

Let pre (_ : string) (options : Options) (_ : option Ancestor) : Prop :=
  dev options = false /\ ambient_opt options = false.

Section Step.
Context (self : Resolvers) (Hself : resolversYield E pre plainNode self).

Lemma plain_file location options parent t :
  pre location options parent ->
  Body.resolveFileDependency E self location options parent = Fulfilled t ->
  plainNode t.
Proof.
  intros Hpre. unfold Body.resolveFileDependency.
  match goal with |- context [isDefinition E ?s] => generalize s end.
  intros s. destruct (isDefinition E s); cbn.
  - intros H. injection H as <-. now apply plainNode_leaf.
  - intros H. eapply (proj2 (proj2 Hself)); [|exact H]; exact Hpre.
Qed.

Lemma plain_npm name options parent t :
  pre name options parent ->
  Body.resolveNpmDependency E self name options parent = Fulfilled t ->
  plainNode t.
Proof.
  intros Hpre. unfold Body.resolveNpmDependency.
  destruct (findUp E _ _) as [modulePath|].
  - destruct (isDefinition E modulePath).
    + now apply plain_file.
    + intros H. eapply (proj1 (proj2 Hself)); [|exact H]; exact Hpre.
  - intros H. injection H as <-. now apply plainNode_leaf.
Qed.

Lemma plain_bower name options parent t :
  pre name options parent ->
  Body.resolveBowerDependency E self name options parent = Fulfilled t ->
  plainNode t.
Proof.
  intros Hpre. unfold Body.resolveBowerDependency.
  destruct (isDefinition E _).
  - now apply plain_file.
  - intros H. eapply (proj1 Hself); [|exact H]; exact Hpre.
Qed.

Lemma plain_dependency dependency options parent t :
  pre "" options parent ->
  Body.resolveDependency E self dependency options parent = Fulfilled t ->
  plainNode t.
Proof.
  intros Hpre. unfold Body.resolveDependency.
  destruct (String.eqb _ "npm"); [now apply plain_npm|].
  destruct (String.eqb _ "bower"); [now apply plain_bower|].
  now apply plain_file.
Qed.

Lemma plain_bower_map componentPath table options parent branch k c :
  Body.resolveBowerDependencyMap E self componentPath table options parent
  = Fulfilled branch ->
  branch !! k = Some c -> plainNode c.
Proof.
  intros Hmap Hk.
  destruct (resolveEach_lookup _ _ _ _ _ Hmap Hk) as (v & _ & Hc).
  cbv zeta in Hc. eapply (proj1 Hself); [|exact Hc]. now split.
Qed.

Lemma plain_npm_map s table options parent branch k c :
  Body.resolveNpmDependencyMap E self s table options parent
  = Fulfilled branch ->
  branch !! k = Some c -> plainNode c.
Proof.
  intros Hmap Hk.
  destruct (resolveEach_lookup _ _ _ _ _ Hmap Hk) as (v & _ & Hc).
  cbv zeta in Hc. eapply plain_npm; [|exact Hc]. now split.
Qed.

Lemma plain_type_map s table options parent branch k c :
  Body.resolveTypeDependencyMap E self s table options parent
  = Fulfilled branch ->
  branch !! k = Some c -> plainNode c.
Proof.
  intros Hmap Hk.
  destruct (resolveEach_lookup _ _ _ _ _ Hmap Hk) as (v & _ & Hc).
  apply (candidates_yield plainNode) in Hc; [exact Hc | | ].
  - intros d t' Hd. cbv zeta in Hd. eapply plain_dependency; [|exact Hd].
    now split.
  - now apply plainNode_leaf.
Qed.

Lemma plain_bower_from s componentPath options parent t :
  pre s options parent ->
  Body.resolveBowerDependencyFrom E self s componentPath options parent
  = Fulfilled t ->
  plainNode t.
Proof.
  intros [Hdev Hamb]. unfold Body.resolveBowerDependencyFrom. intros H.
  apply bind_Fulfilled in H as (u & _ & H).
  destruct (Fs.readJson E s) as [bowerJson|].
  - rewrite Hdev in H.
    apply bind_Fulfilled in H as (own & _ & H).
    unfold Body.resolveBowerDependencyMap in H at 1.
    rewrite resolveEach_empty in H. cbn in H.
    apply bind_Fulfilled in H as (typed & Htyped & H).
    injection H as <-.
    assert (plainNode typed) as (Hd & _ & _).
    { eapply (proj2 (proj2 Hself)); [|exact Htyped]. now split. }
    apply plainNode_leaf; cbn; [|reflexivity..].
    rewrite Hd. apply extend_empty_r.
  - injection H as <-. now apply plainNode_leaf.
Qed.

Lemma plain_npm_from s options parent t :
  pre s options parent ->
  Body.resolveNpmDependencyFrom E self s options parent = Fulfilled t ->
  plainNode t.
Proof.
  intros [Hdev Hamb]. unfold Body.resolveNpmDependencyFrom. intros H.
  apply bind_Fulfilled in H as (u & _ & H).
  destruct (Fs.readJson E s) as [packageJson|].
  - rewrite Hdev in H.
    apply bind_Fulfilled in H as (own & _ & H).
    unfold Body.resolveNpmDependencyMap in H at 1.
    rewrite resolveEach_empty in H. cbn in H.
    apply bind_Fulfilled in H as (typed & Htyped & H).
    injection H as <-.
    assert (plainNode typed) as (Hd & _ & _).
    { eapply (proj2 (proj2 Hself)); [|exact Htyped]. now split. }
    apply plainNode_leaf; cbn; [|reflexivity..].
    rewrite Hd. apply extend_empty_r.
  - injection H as <-. now apply plainNode_leaf.
Qed.

Lemma plain_type_from s options parent t :
  pre s options parent ->
  Body.resolveTypeDependencyFrom E self s options parent = Fulfilled t ->
  plainNode t.
Proof.
  intros [Hdev Hamb]. unfold Body.resolveTypeDependencyFrom. intros H.
  apply bind_Fulfilled in H as (u & _ & H).
  destruct (Fs.readConfigFrom E s) as [config|].
  - rewrite Hdev, Hamb in H. cbn in H.
    apply bind_Fulfilled in H as (own & _ & H).
    unfold Body.resolveTypeDependencyMap in H.
    rewrite resolveEach_empty in H. cbn in H.
    injection H as <-. now apply plainNode_leaf.
  - injection H as <-. now apply plainNode_leaf.
Qed.

End Step.

Lemma resolvers_plain fuel : resolversYield E pre plainNode (resolvers E fuel).
Proof.
  induction fuel as [|fuel IH].
  - split; [|split]; intros; discriminate.
  - split; [|split].
    + intros s cp o p t Hpre H.
      exact (plain_bower_from _ IH s cp o p t Hpre H).
    + intros s o p t Hpre H. exact (plain_npm_from _ IH s o p t Hpre H).
    + intros s o p t Hpre H. exact (plain_type_from _ s o p t Hpre H).
Qed.

End Plain.

(** ** Dev dependencies are not read when [dev] is off *)

Lemma bind_ext {A B} (p p' : Promise A) (f f' : A -> Promise B) :
  p = p' -> (forall a, f a = f' a) -> (p ≫= f) = (p' ≫= f').
Proof. intros <- Hf. destruct p; cbn; [apply Hf | reflexivity..]. Qed.

Lemma resolveCandidates_ext (f g : string -> Promise DependencyTree) l :
  (forall d, f d = g d) -> resolveCandidates f l = resolveCandidates g l.
Proof.
  intros Hfg. unfold resolveCandidates.
  generalize (Fulfilled MISSING_DEPENDENCY).
  induction l as [|c rest IH]; intros start; [reflexivity|].
  cbn. rewrite <- IH. f_equal. unfold orElseTry.
  apply bind_ext; [reflexivity|]. intros m. now rewrite Hfg.
Qed.

Section WithoutDev.
Context (E : Env) (manifestPath key : string).

Let E' := withoutDevDependency E manifestPath key.

Lemma readJson_without path :
  readsAlike key (Fs.readJson E' path) (Fs.readJson E path).
Proof.
  unfold Fs.readJson. cbn. destruct (readFile E path) as [text|]; cbn.
  - destruct (String.eqb path manifestPath);
      destruct (parseJson E (stripBom text) path); cbn; constructor.
  - constructor.
Qed.

Lemma readConfigFrom_without path :
  readsAlike key (Fs.readConfigFrom E' path) (Fs.readConfigFrom E path).
Proof.
  unfold Fs.readConfigFrom, Fs.readJsonFrom, Fs.readFileFrom,
    Fs.parseConfig. cbn.
  destruct (if isHttp E path then readHttp E path else readFile E path)
    as [text|]; cbn.
  - destruct (String.eqb path manifestPath);
      destruct (parseJson E (stripBom text) path); cbn; constructor.
  - constructor.
Qed.

Lemma componentPath_without path :
  Body.resolveBowerComponentPath E' path
  = Body.resolveBowerComponentPath E path.
Proof.
  unfold Body.resolveBowerComponentPath.
  change (resolve E') with (resolve E).
  now destruct (readJson_without (resolve E [path; ".bowerrc"])).
Qed.

Section Step.
Context (self self' : Resolvers) (Hself : agreeWithoutDev self self').

Lemma file_without location options parent :
  dev options = false ->
  Body.resolveFileDependency E' self' location options parent
  = Body.resolveFileDependency E self location options parent.
Proof.
  intros Hdev. unfold Body.resolveFileDependency.
  change (isHttp E') with (isHttp E). change (resolve E') with (resolve E).
  change (resolveUrl E') with (resolveUrl E).
  change (isDefinition E') with (isDefinition E).
  match goal with |- context [isDefinition E ?s] => generalize s end.
  intros s. destruct (isDefinition E s); cbn; [reflexivity|].
  now apply (proj2 (proj2 Hself)).
Qed.

Lemma npm_without name options parent :
  dev options = false ->
  Body.resolveNpmDependency E' self' name options parent
  = Body.resolveNpmDependency E self name options parent.
Proof.
  intros Hdev. unfold Body.resolveNpmDependency.
  change (findUp E') with (findUp E). change (join E') with (join E).
  change (isDefinition E') with (isDefinition E).
  destruct (findUp E _ _) as [modulePath|]; [|reflexivity].
  destruct (isDefinition E modulePath).
  - now apply file_without.
  - now apply (proj1 (proj2 Hself)).
Qed.

Lemma bower_without name options parent :
  dev options = false ->
  Body.resolveBowerDependency E' self' name options parent
  = Body.resolveBowerDependency E self name options parent.
Proof.
  intros Hdev. unfold Body.resolveBowerDependency.
  rewrite componentPath_without.
  change (resolve E') with (resolve E).
  change (isDefinition E') with (isDefinition E).
  destruct (isDefinition E _).
  - now apply file_without.
  - now apply (proj1 Hself).
Qed.

Lemma dependency_without dependency options parent :
  dev options = false ->
  Body.resolveDependency E' self' dependency options parent
  = Body.resolveDependency E self dependency options parent.
Proof.
  intros Hdev. unfold Body.resolveDependency.
  destruct (String.eqb _ "npm"); [now apply npm_without|].
  destruct (String.eqb _ "bower"); [now apply bower_without|].
  now apply file_without.
Qed.

Lemma bower_map_without componentPath table options parent :
  Body.resolveBowerDependencyMap E' self' componentPath table options parent
  = Body.resolveBowerDependencyMap E self componentPath table options parent.
Proof.
  unfold Body.resolveBowerDependencyMap. apply resolveEach_ext.
  intros k v _. now apply (proj1 Hself).
Qed.

Lemma npm_map_without s table options parent :
  Body.resolveNpmDependencyMap E' self' s table options parent
  = Body.resolveNpmDependencyMap E self s table options parent.
Proof.
  unfold Body.resolveNpmDependencyMap. apply resolveEach_ext.
  intros k v _. now apply npm_without.
Qed.

Lemma type_map_without s table options parent :
  Body.resolveTypeDependencyMap E' self' s table options parent
  = Body.resolveTypeDependencyMap E self s table options parent.
Proof.
  unfold Body.resolveTypeDependencyMap. apply resolveEach_ext.
  intros k v _. apply resolveCandidates_ext.
  intros d. now apply dependency_without.
Qed.

Lemma bower_from_without s componentPath options parent :
  dev options = false ->
  Body.resolveBowerDependencyFrom E' self' s componentPath options parent
  = Body.resolveBowerDependencyFrom E self s componentPath options parent.
Proof.
  intros Hdev. unfold Body.resolveBowerDependencyFrom.
  apply bind_ext; [reflexivity|]. intros _. rewrite Hdev.
  change (join E') with (join E).
  destruct (readJson_without s) as [|m|m]; [reflexivity|..].
  all: apply bind_ext; [apply bower_map_without|]; intros own.
  all: apply bind_ext; [apply bower_map_without|]; intros ownDev.
  all: apply bind_ext; [now apply (proj2 (proj2 Hself))|]; intros typed.
  all: reflexivity.
Qed.

Lemma npm_from_without s options parent :
  dev options = false ->
  Body.resolveNpmDependencyFrom E' self' s options parent
  = Body.resolveNpmDependencyFrom E self s options parent.
Proof.
  intros Hdev. unfold Body.resolveNpmDependencyFrom.
  apply bind_ext; [reflexivity|]. intros _. rewrite Hdev.
  change (join E') with (join E).
  destruct (readJson_without s) as [|m|m]; [reflexivity|..].
  all: apply bind_ext; [apply npm_map_without|]; intros own.
  all: apply bind_ext; [apply npm_map_without|]; intros ownDev.
  all: apply bind_ext; [now apply (proj2 (proj2 Hself))|]; intros typed.
  all: reflexivity.
Qed.

Lemma type_from_without s options parent :
  dev options = false ->
  Body.resolveTypeDependencyFrom E' self' s options parent
  = Body.resolveTypeDependencyFrom E self s options parent.
Proof.
  intros Hdev. unfold Body.resolveTypeDependencyFrom.
  apply bind_ext; [reflexivity|]. intros _.
  rewrite Hdev, andb_false_r.
  destruct (readConfigFrom_without s) as [|m|m]; [reflexivity|..].
  all: apply bind_ext; [apply type_map_without|]; intros d.
  all: apply bind_ext; [apply type_map_without|]; intros dd.
  all: apply bind_ext; [apply type_map_without|]; intros ad.
  all: apply bind_ext; [apply type_map_without|]; intros add.
  all: reflexivity.
Qed.

End Step.

Lemma resolvers_without fuel :
  agreeWithoutDev (resolvers E fuel) (resolvers E' fuel).
Proof.
  induction fuel as [|fuel IH].
  - split; [|split]; reflexivity.
  - split; [|split].
    + intros s cp o p Hdev. exact (bower_from_without _ _ IH s cp o p Hdev).
    + intros s o p Hdev. exact (npm_from_without _ _ IH s o p Hdev).
    + intros s o p Hdev. exact (type_from_without _ _ IH s o p Hdev).
Qed.

Lemma resolveDependencies_without fuel options :
  dev options = false ->
  resolveDependencies E' fuel options = resolveDependencies E fuel options.
Proof.
  intros Hdev. destruct (resolvers_without fuel) as (HB & HN & HT).
  unfold resolveDependencies, Body.resolveDependencies,
    Body.resolveBowerDependencies, Body.resolveNpmDependencies,
    Body.resolveTypeDependencies.
  change (findUp E') with (findUp E).
  change (findConfigFile E') with (findConfigFile E).
  change (dirname E') with (dirname E).
  destruct (findUp E (cwd options) "bower.json");
    destruct (findUp E (cwd options) "package.json");
    destruct (findConfigFile E (cwd options));
    rewrite ?componentPath_without, ?HB, ?HN, ?HT by exact Hdev;
    reflexivity.
Qed.

End WithoutDev.

(** C6: the three map resolvers hand [dev = false] and [ambient = false] to
    every child whatever flags their caller holds, so that the result does
    not depend on those flags; every node of a resolved branch therefore has
    empty [devDependencies], [ambientDependencies] and
    [ambientDevDependencies]; and with [dev] off, removing a dev dependency
    from a manifest leaves the outcome of [resolveDependencies], hence the
    [dependencies] map of the resolved root, as it was. *)
Theorem children_resolved_plain E fuel :
  (forall options d a,
     let options' := {| cwd := cwd options; dev := d; ambient_opt := a |} in
     (forall componentPath table parent,
        resolveBowerDependencyMap E fuel componentPath table options' parent
        = resolveBowerDependencyMap E fuel componentPath table options parent)
     /\ (forall src table parent,
           resolveNpmDependencyMap E fuel src table options' parent
           = resolveNpmDependencyMap E fuel src table options parent)
     /\ (forall src table parent,
           resolveTypeDependencyMap E fuel src table options' parent
           = resolveTypeDependencyMap E fuel src table options parent))
  /\ (forall table options parent branch name node,
        (exists componentPath,
            resolveBowerDependencyMap E fuel componentPath table options parent
            = Fulfilled branch)
        \/ (exists src,
               resolveNpmDependencyMap E fuel src table options parent
               = Fulfilled branch)
        \/ (exists src,
               resolveTypeDependencyMap E fuel src table options parent
               = Fulfilled branch) ->
        branch !! name = Some node ->
        devDependencies node = ∅
        /\ ambientDependencies node = ∅
        /\ ambientDevDependencies node = ∅)
  /\ (forall options manifestPath key,
        dev options = false ->
        resolveDependencies (withoutDevDependency E manifestPath key)
                            fuel options
        = resolveDependencies E fuel options).
Proof.
  split; [|split].
  - intros options d a. cbv zeta. repeat split; reflexivity.
  - intros table options parent branch name node Hmap Hnode.
    pose proof (resolvers_plain E fuel) as Hplain.
    destruct Hmap as [[cp Hmap]|[[s Hmap]|[s Hmap]]].
    + exact (plain_bower_map E _ Hplain _ _ _ _ _ _ _ Hmap Hnode).
    + exact (plain_npm_map E _ Hplain _ _ _ _ _ _ _ Hmap Hnode).
    + exact (plain_type_map E _ Hplain _ _ _ _ _ _ _ Hmap Hnode).
  - intros options manifestPath key Hdev.
    now apply resolveDependencies_without.
Qed.

Lemma children_resolved_plain_witness :
  (exists packageJson branch node,
      Fs.readJson Fixture.projectWorld "/p/package.json" = Some packageJson
      /\ resolveNpmDependencyMap Fixture.projectWorld 2 "/p/package.json"
           (m_dependencies packageJson) (Fixture.here true true)
           (missingAt None (Some "/p/package.json") None)
         = Fulfilled branch
      /\ branch !! "a" = Some node
      /\ devDependencies node = ∅
      /\ ambientDependencies node = ∅
      /\ ambientDevDependencies node = ∅)
  /\ resolveDependencies
       (withoutDevDependency Fixture.projectWorld "/p/package.json" "mocha")
       3 (Fixture.here false true)
     = resolveDependencies Fixture.projectWorld 3 (Fixture.here false true).
Proof.
  split.
  - assert (exists packageJson,
               Fs.readJson Fixture.projectWorld "/p/package.json"
               = Some packageJson) as [packageJson Hread]
        by (vm_compute; eexists; reflexivity).
    assert (exists branch node,
               resolveNpmDependencyMap Fixture.projectWorld 2
                 "/p/package.json" (m_dependencies packageJson)
                 (Fixture.here true true)
                 (missingAt None (Some "/p/package.json") None)
               = Fulfilled branch
               /\ branch !! "a" = Some node) as (branch & node & Hmap & Hnode).
    { vm_compute in Hread. injection Hread as <-.
      vm_compute. eexists _, _. split; reflexivity. }
    exists packageJson, branch, node.
    split; [exact Hread|]. split; [exact Hmap|]. split; [exact Hnode|].
    apply (proj1 (proj2 (children_resolved_plain Fixture.projectWorld 2))
             (m_dependencies packageJson) (Fixture.here true true)
             (missingAt None (Some "/p/package.json") None) branch "a" node);
      [|exact Hnode].
    right. left. now exists "/p/package.json".
  - apply (proj2 (proj2 (children_resolved_plain Fixture.projectWorld 3))).
    reflexivity.
Defined.

(** * Further properties *)

(** ** Every node of a resolved tree is well formed *)

Ltac wellFormed_node :=
  unfold wellFormedNode, emptyBranches, blankEntry; cbn;
  repeat match goal with |- _ /\ _ => split end; intros;
  repeat match goal with H : _ \/ _ |- _ => destruct H end;
  try discriminate; try congruence;
  repeat match goal with |- _ /\ _ => split end;
  try reflexivity; try (eexists; reflexivity); auto.

Lemma wellFormed_missingAt ty s p :
  ty = None \/ ty = Some "npm" \/ ty = Some "bower" \/ ty = Some PROJECT_NAME ->
  allNodes wellFormedNode (missingAt ty s p).
Proof.
  intros Hty. apply allNodes_leaf; try reflexivity.
  wellFormed_node.
Qed.

Lemma wellFormed_definitionNode s p :
  allNodes wellFormedNode (definitionNode s p).
Proof.
  apply allNodes_leaf; try reflexivity.
  wellFormed_node.
Qed.

Lemma fileDependency_unfold E self location options parent :
  Body.resolveFileDependency E self location options parent
  = if negb (isDefinition E (fileDependencySrc E location options parent))
    then typeFrom self (fileDependencySrc E location options parent)
                  options parent
    else Fulfilled
           (definitionNode (fileDependencySrc E location options parent)
                           parent).
Proof. reflexivity. Qed.

Section WellFormed.
Context (E : Env).

Let pre (_ : string) (_ : Options) (_ : option Ancestor) : Prop := True.
Let Q := allNodes wellFormedNode.

Section Step.
Context (self : Resolvers) (Hself : resolversYield E pre Q self).

Lemma wellFormed_file location options parent t :
  Body.resolveFileDependency E self location options parent = Fulfilled t ->
  Q t.
Proof.
  rewrite fileDependency_unfold.
  destruct (isDefinition E _); cbn.
  - intros H. injection H as <-. apply wellFormed_definitionNode.
  - intros H. eapply (proj2 (proj2 Hself)); [exact I | exact H].
Qed.

Lemma wellFormed_npm nm options parent t :
  Body.resolveNpmDependency E self nm options parent = Fulfilled t -> Q t.
Proof.
  unfold Body.resolveNpmDependency.
  destruct (findUp E _ _) as [modulePath|].
  - destruct (isDefinition E modulePath).
    + apply wellFormed_file.
    + intros H. eapply (proj1 (proj2 Hself)); [exact I | exact H].
  - intros H. injection H as <-. apply wellFormed_missingAt. auto.
Qed.

Lemma wellFormed_bower nm options parent t :
  Body.resolveBowerDependency E self nm options parent = Fulfilled t -> Q t.
Proof.
  unfold Body.resolveBowerDependency.
  destruct (isDefinition E _).
  - apply wellFormed_file.
  - intros H. eapply (proj1 Hself); [exact I | exact H].
Qed.

Lemma wellFormed_dependency dependency options parent t :
  Body.resolveDependency E self dependency options parent = Fulfilled t ->
  Q t.
Proof.
  unfold Body.resolveDependency.
  destruct (String.eqb _ "npm"); [apply wellFormed_npm|].
  destruct (String.eqb _ "bower"); [apply wellFormed_bower|].
  apply wellFormed_file.
Qed.

Lemma wellFormed_bower_map componentPath table options parent branch k c :
  Body.resolveBowerDependencyMap E self componentPath table options parent
  = Fulfilled branch ->
  branch !! k = Some c -> Q c.
Proof.
  intros Hmap Hk.
  destruct (resolveEach_lookup _ _ _ _ _ Hmap Hk) as (v & _ & Hc).
  cbv zeta in Hc. eapply (proj1 Hself); [exact I | exact Hc].
Qed.

Lemma wellFormed_npm_map s table options parent branch k c :
  Body.resolveNpmDependencyMap E self s table options parent
  = Fulfilled branch ->
  branch !! k = Some c -> Q c.
Proof.
  intros Hmap Hk.
  destruct (resolveEach_lookup _ _ _ _ _ Hmap Hk) as (v & _ & Hc).
  now apply wellFormed_npm in Hc.
Qed.

Lemma wellFormed_type_map s table options parent branch k c :
  Body.resolveTypeDependencyMap E self s table options parent
  = Fulfilled branch ->
  branch !! k = Some c -> Q c.
Proof.
  intros Hmap Hk.
  destruct (resolveEach_lookup _ _ _ _ _ Hmap Hk) as (v & _ & Hc).
  apply (candidates_yield Q) in Hc; [exact Hc | | ].
  - intros d t'. apply wellFormed_dependency.
  - apply (wellFormed_missingAt None None None). auto.
Qed.

Lemma wellFormed_bower_from s componentPath options parent t :
  Body.resolveBowerDependencyFrom E self s componentPath options parent
  = Fulfilled t ->
  Q t.
Proof.
  unfold Body.resolveBowerDependencyFrom. intros H.
  apply bind_Fulfilled in H as (u & _ & H).
  destruct (Fs.readJson E s) as [bowerJson|].
  - apply bind_Fulfilled in H as (own & Hown & H).
    apply bind_Fulfilled in H as (ownDev & HownDev & H).
    apply bind_Fulfilled in H as (typed & Htyped & H).
    injection H as <-.
    assert (Q typed) as Hq
        by (eapply (proj2 (proj2 Hself)); [exact I | exact Htyped]).
    apply allNodes_intro.
    + wellFormed_node.
    + intros c Hc.
      apply child_setBranches in Hc as (k & [Hk|[Hk|[Hk|Hk]]]).
      * apply lookup_extend_Some in Hk as [Hk|Hk].
        -- exact (wellFormed_bower_map _ _ _ _ _ _ _ Hown Hk).
        -- apply (allNodes_child _ typed); [exact Hq|]. exists k. auto.
      * apply lookup_extend_Some in Hk as [Hk|Hk].
        -- exact (wellFormed_bower_map _ _ _ _ _ _ _ HownDev Hk).
        -- apply (allNodes_child _ typed); [exact Hq|]. exists k. auto.
      * cbn in Hk. now rewrite lookup_empty in Hk.
      * cbn in Hk. now rewrite lookup_empty in Hk.
  - injection H as <-. apply wellFormed_missingAt. auto.
Qed.

Lemma wellFormed_npm_from s options parent t :
  Body.resolveNpmDependencyFrom E self s options parent = Fulfilled t ->
  Q t.
Proof.
  unfold Body.resolveNpmDependencyFrom. intros H.
  apply bind_Fulfilled in H as (u & _ & H).
  destruct (Fs.readJson E s) as [packageJson|].
  - apply bind_Fulfilled in H as (own & Hown & H).
    apply bind_Fulfilled in H as (ownDev & HownDev & H).
    apply bind_Fulfilled in H as (typed & Htyped & H).
    injection H as <-.
    assert (Q typed) as Hq
        by (eapply (proj2 (proj2 Hself)); [exact I | exact Htyped]).
    apply allNodes_intro.
    + wellFormed_node.
    + intros c Hc.
      apply child_setBranches in Hc as (k & [Hk|[Hk|[Hk|Hk]]]).
      * apply lookup_extend_Some in Hk as [Hk|Hk].
        -- exact (wellFormed_npm_map _ _ _ _ _ _ _ Hown Hk).
        -- apply (allNodes_child _ typed); [exact Hq|]. exists k. auto.
      * apply lookup_extend_Some in Hk as [Hk|Hk].
        -- exact (wellFormed_npm_map _ _ _ _ _ _ _ HownDev Hk).
        -- apply (allNodes_child _ typed); [exact Hq|]. exists k. auto.
      * cbn in Hk. now rewrite lookup_empty in Hk.
      * cbn in Hk. now rewrite lookup_empty in Hk.
  - injection H as <-. apply wellFormed_missingAt. auto.
Qed.

Lemma wellFormed_type_from s options parent t :
  Body.resolveTypeDependencyFrom E self s options parent = Fulfilled t ->
  Q t.
Proof.
  unfold Body.resolveTypeDependencyFrom. intros H.
  apply bind_Fulfilled in H as (u & _ & H).
  destruct (Fs.readConfigFrom E s) as [config|].
  - apply bind_Fulfilled in H as (d & Hd & H).
    apply bind_Fulfilled in H as (dd & Hdd & H).
    apply bind_Fulfilled in H as (ad & Had & H).
    apply bind_Fulfilled in H as (add & Hadd & H).
    injection H as <-.
    apply allNodes_intro.
    + wellFormed_node.
    + intros c Hc.
      apply child_setBranches in Hc as (k & [Hk|[Hk|[Hk|Hk]]]).
      * exact (wellFormed_type_map _ _ _ _ _ _ _ Hd Hk).
      * exact (wellFormed_type_map _ _ _ _ _ _ _ Hdd Hk).
      * exact (wellFormed_type_map _ _ _ _ _ _ _ Had Hk).
      * exact (wellFormed_type_map _ _ _ _ _ _ _ Hadd Hk).
  - injection H as <-. apply wellFormed_missingAt. auto.
Qed.

End Step.

Lemma resolvers_wellFormed fuel : resolversYield E pre Q (resolvers E fuel).
Proof.
  induction fuel as [|fuel IH].
  - split; [|split]; intros; discriminate.
  - split; [|split].
    + intros s cp o p t _ H. exact (wellFormed_bower_from _ IH s cp o p t H).
    + intros s o p t _ H. exact (wellFormed_npm_from _ IH s o p t H).
    + intros s o p t _ H. exact (wellFormed_type_from _ IH s o p t H).
Qed.

End WellFormed.

Lemma mergeDependencies_header trees :
  type (mergeDependencies trees) = None
  /\ version (mergeDependencies trees) = VUndefined
  /\ ambient (mergeDependencies trees) = false.
Proof.
  induction trees as [|t trees IH] using rev_ind; [easy|].
  rewrite mergeDependencies_snoc. exact IH.
Qed.

Lemma resolved_nodes_wellFormed E fuel options root :
  resolveDependencies E fuel options = Fulfilled root ->
  allNodes wellFormedNode root.
Proof.
  intros H.
  apply resolveDependencies_trees in H as (b & n & t & Hb & Hn & Ht & ->).
  pose proof (resolvers_wellFormed E fuel) as (HB & HN & HT).
  apply allNodes_mergeDependencies.
  - destruct (mergeDependencies_header [b; n; t]) as (Hty & _ & Hamb).
    destruct (mergeDependencies_fresh [b; n; t]) as (Hmiss & _).
    unfold wellFormedNode. rewrite Hty, Hamb, Hmiss.
    repeat match goal with |- _ /\ _ => split end; intros;
      try discriminate; try congruence; auto.
    destruct H; discriminate.
  - intros t' Hin.
    apply elem_of_cons in Hin as [->|Hin];
      [|apply elem_of_cons in Hin as [->|Hin];
        [|apply list_elem_of_singleton in Hin as ->]].
    + unfold resolveBowerDependencies, Body.resolveBowerDependencies in Hb.
      destruct (findUp E (cwd options) "bower.json") as [path|].
      * eapply HB; [exact I | exact Hb].
      * injection Hb as <-. apply wellFormed_missingAt. auto.
    + unfold resolveNpmDependencies, Body.resolveNpmDependencies in Hn.
      destruct (findUp E (cwd options) "package.json") as [path|].
      * eapply HN; [exact I | exact Hn].
      * injection Hn as <-. apply wellFormed_missingAt. auto.
    + unfold resolveTypeDependencies, Body.resolveTypeDependencies in Ht.
      destruct (findConfigFile E (cwd options)) as [path|].
      * eapply HT; [exact I | exact Ht].
      * injection Ht as <-. apply (wellFormed_missingAt None None None). auto.
Qed.

(** X1: in a tree returned by [resolveDependencies] a node marked missing has
    four empty dependency maps, none of the labels and entry fields, and is
    not ambient. *)
Theorem missing_nodes_are_leaves E fuel options root n :
  resolveDependencies E fuel options = Fulfilled root ->
  inTree root n ->
  missing n = true ->
  emptyBranches n /\ blankEntry n /\ ambient n = false.
Proof.
  intros Hroot Hn.
  exact (proj1 (resolved_nodes_wellFormed E fuel options root Hroot n Hn)).
Qed.

Lemma missing_nodes_are_leaves_witness :
  exists root n,
    resolveDependencies Fixture.projectWorld 3 (Fixture.here true true)
    = Fulfilled root
    /\ dependencies root !! "z" = Some n
    /\ missing n = true
    /\ emptyBranches n /\ blankEntry n /\ ambient n = false.
Proof.
  assert (exists root n,
             resolveDependencies Fixture.projectWorld 3 (Fixture.here true true)
             = Fulfilled root
             /\ dependencies root !! "z" = Some n
             /\ missing n = true) as (root & n & Hroot & Hz & Hmissing)
      by (vm_compute; eexists _, _; repeat split).
  exists root, n. split; [exact Hroot|]. split; [exact Hz|].
  split; [exact Hmissing|].
  apply (missing_nodes_are_leaves Fixture.projectWorld 3
           (Fixture.here true true) root n Hroot); [|exact Hmissing].
  apply rtc_once. exists "z". now left.
Defined.

(** X2: in a tree returned by [resolveDependencies] only a native node that
    is not missing can be ambient. *)
Theorem ambient_nodes_are_native E fuel options root n :
  resolveDependencies E fuel options = Fulfilled root ->
  inTree root n ->
  ambient n = true ->
  type n = Some PROJECT_NAME /\ missing n = false.
Proof.
  intros Hroot Hn Hamb.
  destruct (resolved_nodes_wellFormed E fuel options root Hroot n Hn)
    as (Hmiss & Hnative & _).
  split; [now apply Hnative|].
  destruct (missing n) eqn:Hm; [|reflexivity].
  destruct (Hmiss eq_refl) as (_ & _ & Hf). congruence.
Qed.

Lemma ambient_nodes_are_native_witness :
  exists root n,
    resolveDependencies Sample.ambientWorld 3 (Sample.there false true)
    = Fulfilled root
    /\ dependencies root !! "g" = Some n
    /\ ambient n = true
    /\ type n = Some PROJECT_NAME /\ missing n = false.
Proof.
  assert (exists root n,
             resolveDependencies Sample.ambientWorld 3
                                 (Sample.there false true)
             = Fulfilled root
             /\ dependencies root !! "g" = Some n
             /\ ambient n = true) as (root & n & Hroot & Hg & Hamb)
      by (vm_compute; eexists _, _; repeat split).
  exists root, n. split; [exact Hroot|]. split; [exact Hg|].
  split; [exact Hamb|].
  apply (ambient_nodes_are_native Sample.ambientWorld 3
           (Sample.there false true) root n Hroot); [|exact Hamb].
  apply rtc_once. exists "g". now left.
Defined.

(** X3: in a tree returned by [resolveDependencies] an npm or bower node has
    no ambient dependencies and no ambient dev dependencies, and is not
    ambient. *)
Theorem ecosystem_nodes_without_ambient E fuel options root n :
  resolveDependencies E fuel options = Fulfilled root ->
  inTree root n ->
  type n = Some "npm" \/ type n = Some "bower" ->
  ambientDependencies n = ∅ /\ ambientDevDependencies n = ∅
  /\ ambient n = false.
Proof.
  intros Hroot Hn Hty.
  destruct (resolved_nodes_wellFormed E fuel options root Hroot n Hn)
    as (_ & Hnative & Heco & _).
  destruct (Heco Hty) as [Ha Had]. repeat split; [exact Ha | exact Had |].
  destruct (ambient n); [|reflexivity].
  specialize (Hnative eq_refl). unfold PROJECT_NAME in Hnative.
  destruct Hty as [H|H]; rewrite H in Hnative; discriminate.
Qed.

Lemma ecosystem_nodes_without_ambient_witness :
  exists root n,
    resolveDependencies Fixture.projectWorld 3 (Fixture.here true true)
    = Fulfilled root
    /\ dependencies root !! "c" = Some n
    /\ type n = Some "bower"
    /\ ambientDependencies n = ∅ /\ ambientDevDependencies n = ∅
    /\ ambient n = false.
Proof.
  assert (exists root n,
             resolveDependencies Fixture.projectWorld 3 (Fixture.here true true)
             = Fulfilled root
             /\ dependencies root !! "c" = Some n
             /\ type n = Some "bower") as (root & n & Hroot & Hc & Hty)
      by (vm_compute; eexists _, _; repeat split).
  exists root, n. split; [exact Hroot|]. split; [exact Hc|].
  split; [exact Hty|].
  apply (ecosystem_nodes_without_ambient Fixture.projectWorld 3
           (Fixture.here true true) root n Hroot); [|now right].
  apply rtc_once. exists "c". now left.
Defined.

(** X4: in a tree returned by [resolveDependencies] the [type] of a node is
    undefined, ["npm"], ["bower"] or the project name, and a node that has a
    type and is not missing records the [src] it was read from. *)
Theorem typed_nodes_have_source E fuel options root n :
  resolveDependencies E fuel options = Fulfilled root ->
  inTree root n ->
  (type n = None \/ type n = Some "npm" \/ type n = Some "bower"
   \/ type n = Some PROJECT_NAME)
  /\ (missing n = false -> type n <> None -> is_Some (src n)).
Proof.
  intros Hroot Hn.
  destruct (resolved_nodes_wellFormed E fuel options root Hroot n Hn)
    as (_ & _ & _ & Hty & Hsrc).
  now split.
Qed.

Lemma typed_nodes_have_source_witness :
  exists root n,
    resolveDependencies Fixture.projectWorld 3 (Fixture.here true true)
    = Fulfilled root
    /\ dependencies root !! "c" = Some n
    /\ (type n = None \/ type n = Some "npm" \/ type n = Some "bower"
        \/ type n = Some PROJECT_NAME)
    /\ (missing n = false -> type n <> None -> is_Some (src n)).
Proof.
  assert (exists root n,
             resolveDependencies Fixture.projectWorld 3 (Fixture.here true true)
             = Fulfilled root
             /\ dependencies root !! "c" = Some n) as (root & n & Hroot & Hc)
      by (vm_compute; eexists _, _; repeat split).
  exists root, n. split; [exact Hroot|]. split; [exact Hc|].
  apply (typed_nodes_have_source Fixture.projectWorld 3
           (Fixture.here true true) root n Hroot).
  apply rtc_once. exists "c". now left.
Defined.

(** ** The flags and the root *)

Lemma extend_empty_left {A} (b : gmap string A) : extend ∅ b = b.
Proof. unfold extend. apply (right_id_L ∅ (∪)). Qed.

Lemma typeFrom_flags E fuel s options parent t :
  resolveTypeDependencyFrom E fuel s options parent = Fulfilled t ->
  (dev options = false -> devDependencies t = ∅)
  /\ (ambient_opt options = false -> ambientDependencies t = ∅).
Proof.
  destruct fuel as [|fuel]; [discriminate|].
  rewrite resolveTypeDependencyFrom_S.
  unfold Body.resolveTypeDependencyFrom. intros H.
  apply bind_Fulfilled in H as (u & _ & H).
  destruct (Fs.readConfigFrom E s) as [config|].
  - apply bind_Fulfilled in H as (d & _ & H).
    apply bind_Fulfilled in H as (dd & Hdd & H).
    apply bind_Fulfilled in H as (ad & Had & H).
    apply bind_Fulfilled in H as (add & _ & H).
    injection H as <-. cbn. split.
    + intros Hdev. rewrite Hdev in Hdd.
      unfold Body.resolveTypeDependencyMap in Hdd.
      rewrite resolveEach_empty in Hdd. congruence.
    + intros Hamb. rewrite Hamb in Had.
      unfold Body.resolveTypeDependencyMap in Had.
      rewrite resolveEach_empty in Had. congruence.
  - injection H as <-. now split.
Qed.

Lemma bowerFrom_flags E fuel s componentPath options parent t :
  resolveBowerDependencyFrom E fuel s componentPath options parent
  = Fulfilled t ->
  (dev options = false -> devDependencies t = ∅)
  /\ ambientDependencies t = ∅.
Proof.
  destruct fuel as [|fuel]; [discriminate|].
  rewrite resolveBowerDependencyFrom_S.
  unfold Body.resolveBowerDependencyFrom. intros H.
  apply bind_Fulfilled in H as (u & _ & H).
  destruct (Fs.readJson E s) as [bowerJson|].
  - apply bind_Fulfilled in H as (own & _ & H).
    apply bind_Fulfilled in H as (ownDev & HownDev & H).
    apply bind_Fulfilled in H as (typed & Htyped & H).
    injection H as <-. cbn. split; [|reflexivity].
    intros Hdev. rewrite Hdev in HownDev.
    unfold Body.resolveBowerDependencyMap in HownDev.
    rewrite resolveEach_empty in HownDev. injection HownDev as <-.
    rewrite (proj1 (typeFrom_flags E fuel _ _ _ _ Htyped) Hdev).
    apply extend_empty_r.
  - injection H as <-. now split.
Qed.

Lemma npmFrom_flags E fuel s options parent t :
  resolveNpmDependencyFrom E fuel s options parent = Fulfilled t ->
  (dev options = false -> devDependencies t = ∅)
  /\ ambientDependencies t = ∅.
Proof.
  destruct fuel as [|fuel]; [discriminate|].
  rewrite resolveNpmDependencyFrom_S.
  unfold Body.resolveNpmDependencyFrom. intros H.
  apply bind_Fulfilled in H as (u & _ & H).
  destruct (Fs.readJson E s) as [packageJson|].
  - apply bind_Fulfilled in H as (own & _ & H).
    apply bind_Fulfilled in H as (ownDev & HownDev & H).
    apply bind_Fulfilled in H as (typed & Htyped & H).
    injection H as <-. cbn. split; [|reflexivity].
    intros Hdev. rewrite Hdev in HownDev.
    unfold Body.resolveNpmDependencyMap in HownDev.
    rewrite resolveEach_empty in HownDev. injection HownDev as <-.
    rewrite (proj1 (typeFrom_flags E fuel _ _ _ _ Htyped) Hdev).
    apply extend_empty_r.
  - injection H as <-. now split.
Qed.

Lemma root_readers_flags E fuel options b n t :
  resolveBowerDependencies E fuel options = Fulfilled b ->
  resolveNpmDependencies E fuel options = Fulfilled n ->
  resolveTypeDependencies E fuel options = Fulfilled t ->
  (dev options = false ->
   devDependencies b = ∅ /\ devDependencies n = ∅ /\ devDependencies t = ∅)
  /\ ambientDependencies b = ∅ /\ ambientDependencies n = ∅
  /\ (ambient_opt options = false -> ambientDependencies t = ∅).
Proof.
  unfold resolveBowerDependencies, Body.resolveBowerDependencies,
    resolveNpmDependencies, Body.resolveNpmDependencies,
    resolveTypeDependencies, Body.resolveTypeDependencies.
  intros Hb Hn Ht.
  assert ((dev options = false -> devDependencies b = ∅)
          /\ ambientDependencies b = ∅) as [Hb1 Hb2].
  { destruct (findUp E (cwd options) "bower.json").
    - exact (bowerFrom_flags E fuel _ _ _ _ _ Hb).
    - injection Hb as <-. now split. }
  assert ((dev options = false -> devDependencies n = ∅)
          /\ ambientDependencies n = ∅) as [Hn1 Hn2].
  { destruct (findUp E (cwd options) "package.json").
    - exact (npmFrom_flags E fuel _ _ _ _ Hn).
    - injection Hn as <-. now split. }
  assert ((dev options = false -> devDependencies t = ∅)
          /\ (ambient_opt options = false -> ambientDependencies t = ∅))
    as [Ht1 Ht2].
  { destruct (findConfigFile E (cwd options)).
    - exact (typeFrom_flags E fuel _ _ _ _ Ht).
    - injection Ht as <-. now split. }
  repeat split; auto.
Qed.

(** X5: with [dev] off the root returned by [resolveDependencies] has no
    dev dependencies, and with [ambient] off it has no ambient
    dependencies, whatever the manifests declare. *)
Theorem root_respects_flags E fuel options root :
  resolveDependencies E fuel options = Fulfilled root ->
  (dev options = false -> devDependencies root = ∅)
  /\ (ambient_opt options = false -> ambientDependencies root = ∅).
Proof.
  intros H.
  apply resolveDependencies_trees in H as (b & n & t & Hb & Hn & Ht & ->).
  destruct (root_readers_flags E fuel options b n t Hb Hn Ht)
    as (Hdev & Hab & Han & Hat).
  split.
  - intros Hoff. destruct (Hdev Hoff) as (H1 & H2 & H3).
    cbn. rewrite H1, H2, H3. now rewrite !extend_empty_r.
  - intros Hoff. cbn. rewrite Hab, Han, (Hat Hoff).
    now rewrite !extend_empty_r.
Qed.

Lemma root_respects_flags_witness :
  exists root,
    resolveDependencies Fixture.projectWorld 3 (Fixture.here false false)
    = Fulfilled root
    /\ devDependencies root = ∅ /\ ambientDependencies root = ∅.
Proof.
  assert (exists root,
             resolveDependencies Fixture.projectWorld 3
                                 (Fixture.here false false)
             = Fulfilled root) as [root Hroot]
      by (vm_compute; eexists; reflexivity).
  exists root. split; [exact Hroot|].
  destruct (root_respects_flags Fixture.projectWorld 3
              (Fixture.here false false) root Hroot) as [Hd Ha].
  split; [now apply Hd | now apply Ha].
Defined.

(** X6: the ambient dependencies of the root returned by
    [resolveDependencies] are exactly those of the native subtree: the npm
    and bower subtrees never contribute any, not even those declared by the
    native config read next to their manifest. *)
Theorem root_ambient_from_native E fuel options root :
  resolveDependencies E fuel options = Fulfilled root ->
  exists native,
    resolveTypeDependencies E fuel options = Fulfilled native
    /\ ambientDependencies root = ambientDependencies native.
Proof.
  intros H.
  apply resolveDependencies_trees in H as (b & n & t & Hb & Hn & Ht & ->).
  destruct (root_readers_flags E fuel options b n t Hb Hn Ht)
    as (_ & Hab & Han & _).
  exists t. split; [exact Ht|].
  cbn. rewrite Hab, Han. now rewrite !extend_empty_r, extend_empty_left.
Qed.

Lemma root_ambient_from_native_witness :
  exists root native,
    resolveDependencies Sample.ambientWorld 3 (Sample.there false true)
    = Fulfilled root
    /\ resolveTypeDependencies Sample.ambientWorld 3 (Sample.there false true)
       = Fulfilled native
    /\ ambientDependencies root = ambientDependencies native.
Proof.
  assert (exists root,
             resolveDependencies Sample.ambientWorld 3
                                 (Sample.there false true)
             = Fulfilled root) as [root Hroot]
      by (vm_compute; eexists; reflexivity).
  destruct (root_ambient_from_native Sample.ambientWorld 3
              (Sample.there false true) root Hroot) as (native & Hn & Heq).
  exists root, native. split; [exact Hroot|]. split; [exact Hn | exact Heq].
Defined.

(** X12: the root built by [mergeDependencies] has no [type] and no
    [version] and is not ambient, whatever the merged subtrees carry. *)
Theorem merged_root_header trees :
  type (mergeDependencies trees) = None
  /\ version (mergeDependencies trees) = VUndefined
  /\ ambient (mergeDependencies trees) = false.
Proof. apply mergeDependencies_header. Qed.

(** ** Subtrees that contribute nothing *)

Lemma mergeStep_inert d t : inert t -> mergeStep d t = d.
Proof.
  intros (Hs & Hd & Hdd & Had). destruct d. unfold mergeStep. cbn.
  rewrite Hs, Hd, Hdd, Had. now rewrite !extend_empty_r.
Qed.

Lemma fold_mergeStep_app pre post d :
  fold_left mergeStep (pre ++ post)%list d
  = fold_left mergeStep post (fold_left mergeStep pre d).
Proof. apply fold_left_app. Qed.

(** X11: a subtree with no string entry field and with empty
    [dependencies], [devDependencies] and [ambientDependencies], such as the
    missing node of an absent ecosystem, can be left out of a merge without
    changing the result, wherever it stands in the list. *)
Theorem merge_ignores_inert_subtrees pre t post :
  inert t ->
  mergeDependencies (pre ++ t :: post)%list
  = mergeDependencies (pre ++ post)%list.
Proof.
  intros Ht. unfold mergeDependencies. rewrite !fold_mergeStep_app. cbn.
  now rewrite mergeStep_inert.
Qed.

Lemma merge_ignores_inert_subtrees_witness :
  inert Fixture.bowerTree
  /\ mergeDependencies ([] ++ Fixture.bowerTree
                           :: [Fixture.npmTree; Fixture.nativeTree])%list
     = mergeDependencies ([] ++ [Fixture.npmTree; Fixture.nativeTree])%list.
Proof.
  assert (inert Fixture.bowerTree) as Hinert by (repeat split).
  split; [exact Hinert|].
  exact (merge_ignores_inert_subtrees [] Fixture.bowerTree
           [Fixture.npmTree; Fixture.nativeTree] Hinert).
Defined.

(** ** Keys of resolved branches *)

Lemma resolveEach_dom {A B} (f : string -> A -> Promise B)
      (table : gmap string A) (branch : gmap string B) :
  resolveEach f table = Fulfilled branch -> dom branch = dom table.
Proof.
  intros H. apply set_eq. intros k. rewrite !elem_of_dom.
  pose proof (resolveEach_Fulfilled f table branch k H) as Hk.
  destruct (table !! k) as [a|].
  - destruct Hk as (b & _ & ->). split; eauto.
  - rewrite Hk. split; intros [x Hx]; discriminate.
Qed.

(** X7: a branch resolved from a dependency table has exactly the keys of
    the table: every entry gets a node, missing or not, and no key is
    added. *)
Theorem map_resolvers_keep_keys E fuel table options parent branch :
  (exists componentPath,
      resolveBowerDependencyMap E fuel componentPath table options parent
      = Fulfilled branch)
  \/ (exists s,
         resolveNpmDependencyMap E fuel s table options parent
         = Fulfilled branch)
  \/ (exists s,
         resolveTypeDependencyMap E fuel s table options parent
         = Fulfilled branch) ->
  dom branch = dom table.
Proof.
  intros [[cp H]|[[s H]|[s H]]]; exact (resolveEach_dom _ _ _ H).
Qed.

Lemma map_resolvers_keep_keys_witness :
  exists branch,
    resolveTypeDependencyMap Fixture.projectWorld 1 "/p/typings.json"
      Fixture.typingsDependencies (Fixture.here false false)
      (missingAt None (Some "/p/typings.json") None)
    = Fulfilled branch
    /\ dom branch = dom Fixture.typingsDependencies.
Proof.
  assert (exists branch,
             resolveTypeDependencyMap Fixture.projectWorld 1 "/p/typings.json"
               Fixture.typingsDependencies (Fixture.here false false)
               (missingAt None (Some "/p/typings.json") None)
             = Fulfilled branch) as [branch Hbranch]
      by (vm_compute; eexists; reflexivity).
  exists branch. split; [exact Hbranch|].
  apply (map_resolvers_keep_keys Fixture.projectWorld 1
           Fixture.typingsDependencies (Fixture.here false false)
           (missingAt None (Some "/p/typings.json") None) branch).
  right. right. exists "/p/typings.json". exact Hbranch.
Defined.

Lemma typeFrom_dependency_keys E fuel s options parent typedPackage :
  resolveTypeDependencyFrom E fuel s options parent = Fulfilled typedPackage ->
  dom (dependencies typedPackage)
  = match Fs.readConfigFrom E s with
    | Some config => dom (m_dependencies config)
    | None => ∅
    end.
Proof.
  destruct fuel as [|fuel]; [discriminate|].
  rewrite resolveTypeDependencyFrom_S.
  unfold Body.resolveTypeDependencyFrom. intros H.
  apply bind_Fulfilled in H as (u & _ & H).
  destruct (Fs.readConfigFrom E s) as [config|].
  - apply bind_Fulfilled in H as (d & Hd & H).
    apply bind_Fulfilled in H as (dd & _ & H).
    apply bind_Fulfilled in H as (ad & _ & H).
    apply bind_Fulfilled in H as (add & _ & H).
    injection H as <-. cbn. exact (resolveEach_dom _ _ _ Hd).
  - injection H as <-. cbn. apply dom_empty_L.
Qed.

(** X8: for a [package.json] whose [dependencies] and
    [optionalDependencies], and a native config next to it whose
    [dependencies], have no key named [__proto__], the keys of the
    [dependencies] of the npm node are those of the manifest's
    [dependencies] and [optionalDependencies] together with those of the
    dependencies of the native config read next to it, and [__proto__] is
    not among them. *)
Theorem npm_dependency_keys E fuel s options parent packageJson tree :
  Fs.readJson E s = Some packageJson ->
  withoutProto (m_dependencies packageJson) ->
  withoutProto (m_optionalDependencies packageJson) ->
  (forall config,
      Fs.readConfigFrom E (join E [s; ".."; CONFIG_FILE]) = Some config ->
      withoutProto (m_dependencies config)) ->
  resolveNpmDependencyFrom E (S fuel) s options parent = Fulfilled tree ->
  exists typedPackage,
    resolveTypeDependencyFrom E fuel (join E [s; ".."; CONFIG_FILE]) options
                              (Some (asParent tree))
    = Fulfilled typedPackage
    /\ dom (dependencies tree)
       = dom (m_dependencies packageJson)
         ∪ dom (m_optionalDependencies packageJson)
         ∪ dom (dependencies typedPackage)
    /\ withoutProto (dependencies tree).
Proof.
  intros Hread Hdeps Hopt Hoverlay H. rewrite resolveNpmDependencyFrom_S in H.
  unfold Body.resolveNpmDependencyFrom in H. rewrite Hread in H.
  apply bind_Fulfilled in H as (_ & _ & H).
  apply bind_Fulfilled in H as (own & Hown & H).
  apply bind_Fulfilled in H as (ownDev & _ & H).
  apply bind_Fulfilled in H as (typed & Htyped & H).
  injection H as <-. exists typed. split; [exact Htyped|].
  cbn. apply resolveEach_dom in Hown.
  assert (dom (extend own (dependencies typed))
          = dom (m_dependencies packageJson)
            ∪ dom (m_optionalDependencies packageJson)
            ∪ dom (dependencies typed)) as Hdom.
  { unfold extend in *. rewrite dom_union_L, Hown, dom_union_L.
    apply set_eq. intros k. rewrite !elem_of_union. tauto. }
  split; [exact Hdom|].
  unfold withoutProto in *. apply not_elem_of_dom. rewrite Hdom.
  pose proof (typeFrom_dependency_keys _ _ _ _ _ _ Htyped) as Hkeys.
  rewrite !elem_of_union.
  intros [[Hin|Hin]|Hin];
    [apply elem_of_dom in Hin as [v Hv]; rewrite Hdeps in Hv; discriminate
    |apply elem_of_dom in Hin as [v Hv]; rewrite Hopt in Hv; discriminate|].
  rewrite Hkeys in Hin.
  destruct (Fs.readConfigFrom E (join E [s; ".."; CONFIG_FILE]))
    as [config|] eqn:Hconfig.
  - apply elem_of_dom in Hin as [v Hv].
    rewrite (Hoverlay config eq_refl) in Hv. discriminate.
  - now apply elem_of_empty in Hin.
Qed.

Lemma npm_dependency_keys_witness :
  exists packageJson tree typedPackage,
    Fs.readJson Sample.ambientWorld "/a/package.json" = Some packageJson
    /\ resolveNpmDependencyFrom Sample.ambientWorld 3 "/a/package.json"
         (Sample.there false false) None = Fulfilled tree
    /\ resolveTypeDependencyFrom Sample.ambientWorld 2
         (join Sample.ambientWorld ["/a/package.json"; ".."; CONFIG_FILE])
         (Sample.there false false) (Some (asParent tree))
       = Fulfilled typedPackage
    /\ dom (dependencies tree)
       = dom (m_dependencies packageJson)
         ∪ dom (m_optionalDependencies packageJson)
         ∪ dom (dependencies typedPackage)
    /\ withoutProto (dependencies tree).
Proof.
  assert (exists packageJson,
             Fs.readJson Sample.ambientWorld "/a/package.json"
             = Some packageJson
             /\ withoutProto (m_dependencies packageJson)
             /\ withoutProto (m_optionalDependencies packageJson))
    as (packageJson & Hread & Hdeps & Hopt)
      by (vm_compute; eexists; split; [reflexivity|]; split; reflexivity).
  assert (exists config,
             Fs.readConfigFrom Sample.ambientWorld
               (join Sample.ambientWorld
                     ["/a/package.json"; ".."; CONFIG_FILE])
             = Some config
             /\ withoutProto (m_dependencies config))
    as (config & Hconfig & Hplain)
      by (vm_compute; eexists; split; reflexivity).
  assert (exists tree,
             resolveNpmDependencyFrom Sample.ambientWorld 3 "/a/package.json"
               (Sample.there false false) None = Fulfilled tree)
    as [tree Htree] by (vm_compute; eexists; reflexivity).
  destruct (npm_dependency_keys Sample.ambientWorld 2 "/a/package.json"
              (Sample.there false false) None packageJson tree Hread
              Hdeps Hopt)
    as (typed & Htyped & Hdom & Hproto).
  - intros config' Hconfig'. rewrite Hconfig in Hconfig'.
    injection Hconfig' as <-. exact Hplain.
  - exact Htree.
  - exists packageJson, tree, typed.
    split; [exact Hread|]. split; [exact Htree|].
    split; [exact Htyped|]. split; [exact Hdom | exact Hproto].
Defined.

(** ** Declaration files among the candidates *)

(** X9: when the first candidate of a native dependency is neither an npm
    nor a bower dependency and its location resolves to a declaration file,
    the entry of the resolved branch is the node of that file: its [typings]
    and [src] are the resolved path, its parent is the config being
    expanded, it has no dependencies, and neither a manifest, nor the chain
    of parents, nor the remaining candidates are looked at. *)
Theorem definition_candidate_short_circuits
        E fuel s table options parent branch key value candidate rest :
  let dependency := parseDependency E candidate in
  let path :=
    fileDependencySrc E (d_location dependency)
                      (childOptionsAt options (dirname E s))
                      (Some (asParent parent)) in
  resolveTypeDependencyMap E fuel s table options parent = Fulfilled branch ->
  table !! key = Some value ->
  arrify value = candidate :: rest ->
  d_type dependency <> "npm" ->
  d_type dependency <> "bower" ->
  isDefinition E path = true ->
  branch !! key = Some (definitionNode path (Some (asParent parent))).
Proof.
  cbv zeta. intros Hmap Hkey Hvalue Hnpm Hbower Hdef.
  pose proof (resolveEach_Fulfilled _ _ _ key Hmap) as Hk.
  rewrite Hkey in Hk. destruct Hk as (tree & Htree & ->). f_equal.
  rewrite Hvalue in Htree.
  set (resolveOne := fun dependency =>
         Body.resolveDependency E (resolvers E fuel)
           (parseDependency E dependency)
           (childOptionsAt options (dirname E s)) (Some (asParent parent))).
  set (node := definitionNode _ _).
  assert (resolveCandidates resolveOne ([] ++ candidate :: rest)%list
          = Fulfilled node) as Hfound.
  { apply resolveCandidates_first_found; [constructor | | reflexivity].
    unfold resolveOne, Body.resolveDependency.
    apply String.eqb_neq in Hnpm, Hbower. rewrite Hnpm, Hbower.
    rewrite fileDependency_unfold, Hdef. reflexivity. }
  assert (Fulfilled tree = Fulfilled node) as Heq
      by exact (eq_trans (eq_sym Htree) Hfound).
  now injection Heq.
Qed.

Lemma definition_candidate_short_circuits_witness :
  exists branch,
    resolveTypeDependencyMap Fixture.projectWorld 0 "/p/typings.json"
      {[ "a" := Many [ "file:typed/a.d.ts"; "npm:a" ] ]}
      (Fixture.here false false)
      (missingAt None (Some "/p/typings.json") None)
    = Fulfilled branch
    /\ branch !! "a"
       = Some (definitionNode "/p/typed/a.d.ts"
                 (Some (asParent
                          (missingAt None (Some "/p/typings.json") None)))).
Proof.
  assert (exists branch,
             resolveTypeDependencyMap Fixture.projectWorld 0 "/p/typings.json"
               {[ "a" := Many [ "file:typed/a.d.ts"; "npm:a" ] ]}
               (Fixture.here false false)
               (missingAt None (Some "/p/typings.json") None)
             = Fulfilled branch) as [branch Hbranch]
      by (vm_compute; eexists; reflexivity).
  exists branch. split; [exact Hbranch|].
  assert (fileDependencySrc Fixture.projectWorld
            (d_location (parseDependency Fixture.projectWorld
                                         "file:typed/a.d.ts"))
            (childOptionsAt (Fixture.here false false)
                            (dirname Fixture.projectWorld "/p/typings.json"))
            (Some (asParent (missingAt None (Some "/p/typings.json") None)))
          = "/p/typed/a.d.ts") as Hpath by (vm_compute; reflexivity).
  rewrite <- Hpath.
  apply (definition_candidate_short_circuits Fixture.projectWorld 0
           "/p/typings.json" _ (Fixture.here false false) _ branch "a"
           (Many [ "file:typed/a.d.ts"; "npm:a" ])
           "file:typed/a.d.ts" [ "npm:a" ] Hbranch).
  - vm_compute. reflexivity.
  - reflexivity.
  - vm_compute. discriminate.
  - vm_compute. discriminate.
  - vm_compute. reflexivity.
Defined.

(** ** Manifests that cannot be read *)

(** X10: a manifest that passes the cycle check but cannot be read, be it
    absent or present with a text that does not parse, gives a missing node
    that carries the ecosystem's tag, the path and the parent; the failure
    of the read is not passed on. *)
Theorem unreadable_manifest_is_missing E fuel s componentPath options parent :
  checkCircularDependency parent s = Fulfilled tt ->
  (Fs.readJson E s = None ->
   resolveBowerDependencyFrom E (S fuel) s componentPath options parent
   = Fulfilled (missingAt (Some "bower") (Some s) parent)
   /\ resolveNpmDependencyFrom E (S fuel) s options parent
      = Fulfilled (missingAt (Some "npm") (Some s) parent))
  /\ (Fs.readConfigFrom E s = None ->
      resolveTypeDependencyFrom E (S fuel) s options parent
      = Fulfilled (missingAt (Some PROJECT_NAME) (Some s) parent))
  /\ (forall text,
        readFile E s = Some text ->
        parseJson E (stripBom text) s = None ->
        Fs.readJson E s = None).
Proof.
  intros Hcheck. split; [|split].
  - intros Hread.
    rewrite resolveBowerDependencyFrom_S, resolveNpmDependencyFrom_S.
    unfold Body.resolveBowerDependencyFrom, Body.resolveNpmDependencyFrom.
    now rewrite Hcheck, Hread.
  - intros Hread. rewrite resolveTypeDependencyFrom_S.
    unfold Body.resolveTypeDependencyFrom. now rewrite Hcheck, Hread.
  - intros text Htext Hparse. unfold Fs.readJson. now rewrite Htext.
Qed.

Lemma unreadable_manifest_is_missing_witness :
  Fs.readJson Sample.ambientWorld "/a/broken/package.json" = None
  /\ resolveNpmDependencyFrom Sample.ambientWorld 1 "/a/broken/package.json"
       (Sample.there false false) (Some (mkAncestor (Some "/a/typings.json") None))
     = Fulfilled (missingAt (Some "npm") (Some "/a/broken/package.json")
                            (Some (mkAncestor (Some "/a/typings.json") None)))
  /\ resolveTypeDependencyFrom Sample.ambientWorld 1 "/a/absent.json"
       (Sample.there false false) None
     = Fulfilled (missingAt (Some PROJECT_NAME) (Some "/a/absent.json") None).
Proof.
  assert (Fs.readJson Sample.ambientWorld "/a/broken/package.json" = None)
    as Hbroken.
  { apply (proj2 (proj2 (unreadable_manifest_is_missing Sample.ambientWorld 0
                           "/a/broken/package.json" "" (Sample.there false false)
                           None eq_refl)) [123]%N); reflexivity. }
  split; [exact Hbroken|]. split.
  - apply (proj1 (unreadable_manifest_is_missing Sample.ambientWorld 0
                    "/a/broken/package.json" "" (Sample.there false false)
                    (Some (mkAncestor (Some "/a/typings.json") None))
                    eq_refl)).
    exact Hbroken.
  - apply (proj1 (proj2 (unreadable_manifest_is_missing Sample.ambientWorld 0
                           "/a/absent.json" "" (Sample.there false false)
                           None eq_refl))).
    reflexivity.
Defined.

(** ** Line endings of rewritten JSON *)

Lemma detectEOL_kinds contents eol :
  Transform.detectEOL contents = Some eol ->
  eol = [Transform.LF] \/ eol = [Transform.CR; Transform.LF]
  \/ eol = [Transform.CR].
Proof.
  induction contents as [|c rest IH]; cbn; [discriminate|].
  destruct (c =? Transform.CR)%N.
  - destruct rest as [|d rest']; [intros H; injection H as <-; auto|].
    destruct (d =? Transform.LF)%N; intros H; injection H as <-; auto.
  - destruct (c =? Transform.LF)%N; [intros H; injection H as <-; auto|].
    exact IH.
Qed.

Lemma replaceNewlines_cons eol c s :
  Transform.replaceNewlines eol (c :: s)
  = ((if (c =? Transform.LF)%N then eol else [c])
       ++ Transform.replaceNewlines eol s)%list.
Proof. reflexivity. Qed.

Lemma replaced_head_not_LF s :
  head (Transform.replaceNewlines [Transform.CR] s ++ [Transform.CR])%list
  <> Some Transform.LF.
Proof.
  destruct s as [|c s]; [discriminate|].
  rewrite replaceNewlines_cons.
  destruct (N.eqb_spec c Transform.LF); cbn; [discriminate | congruence].
Qed.

Lemma detectEOL_replaceNewlines eol s :
  eol = [Transform.LF] \/ eol = [Transform.CR; Transform.LF]
  \/ eol = [Transform.CR] ->
  Transform.CR ∉ s ->
  Transform.detectEOL (Transform.replaceNewlines eol s ++ eol)%list
  = Some eol.
Proof.
  intros Heol. induction s as [|c s IH]; intros Hcr.
  - destruct Heol as [-> | [-> | ->]]; reflexivity.
  - apply not_elem_of_cons in Hcr as [Hc Hs].
    rewrite replaceNewlines_cons.
    destruct (N.eqb_spec c Transform.LF) as [->|Hlf].
    + destruct Heol as [-> | [-> | ->]]; [reflexivity..|].
      pose proof (replaced_head_not_LF s) as Hhead. cbn.
      destruct (Transform.replaceNewlines [Transform.CR] s
                  ++ [Transform.CR])%list as [|d rest]; [reflexivity|].
      destruct (N.eqb_spec d Transform.LF) as [->|]; [|reflexivity].
      now destruct Hhead.
    + cbn. destruct (N.eqb_spec c Transform.CR) as [->|_]; [now destruct Hc|].
      destruct (N.eqb_spec c Transform.LF) as [->|_]; [now destruct Hlf|].
      now apply IH.
Qed.

(** X13: text produced by [stringifyJson] with one of the three line endings
    is recognised by [detectEOL] as having that line ending, as long as
    [JSON.stringify] puts no carriage return in its output. *)
Theorem stringifyJson_keeps_line_ending
        {J} (L : Transform.JsonLib J) json indent eol :
  eol = [Transform.LF] \/ eol = [Transform.CR; Transform.LF]
  \/ eol = [Transform.CR] ->
  Transform.CR
    ∉ Transform.stringify L json (default (Transform.IndentNumber 2) indent) ->
  Transform.detectEOL (Transform.stringifyJson L json indent (Some eol))
  = Some eol.
Proof.
  intros Heol Hcr. unfold Transform.stringifyJson. cbn.
  now apply detectEOL_replaceNewlines.
Qed.

Lemma stringifyJson_keeps_line_ending_witness :
  Transform.detectEOL
    (Transform.stringifyJson Desk.flags [true; false] None
                             (Some [Transform.CR; Transform.LF]))
  = Some [Transform.CR; Transform.LF].
Proof.
  apply stringifyJson_keeps_line_ending.
  - right. left. reflexivity.
  - apply (bool_decide_unpack _). vm_compute. exact I.
Defined.

(** ** The locked read-modify-write *)

Ltac transform_cases D path transform :=
  unfold Transform.transformFile, Transform.promiseFinally,
    Transform.thenElse, Transform.andThen, Transform.thenElse,
    Transform.after, Transform.settled, Transform.lock, Transform.unlock,
    Transform.readFile, Transform.writeFile, Transform.attempt; cbn;
  destruct (Transform.lockOk D (path +:+ ".lock")) eqn:?; cbn;
  [destruct (Transform.fileAt D path) as [?contents|] eqn:?; cbn|];
  (match goal with
   | |- context [transform ?x] => destruct (transform x) as [?c|?r] eqn:?
   end); cbn;
  try (match goal with
       | |- context [Transform.writeOk D path ?c] =>
           destruct (Transform.writeOk D path c) eqn:?
       end); cbn;
  destruct (Transform.unlockOk D (path +:+ ".lock")) eqn:?; cbn.

(** X14: whatever happens in between, [transformFile] first asks for the
    lock file of the path and last releases it, once each, and in between
    only reads and writes the path itself. *)
Theorem transformFile_brackets_with_lock D path transform :
  exists middle,
    (Transform.transformFile D path transform).1
    = (Transform.CallLock (path +:+ ".lock")
         :: middle ++ [Transform.CallUnlock (path +:+ ".lock")])%list
    /\ Forall (fun call =>
                 call = Transform.CallReadFile path
                 \/ exists contents,
                      call = Transform.CallWriteFile path contents)
              middle.
Proof.
  exists (removelast (tail (Transform.transformFile D path transform).1)).
  transform_cases D path transform;
    (split; [reflexivity|]);
    repeat first
      [ apply List.Forall_nil
      | apply List.Forall_cons;
        [first [left; reflexivity | right; eexists; reflexivity]|] ].
Qed.

Ltac transform_unfold :=
  unfold Transform.transformJson, Transform.transformDtsFile,
    Transform.transformFile, Transform.promiseFinally,
    Transform.thenElse, Transform.andThen, Transform.thenElse,
    Transform.after, Transform.settled, Transform.lock, Transform.unlock,
    Transform.readFile, Transform.writeFile, Transform.attempt; cbn.

(** X15: when the lock cannot be taken the file is not read, and when it is
    taken but the file cannot be read, the transform is applied to
    [undefined] in both cases; what it returns is written to the path and
    the lock file is released. *)
Theorem transformFile_without_contents D path transform contents' :
  transform None = Transform.Resolved contents' ->
  (Transform.lockOk D (path +:+ ".lock") = false ->
   (Transform.transformFile D path transform).1
   = [ Transform.CallLock (path +:+ ".lock");
       Transform.CallWriteFile path contents';
       Transform.CallUnlock (path +:+ ".lock") ])
  /\ (Transform.lockOk D (path +:+ ".lock") = true ->
      Transform.fileAt D path = None ->
      (Transform.transformFile D path transform).1
      = [ Transform.CallLock (path +:+ ".lock");
          Transform.CallReadFile path;
          Transform.CallWriteFile path contents';
          Transform.CallUnlock (path +:+ ".lock") ]).
Proof.
  intros Htransform. split.
  - intros Hlock. transform_unfold. rewrite Hlock. cbn.
    rewrite Htransform. cbn.
    now destruct (Transform.unlockOk D (path +:+ ".lock")).
  - intros Hlock Hfile. transform_unfold. rewrite Hlock. cbn.
    rewrite Hfile. cbn. rewrite Htransform. cbn.
    now destruct (Transform.unlockOk D (path +:+ ".lock")).
Qed.

Lemma transformFile_without_contents_witness :
  (Transform.transformFile (Desk.disk Desk.files true) "/a/typings.json"
                           (fun _ => Transform.Resolved [49%N])).1
  = [ Transform.CallLock "/a/typings.json.lock";
      Transform.CallWriteFile "/a/typings.json" [49%N];
      Transform.CallUnlock "/a/typings.json.lock" ].
Proof.
  apply (proj1 (transformFile_without_contents
                  (Desk.disk Desk.files true) "/a/typings.json"
                  (fun _ => Transform.Resolved [49%N]) [49%N] eq_refl)).
  reflexivity.
Defined.

(** X16: [transformFile] succeeds exactly when the transform of what was
    read resolves, the write succeeds and the lock file is released; when
    the transform fails nothing is written, and that failure is the
    outcome unless releasing the lock file fails too. *)
Theorem transformFile_outcome D path transform :
  let input :=
    if Transform.lockOk D (path +:+ ".lock") then Transform.fileAt D path
    else None in
  ((Transform.transformFile D path transform).2 = Transform.Resolved tt
   <-> exists contents',
         transform input = Transform.Resolved contents'
         /\ Transform.writeOk D path contents' = true
         /\ Transform.unlockOk D (path +:+ ".lock") = true)
  /\ (forall reason,
        transform input = Transform.Failed reason ->
        (forall contents',
            Transform.CallWriteFile path contents'
            ∉ (Transform.transformFile D path transform).1)
        /\ (Transform.unlockOk D (path +:+ ".lock") = true ->
            (Transform.transformFile D path transform).2
            = Transform.Failed reason)).
Proof.
  cbv zeta. split; [split|].
  - transform_cases D path transform; intros H; try discriminate;
      eexists; repeat split; eassumption.
  - intros (contents' & Htransform & Hwrite & Hunlock).
    transform_unfold. rewrite Hunlock. cbn.
    destruct (Transform.lockOk D (path +:+ ".lock")); cbn;
      [destruct (Transform.fileAt D path); cbn|];
      rewrite Htransform; cbn; now rewrite Hwrite.
  - intros reason Htransform. split.
    + intros contents'. transform_unfold.
      destruct (Transform.lockOk D (path +:+ ".lock")); cbn;
        [destruct (Transform.fileAt D path); cbn|];
        rewrite Htransform; cbn;
        destruct (Transform.unlockOk D (path +:+ ".lock")); cbn;
        intros Hin;
        repeat (apply elem_of_cons in Hin as [Hin|Hin]; [discriminate|]);
        now apply elem_of_nil in Hin.
    + intros Hunlock. transform_unfold. rewrite Hunlock. cbn.
      destruct (Transform.lockOk D (path +:+ ".lock")); cbn;
        [destruct (Transform.fileAt D path); cbn|];
        now rewrite Htransform.
Qed.

(** ** Rewriting JSON files *)

(** X17: when [transformJson] rewrites a file that has line breaks, the text
    it writes has the line ending of the text it read, as long as
    [JSON.stringify] puts no carriage return in its output. *)
Theorem transformJson_keeps_line_ending
        {J} D (L : Transform.JsonLib J) path transform
        contents json json' eol :
  Transform.lockOk D (path +:+ ".lock") = true ->
  Transform.fileAt D path = Some contents ->
  Transform.detectEOL contents = Some eol ->
  Transform.parse L contents path = Some json ->
  transform (Some json) = Transform.Resolved json' ->
  Transform.CR
    ∉ Transform.stringify L json'
        (Transform.IndentText (Transform.detectIndent L contents)) ->
  exists written,
    (Transform.transformJson D L path transform).1
    = [ Transform.CallLock (path +:+ ".lock");
        Transform.CallReadFile path;
        Transform.CallWriteFile path written;
        Transform.CallUnlock (path +:+ ".lock") ]
    /\ Transform.detectEOL written = Some eol.
Proof.
  intros Hlock Hfile Heol Hparse Htransform Hcr.
  destruct contents as [|c rest]; [discriminate|].
  exists (Transform.stringifyJson L json'
            (Some (Transform.IndentText
                     (Transform.detectIndent L (c :: rest))))
            (Some eol)).
  split.
  - transform_unfold. rewrite Hlock. cbn. rewrite Hfile. cbn.
    unfold Transform.jsonTransform. cbn. rewrite Hparse. cbn.
    rewrite Htransform. cbn. cbn in Heol. rewrite Heol.
    now destruct (Transform.unlockOk D (path +:+ ".lock")).
  - apply stringifyJson_keeps_line_ending; [|exact Hcr].
    exact (detectEOL_kinds _ _ Heol).
Qed.

Lemma transformJson_keeps_line_ending_witness :
  exists written,
    (Transform.transformJson (Desk.disk Desk.files false) Desk.flags
       "/a/typings.json"
       (fun json => Transform.Resolved (false :: default [] json))).1
    = [ Transform.CallLock ("/a/typings.json" +:+ ".lock");
        Transform.CallReadFile "/a/typings.json";
        Transform.CallWriteFile "/a/typings.json" written;
        Transform.CallUnlock ("/a/typings.json" +:+ ".lock") ]
    /\ Transform.detectEOL written = Some [Transform.CR; Transform.LF].
Proof.
  apply (transformJson_keeps_line_ending
           (Desk.disk Desk.files false) Desk.flags "/a/typings.json"
           (fun json => Transform.Resolved (false :: default [] json))
           [91; 13; 10; 9; 116; 114; 117; 101; 13; 10; 93]%N
           [true] [false; true]).
  - reflexivity.
  - vm_compute. reflexivity.
  - reflexivity.
  - reflexivity.
  - reflexivity.
  - apply (bool_decide_unpack _). vm_compute. exact I.
Defined.

(** X18: when the lock cannot be taken, or the file cannot be read or is
    empty, [transformJson] parses nothing, hands [undefined] to the
    transform and writes its result with an indentation of two and the
    platform's line ending. *)
Theorem transformJson_blank_file
        {J} D (L : Transform.JsonLib J) path transform json' :
  transform None = Transform.Resolved json' ->
  Transform.lockOk D (path +:+ ".lock") = false
  \/ Transform.fileAt D path = None \/ Transform.fileAt D path = Some [] ->
  Transform.CallWriteFile path
    (Transform.replaceNewlines (Transform.EOL L)
       (Transform.stringify L json' (Transform.IndentNumber 2))
     ++ Transform.EOL L)%list
  ∈ (Transform.transformJson D L path transform).1.
Proof.
  intros Htransform Hblank. transform_unfold.
  destruct (Transform.lockOk D (path +:+ ".lock")) eqn:Hlock; cbn.
  - destruct Hblank as [Hblank|[Hblank|Hblank]]; [discriminate|..];
      rewrite Hblank; cbn; unfold Transform.jsonTransform; cbn;
      rewrite Htransform; cbn;
      destruct (Transform.unlockOk D (path +:+ ".lock")); cbn;
      repeat first [apply list_elem_of_here | apply list_elem_of_further].
  - unfold Transform.jsonTransform; cbn. rewrite Htransform; cbn.
    destruct (Transform.unlockOk D (path +:+ ".lock")); cbn;
      repeat first [apply list_elem_of_here | apply list_elem_of_further].
Qed.

Lemma transformJson_blank_file_witness :
  Transform.CallWriteFile "/a/typings.json"
    (Transform.replaceNewlines [Transform.LF]
       (Desk.stringifyFlags [false] (Transform.IndentNumber 2))
     ++ [Transform.LF])%list
  ∈ (Transform.transformJson (Desk.disk Desk.files true) Desk.flags
       "/a/typings.json"
       (fun json => Transform.Resolved (false :: default [] json))).1.
Proof.
  apply (transformJson_blank_file
           (Desk.disk Desk.files true) Desk.flags "/a/typings.json"
           (fun json => Transform.Resolved (false :: default [] json))
           [false]).
  - reflexivity.
  - left. reflexivity.
Defined.

(** X19: when the file read by [transformJson] is not empty and does not
    parse, nothing is written whatever the transform, the lock file is
    released, and the outcome is the failure of the parse, unless releasing
    the lock file fails. *)
Theorem transformJson_malformed
        {J} D (L : Transform.JsonLib J) path transform c rest :
  Transform.lockOk D (path +:+ ".lock") = true ->
  Transform.fileAt D path = Some (c :: rest) ->
  Transform.parse L (c :: rest) path = None ->
  Transform.transformJson D L path transform
  = ([ Transform.CallLock (path +:+ ".lock");
       Transform.CallReadFile path;
       Transform.CallUnlock (path +:+ ".lock") ],
     if Transform.unlockOk D (path +:+ ".lock")
     then Transform.Failed Transform.ParseFailed
     else Transform.Failed
            (Transform.CallFailed
               (Transform.CallUnlock (path +:+ ".lock")))).
Proof.
  intros Hlock Hfile Hparse. transform_unfold. rewrite Hlock. cbn.
  rewrite Hfile. cbn. unfold Transform.jsonTransform. cbn.
  rewrite Hparse. cbn.
  now destruct (Transform.unlockOk D (path +:+ ".lock")).
Qed.

Lemma transformJson_malformed_witness :
  Transform.transformJson (Desk.disk Desk.files false) Desk.flags
    "/a/notes.json" (fun _ => Transform.Resolved [true])
  = ([ Transform.CallLock "/a/notes.json.lock";
       Transform.CallReadFile "/a/notes.json";
       Transform.CallUnlock "/a/notes.json.lock" ],
     Transform.Failed Transform.ParseFailed).
Proof.
  apply (transformJson_malformed
           (Desk.disk Desk.files false) Desk.flags "/a/notes.json"
           (fun _ => Transform.Resolved [true]) 111%N [111; 112; 115]%N).
  - reflexivity.
  - vm_compute. reflexivity.
  - reflexivity.
Defined.

(** ** Reference listings *)

Lemma elem_of_uniqFrom seen arr x :
  x ∈ Transform.uniqFrom seen arr <-> x ∈ arr /\ x ∉ seen.
Proof.
  revert seen. induction arr as [|el rest IH]; intros seen; cbn.
  - rewrite elem_of_nil. tauto.
  - destruct (decide (el ∈ seen)) as [Hin|Hout].
    + rewrite IH, elem_of_cons. split; [tauto|].
      intros [[->|Hx] Hs]; [contradiction | tauto].
    + rewrite !elem_of_cons, IH, elem_of_cons.
      destruct (decide (x = el)) as [->|Hne]; [tauto|]. tauto.
Qed.

Lemma NoDup_uniqFrom seen arr : NoDup (Transform.uniqFrom seen arr).
Proof.
  revert seen. induction arr as [|el rest IH]; intros seen; cbn.
  - constructor.
  - destruct (decide (el ∈ seen)); [apply IH|].
    apply NoDup_cons. split; [|apply IH].
    rewrite elem_of_uniqFrom, elem_of_cons. tauto.
Qed.

Lemma elem_of_referenceList l x : x ∈ Transform.referenceList l <-> x ∈ l.
Proof.
  unfold Transform.referenceList, Transform.sort, Transform.uniq.
  rewrite merge_sort_Permutation, elem_of_uniqFrom, elem_of_nil. tauto.
Qed.

Lemma NoDup_referenceList l : NoDup (Transform.referenceList l).
Proof.
  unfold Transform.referenceList, Transform.sort, Transform.uniq.
  rewrite merge_sort_Permutation. apply NoDup_uniqFrom.
Qed.

Lemma Sorted_referenceList l : Sorted String.le (Transform.referenceList l).
Proof. apply (Sorted_merge_sort String.le). Qed.

(** Two lists with the same elements are listed alike. *)
Lemma referenceList_ext l1 l2 :
  (forall x, x ∈ l1 <-> x ∈ l2) ->
  Transform.referenceList l1 = Transform.referenceList l2.
Proof.
  intros Hsame. apply (Sorted_unique String.le).
  - apply Sorted_referenceList.
  - apply Sorted_referenceList.
  - apply NoDup_Permutation; [apply NoDup_referenceList..|].
    intros x. now rewrite !elem_of_referenceList.
Qed.

Lemma transformDtsFile_trace E D R path transform typings' :
  let cwd := dirname E path in
  let contents :=
    if Transform.lockOk D (path +:+ ".lock") then Transform.fileAt D path
    else None in
  transform (Transform.parseReferences R contents cwd)
  = Transform.Resolved typings' ->
  (Transform.transformDtsFile E D R path transform).1
  = (Transform.CallLock (path +:+ ".lock")
       :: (if Transform.lockOk D (path +:+ ".lock")
           then [Transform.CallReadFile path] else [])
       ++ [ Transform.CallWriteFile path
              (Transform.stringifyReferences
                 R (Transform.referenceList typings') cwd);
            Transform.CallUnlock (path +:+ ".lock") ])%list.
Proof.
  cbv zeta. intros Htransform. transform_unfold.
  unfold Transform.dtsTransform.
  destruct (Transform.lockOk D (path +:+ ".lock")); cbn;
    [destruct (Transform.fileAt D path); cbn|];
    rewrite Htransform; cbn;
    now destruct (Transform.unlockOk D (path +:+ ".lock")).
Qed.

(** X20: run with the callback of [writeDependency], [transformDtsFile]
    asks for the lock, reads the path if it got the lock, writes one
    listing to the path and releases the lock.  The listing holds the
    installed file and the references parsed from the text that was read,
    which is [undefined] when the lock was refused or the file could not be
    read, so that the references on disk are then not carried over, and
    nothing else; it has no duplicates and is in ascending order. *)
Theorem added_reference_listed E D R path file :
  let cwd := dirname E path in
  let contents :=
    if Transform.lockOk D (path +:+ ".lock") then Transform.fileAt D path
    else None in
  let typings := Transform.parseReferences R contents cwd in
  let listed := Transform.referenceList (typings ++ [file])%list in
  (Transform.transformDtsFile E D R path (Transform.addReference file)).1
  = (Transform.CallLock (path +:+ ".lock")
       :: (if Transform.lockOk D (path +:+ ".lock")
           then [Transform.CallReadFile path] else [])
       ++ [ Transform.CallWriteFile path
              (Transform.stringifyReferences R listed cwd);
            Transform.CallUnlock (path +:+ ".lock") ])%list
  /\ (file ∈ listed)
  /\ NoDup listed
  /\ Sorted String.le listed
  /\ (forall x, x ∈ listed <-> x ∈ typings \/ x = file).
Proof.
  cbv zeta. split; [now apply transformDtsFile_trace|].
  split; [|split; [apply NoDup_referenceList|
                   split; [apply Sorted_referenceList|]]].
  - rewrite elem_of_referenceList, elem_of_app, list_elem_of_singleton. auto.
  - intros x.
    now rewrite elem_of_referenceList, elem_of_app, list_elem_of_singleton.
Qed.

(** X21: when a run of [transformDtsFile] with the callback of
    [writeDependency] has written its listing, and a later run for the same
    file takes the lock, finds that listing at the path and reads it back
    as the list that was written, the later run writes the same listing
    again. *)
Theorem reference_added_once E D D' R path file :
  let cwd := dirname E path in
  let contents :=
    if Transform.lockOk D (path +:+ ".lock") then Transform.fileAt D path
    else None in
  let listed :=
    Transform.referenceList
      (Transform.parseReferences R contents cwd ++ [file])%list in
  let written := Transform.stringifyReferences R listed cwd in
  Transform.lockOk D' (path +:+ ".lock") = true ->
  Transform.fileAt D' path = Some written ->
  Transform.parseReferences R (Some written) cwd = listed ->
  Transform.CallWriteFile path written
  ∈ (Transform.transformDtsFile E D R path (Transform.addReference file)).1
  /\ (Transform.transformDtsFile E D' R path (Transform.addReference file)).1
     = [ Transform.CallLock (path +:+ ".lock");
         Transform.CallReadFile path;
         Transform.CallWriteFile path written;
         Transform.CallUnlock (path +:+ ".lock") ].
Proof.
  cbv zeta. intros Hlock Hfile Hback. split.
  - rewrite (transformDtsFile_trace E D R path (Transform.addReference file)
               _ eq_refl).
    apply list_elem_of_further, elem_of_app. right. apply list_elem_of_here.
  - rewrite (transformDtsFile_trace E D' R path (Transform.addReference file)
               _ eq_refl).
    rewrite Hlock, Hfile, Hback. cbn. do 3 f_equal.
    f_equal. f_equal. apply referenceList_ext. intros x.
    rewrite elem_of_app, elem_of_referenceList, elem_of_app,
      list_elem_of_singleton.
    tauto.
Qed.

Lemma reference_added_once_witness :
  let path := "/p/typings/main.d.ts" in
  let before :=
    Desk.disk
      {[ path := (Desk.unitsOf "main/b.d.ts" ++ [Transform.LF])%list ]}
      false in
  let written :=
    Transform.stringifyReferences Desk.references
      (Transform.referenceList
         (Transform.parseReferences Desk.references
            (if Transform.lockOk before (path +:+ ".lock")
             then Transform.fileAt before path else None)
            (dirname Fixture.projectWorld path)
          ++ ["main/a.d.ts"])%list)
      (dirname Fixture.projectWorld path) in
  let after := Desk.disk {[ path := written ]} false in
  written
  = (Desk.unitsOf "main/a.d.ts" ++ [Transform.LF]
     ++ Desk.unitsOf "main/b.d.ts" ++ [Transform.LF])%list
  /\ Transform.CallWriteFile path written
     ∈ (Transform.transformDtsFile Fixture.projectWorld before
          Desk.references path (Transform.addReference "main/a.d.ts")).1
  /\ (Transform.transformDtsFile Fixture.projectWorld after Desk.references
        path (Transform.addReference "main/a.d.ts")).1
     = [ Transform.CallLock (path +:+ ".lock");
         Transform.CallReadFile path;
         Transform.CallWriteFile path written;
         Transform.CallUnlock (path +:+ ".lock") ].
Proof.
  cbv zeta. split; [vm_compute; reflexivity|].
  apply (reference_added_once
           Fixture.projectWorld
           (Desk.disk
              {[ "/p/typings/main.d.ts"
                 := (Desk.unitsOf "main/b.d.ts" ++ [Transform.LF])%list ]}
              false)
           _ Desk.references "/p/typings/main.d.ts" "main/a.d.ts").
  - reflexivity.
  - vm_compute. reflexivity.
  - vm_compute. reflexivity.
Defined.

(** X22: run with the callback of [removeDependency], [transformDtsFile]
    asks for the lock, reads the path if it got the lock, writes one
    listing to the path and releases the lock.  The listing does not
    contain the removed file and contains exactly the other references
    parsed from the text that was read, which is [undefined] when the lock
    was refused or the file could not be read, so that the references on
    disk are then not carried over; it has no duplicates and is in
    ascending order. *)
Theorem dropped_reference_unlisted E D R path file :
  let cwd := dirname E path in
  let contents :=
    if Transform.lockOk D (path +:+ ".lock") then Transform.fileAt D path
    else None in
  let typings := Transform.parseReferences R contents cwd in
  let listed :=
    Transform.referenceList (filter (fun x => x <> file) typings) in
  (Transform.transformDtsFile E D R path (Transform.dropReference file)).1
  = (Transform.CallLock (path +:+ ".lock")
       :: (if Transform.lockOk D (path +:+ ".lock")
           then [Transform.CallReadFile path] else [])
       ++ [ Transform.CallWriteFile path
              (Transform.stringifyReferences R listed cwd);
            Transform.CallUnlock (path +:+ ".lock") ])%list
  /\ (file ∉ listed)
  /\ NoDup listed
  /\ Sorted String.le listed
  /\ (forall x, x ∈ listed <-> x ∈ typings /\ x <> file).
Proof.
  cbv zeta. split; [now apply transformDtsFile_trace|].
  split; [|split; [apply NoDup_referenceList|
                   split; [apply Sorted_referenceList|]]].
  - rewrite elem_of_referenceList, list_elem_of_filter. tauto.
  - intros x. rewrite elem_of_referenceList, list_elem_of_filter. tauto.
Qed.

(** ** The rendered tree *)

Lemma sort_Permutation l1 l2 :
  l1 ≡ₚ l2 -> Transform.sort l1 = Transform.sort l2.
Proof.
  intros Hperm. apply (Sorted_unique String.le).
  - apply (Sorted_merge_sort String.le).
  - apply (Sorted_merge_sort String.le).
  - unfold Transform.sort. now rewrite !merge_sort_Permutation.
Qed.

Lemma entries_fmap {A B} (f : A -> B) (branch : gmap string A) :
  Cli.entries (f <$> branch) = prod_map id f <$> Cli.entries branch.
Proof.
  unfold Cli.entries.
  rewrite (sort_Permutation ((map_to_list (f <$> branch)).*1)
                            ((map_to_list branch).*1)).
  - induction (Transform.sort (map_to_list branch).*1) as [|k l IH];
      [reflexivity|].
    cbn. rewrite lookup_fmap, IH. now destruct (branch !! k).
  - rewrite map_to_list_fmap, <- list_fmap_compose.
    erewrite list_fmap_ext; [reflexivity|]. now intros i [k a].
Qed.

Lemma entries_keys {A} (branch : gmap string A) :
  (Cli.entries branch).*1 = Transform.sort (map_to_list branch).*1.
Proof.
  unfold Cli.entries.
  assert (Forall (fun k => is_Some (branch !! k))
                 (Transform.sort (map_to_list branch).*1)) as Hall.
  { apply Forall_forall. intros k Hk.
    unfold Transform.sort in Hk. rewrite merge_sort_Permutation in Hk.
    apply list_elem_of_fmap in Hk as ([k' a] & -> & Hin).
    apply elem_of_map_to_list in Hin. cbn. eauto. }
  induction Hall as [|k l [a Ha] _ IH]; [reflexivity|].
  cbn. rewrite Ha. cbn. now rewrite IH.
Qed.

Lemma entries_length {A} (branch : gmap string A) :
  length (Cli.entries branch) = size branch.
Proof.
  rewrite <- (length_fmap fst), entries_keys. unfold Transform.sort.
  rewrite merge_sort_Permutation, length_fmap.
  apply length_map_to_list.
Qed.

Lemma elem_of_entries {A} (branch : gmap string A) k a :
  (k, a) ∈ Cli.entries branch <-> branch !! k = Some a.
Proof.
  unfold Cli.entries. rewrite list_elem_of_omap. split.
  - intros (k' & _ & Hk). destruct (branch !! k') eqn:Hb; [|discriminate].
    cbn in Hk. now injection Hk as <- <-.
  - intros Hk. exists k. split; [|now rewrite Hk].
    unfold Transform.sort. rewrite merge_sort_Permutation.
    apply list_elem_of_fmap. exists (k, a). split; [reflexivity|].
    now apply elem_of_map_to_list.
Qed.

Lemma traverse_unfold T tree :
  Cli.traverse T tree
  = (((fun entry => Cli.ArchyTree (Some entry.1) entry.2)
        <$> Cli.entries (Cli.traverse T <$> dependencies tree))
     ++ ((fun entry =>
            Cli.ArchyTree (Some (entry.1 +:+ " " +:+ Cli.gray T "(dev)"))
                          entry.2)
           <$> Cli.entries (Cli.traverse T <$> devDependencies tree))
     ++ ((fun entry =>
            Cli.ArchyTree
              (Some (entry.1 +:+ " " +:+ Cli.gray T "(ambient)")) entry.2)
           <$> Cli.entries (Cli.traverse T <$> ambientDependencies tree))
     ++ ((fun entry =>
            Cli.ArchyTree
              (Some (entry.1 +:+ " " +:+ Cli.gray T "(ambient dev)"))
              entry.2)
           <$> Cli.entries (Cli.traverse T <$> ambientDevDependencies tree)))%list.
Proof. now destruct tree. Qed.

Lemma group_labels {A} (label : string -> string)
      (branch : gmap string (list A)) (node : option string -> list A -> Cli.Archy) :
  (forall l ns, Cli.labelOf (node l ns) = l) ->
  Cli.labelOf <$> ((fun entry => node (Some (label entry.1)) entry.2)
                     <$> Cli.entries branch)
  = (fun k => Some (label k)) <$> Transform.sort (map_to_list branch).*1.
Proof.
  intros Hnode. rewrite <- entries_keys, <- !list_fmap_compose.
  apply list_fmap_ext. intros i [k ns] _. cbn. now rewrite Hnode.
Qed.

Lemma keys_fmap {A B} (f : A -> B) (branch : gmap string A) :
  Transform.sort (map_to_list (f <$> branch)).*1
  = Transform.sort (map_to_list branch).*1.
Proof.
  apply sort_Permutation.
  rewrite map_to_list_fmap, <- list_fmap_compose.
  erewrite list_fmap_ext; [reflexivity|]. now intros i [k a].
Qed.

(** X23: the nodes that [archifyDependencyTree] lists under a tree are one
    per entry of its four maps, grouped in the order dependencies, dev,
    ambient, ambient dev, each group in ascending order of the names, with
    the kind appended in gray to the names of the last three groups. *)
Theorem archify_lists_by_kind T tree :
  let names (branch : DependencyBranch) :=
    Transform.sort (map_to_list branch).*1 in
  Cli.labelOf <$> Cli.traverse T tree
  = ((Some <$> names (dependencies tree))
     ++ ((fun k => Some (k +:+ " " +:+ Cli.gray T "(dev)"))
           <$> names (devDependencies tree))
     ++ ((fun k => Some (k +:+ " " +:+ Cli.gray T "(ambient)"))
           <$> names (ambientDependencies tree))
     ++ ((fun k => Some (k +:+ " " +:+ Cli.gray T "(ambient dev)"))
           <$> names (ambientDevDependencies tree)))%list.
Proof.
  cbv zeta. rewrite traverse_unfold, !fmap_app.
  rewrite <- !(keys_fmap (Cli.traverse T)).
  rewrite (group_labels (fun k => k) _ Cli.ArchyTree) by reflexivity.
  rewrite (group_labels (fun k => k +:+ " " +:+ Cli.gray T "(dev)") _
                        Cli.ArchyTree) by reflexivity.
  rewrite (group_labels (fun k => k +:+ " " +:+ Cli.gray T "(ambient)") _
                        Cli.ArchyTree) by reflexivity.
  rewrite (group_labels (fun k => k +:+ " " +:+ Cli.gray T "(ambient dev)") _
                        Cli.ArchyTree) by reflexivity.
  reflexivity.
Qed.

Lemma traverse_length T tree :
  length (Cli.traverse T tree)
  = size (dependencies tree) + size (devDependencies tree)
    + size (ambientDependencies tree) + size (ambientDevDependencies tree).
Proof.
  rewrite traverse_unfold, !length_app, !length_fmap, !entries_length,
    !map_size_fmap.
  lia.
Qed.

(** X24: the line "(No dependencies)" is what [archifyDependencyTree] shows
    under a tree whose four maps are empty, and only there: a tree with
    entries shows one node per entry, and a dependency whose own maps are
    empty is shown as a node without children. *)
Theorem archify_placeholder_at_root_only T tree name :
  (emptyBranches tree ->
   Cli.archyTree T tree name
   = Cli.ArchyTree name [Cli.ArchyText (Cli.gray T "(No dependencies)")])
  /\ (~ emptyBranches tree ->
      Cli.archyTree T tree name = Cli.ArchyTree name (Cli.traverse T tree)
      /\ length (Cli.traverse T tree)
         = size (dependencies tree) + size (devDependencies tree)
           + size (ambientDependencies tree)
           + size (ambientDevDependencies tree))
  /\ (forall k c,
        dependencies tree !! k = Some c ->
        emptyBranches c ->
        Cli.ArchyTree (Some k) [] ∈ Cli.traverse T tree).
Proof.
  split; [|split].
  - intros (H1 & H2 & H3 & H4). unfold Cli.archyTree.
    rewrite traverse_unfold, H1, H2, H3, H4. reflexivity.
  - intros Hsome. split; [|apply traverse_length].
    unfold Cli.archyTree.
    destruct (Cli.traverse T tree) as [|node nodes] eqn:Hnodes;
      [|reflexivity].
    destruct Hsome. pose proof (traverse_length T tree) as Hlen.
    rewrite Hnodes in Hlen. cbn in Hlen.
    unfold emptyBranches. rewrite <- !map_size_empty_iff. lia.
  - intros k c Hk (H1 & H2 & H3 & H4).
    rewrite traverse_unfold. apply elem_of_app. left.
    apply list_elem_of_fmap. exists (k, []). split; [reflexivity|].
    apply elem_of_entries. rewrite lookup_fmap, Hk. cbn. f_equal.
    rewrite traverse_unfold, H1, H2, H3, H4. reflexivity.
Qed.
